(** * NotatApp: the clipboard rich-text capture and reconciliation engine

    A shallow embedding of the capture pipeline of [src/app.py]: byte decoder,
    markup fragment extractor, style map builder, markup run parser, legacy
    rich-text parser, run normalizer and capture reconciler, followed by the
    properties of these components. *)

From Stdlib Require Import ZArith NArith QArith List String Ascii Bool Lia Lqa.
From Stdlib Require Import Strings.Byte.
Import ListNotations.
Close Scope Q_scope.

Set Implicit Arguments.

(** ** Python values *)

(** A Python [str] is a sequence of Unicode code points, a Python [bytes] a
    sequence of bytes; Python integers are unbounded. *)
Module Py.

Definition char := N.
Definition str := list char.
Definition bytes := list byte.

(** An ASCII literal of the source, as a [str]. *)
Definition u (s : string) : str :=
  List.map (fun a => N_of_ascii a) (list_ascii_of_string s).

(** An ASCII literal of the source, as [bytes]. *)
Definition b (s : string) : bytes := list_byte_of_string s.

Definition str_eqb (x y : str) : bool :=
  if list_eq_dec N.eq_dec x y then true else false.

Definition bytes_eqb (x y : bytes) : bool :=
  if list_eq_dec Byte.byte_eq_dec x y then true else false.

(** Truthiness of a sequence: [if s:] / [if not s:]. *)
Definition truthy {A} (s : list A) : bool :=
  match s with [] => false | _ => true end.

Definition len {A} (s : list A) : Z := Z.of_nat (List.length s).

Section Seq.
Variable A : Type.
Variable eqb : A -> A -> bool.

Fixpoint startswith (p s : list A) : bool :=
  match p, s with
  | [], _ => true
  | x :: p', y :: s' => eqb x y && startswith p' s'
  | _ :: _, [] => false
  end.

Definition endswith (p s : list A) : bool :=
  startswith (rev p) (rev s).

(** [s.find(p)]: index of the first occurrence, or -1. *)
Fixpoint find_from (p s : list A) (i : Z) : Z :=
  if startswith p s then i
  else match s with
       | [] => (-1)%Z
       | _ :: s' => find_from p s' (i + 1)%Z
       end.

Definition find (p s : list A) : Z := find_from p s 0%Z.

(** [p in s] for sequences. *)
Definition contains (p s : list A) : bool := (0 <=? find p s)%Z.

(** [s.replace(old, new)] for a non-empty [old]: left to right, without
    overlap.  [skip] counts the characters of a replaced occurrence that
    are still to be passed over. *)
Fixpoint replace_from (old new : list A) (skip : nat) (s : list A) : list A :=
  match s with
  | [] => []
  | c :: t =>
      match skip with
      | S k => replace_from old new k t
      | O =>
          if startswith old s
          then new ++ replace_from old new (List.length old - 1) t
          else c :: replace_from old new 0 t
      end
  end.

Definition replace (old new s : list A) : list A := replace_from old new 0 s.

(** [s.split(sep)] for a one-character separator. *)
Fixpoint split1 (sep : A) (s : list A) : list (list A) :=
  match s with
  | [] => [[]]
  | c :: t =>
      if eqb c sep then [] :: split1 sep t
      else match split1 sep t with
           | [] => [[c]]
           | l :: ls => (c :: l) :: ls
           end
  end.

(** [sep.join(parts)]. *)
Fixpoint join (sep : list A) (parts : list (list A)) : list A :=
  match parts with
  | [] => []
  | [x] => x
  | x :: rest => x ++ sep ++ join sep rest
  end.

(** [s.lstrip(...)] / [s.rstrip(...)] with the stripped set as a predicate. *)
Fixpoint lstrip_by (p : A -> bool) (s : list A) : list A :=
  match s with
  | c :: t => if p c then lstrip_by p t else s
  | [] => []
  end.

Definition rstrip_by (p : A -> bool) (s : list A) : list A :=
  rev (lstrip_by p (rev s)).

(** [s[i:j]] for in-range non-negative bounds. *)
Definition slice (i j : nat) (s : list A) : list A :=
  firstn (j - i) (skipn i s).
End Seq.

(** [str.isspace] of one character, which is also what [\s] matches in a
    [str] pattern. *)
Definition isspace (c : char) : bool :=
  ((9 <=? c) && (c <=? 13) || (28 <=? c) && (c <=? 32) || (c =? 133)
   || (c =? 160) || (c =? 5760) || (8192 <=? c) && (c <=? 8202)
   || (c =? 8232) || (c =? 8233) || (c =? 8239) || (c =? 8287)
   || (c =? 12288))%N.

Definition lstrip : str -> str := lstrip_by isspace.
Definition rstrip : str -> str := rstrip_by isspace.
Definition strip (s : str) : str := rstrip (lstrip s).

Definition SPACE : char := 32%N.
Definition TAB : char := 9%N.
Definition LF : char := 10%N.
Definition CR : char := 13%N.
Definition NUL : char := 0%N.

Definition ascii_isdigit (c : char) : bool := ((48 <=? c) && (c <=? 57))%N.
Definition ascii_isupper (c : char) : bool := ((65 <=? c) && (c <=? 90))%N.
Definition ascii_islower (c : char) : bool := ((97 <=? c) && (c <=? 122))%N.
Definition ascii_isalpha (c : char) : bool := ascii_isupper c || ascii_islower c.
Definition ascii_tolower (c : char) : char :=
  if ascii_isupper c then (c + 32)%N else c.
Definition is_ascii (c : char) : bool := (c <? 128)%N.

End Py.
Import Py.

(** ** Regular expressions

    The source leans on Python's [re] module.  Its patterns are kept as
    syntax trees and run by a backtracking matcher with the priorities of
    [re]: alternatives left to right, greedy repetitions longest first, lazy
    ones shortest first, the first successful path wins.  Every pattern that
    the source hands to [re.sub], [re.findall] or [re.split] matches at least
    one character, so the treatment of empty matches by these three is left
    out. *)
Module Re.

Class Symbol (A : Type) := { is_newline : A -> bool }.
#[export] Instance char_symbol : Symbol char := {| is_newline := N.eqb LF |}.
#[export] Instance byte_symbol : Symbol byte :=
  {| is_newline := Byte.eqb "010"%byte |}.

Inductive re (A : Type) : Type :=
| Eps : re A
| One : (A -> bool) -> re A            (* a literal, a class, [.], [\s], [\d] *)
| Cat : re A -> re A -> re A
| Alt : re A -> re A -> re A
| Rep : bool -> nat -> option nat -> re A -> re A   (* greedy, min, max *)
| Grp : nat -> re A -> re A            (* capturing group number *)
| Eos : re A                           (* [$] *)
| Bnd : (A -> bool) -> re A.           (* [\b] for a class of word characters *)
Arguments Eps {A}.
Arguments Eos {A}.

Section Engine.
Context {A : Type} `{Symbol A}.

Record cursor := { pos : nat; prev : option A; rest : list A }.
Definition caps := list (nat * (nat * nat)).
Definition outcome := option (cursor * caps).
Definition cont := cursor -> caps -> outcome.
Definition matcher := cursor -> caps -> cont -> outcome.

Fixpoint set_cap (i : nat) (span : nat * nat) (g : caps) : caps :=
  match g with
  | [] => [(i, span)]
  | (j, s) :: g' =>
      if Nat.eqb i j then (i, span) :: g' else (j, s) :: set_cap i span g'
  end.

Fixpoint get_cap (i : nat) (g : caps) : option (nat * nat) :=
  match g with
  | [] => None
  | (j, s) :: g' => if Nat.eqb i j then Some s else get_cap i g'
  end.

Definition below (i : nat) (hi : option nat) : bool :=
  match hi with None => true | Some h => Nat.ltb i h end.

(** A repetition: [i] iterations are done; [bound] limits the number of
    further iterations, each of which has to move forward once the minimum
    is reached. *)
Fixpoint rep_loop (m1 : matcher) (greedy : bool) (lo : nat) (hi : option nat)
         (bound i : nat) (c : cursor) (g : caps) (k : cont) {struct bound}
  : outcome :=
  match bound with
  | O => None
  | S bound' =>
      let again (_ : unit) :=
        if below i hi
        then m1 c g (fun c' g' =>
               if Nat.leb lo i && Nat.eqb (pos c') (pos c) then None
               else rep_loop m1 greedy lo hi bound' (S i) c' g' k)
        else None in
      let stop (_ : unit) := if Nat.leb lo i then k c g else None in
      if greedy
      then match again tt with Some r => Some r | None => stop tt end
      else match stop tt with Some r => Some r | None => again tt end
  end.

Definition is_word (w : A -> bool) (x : option A) : bool :=
  match x with Some a => w a | None => false end.

Fixpoint exec (r : re A) : matcher :=
  match r with
  | Eps => fun c g k => k c g
  | One p => fun c g k =>
      match rest c with
      | x :: t =>
          if p x then k {| pos := S (pos c); prev := Some x; rest := t |} g
          else None
      | [] => None
      end
  | Cat r1 r2 =>
      let m1 := exec r1 in
      let m2 := exec r2 in
      fun c g k => m1 c g (fun c' g' => m2 c' g' k)
  | Alt r1 r2 =>
      let m1 := exec r1 in
      let m2 := exec r2 in
      fun c g k =>
        match m1 c g k with Some x => Some x | None => m2 c g k end
  | Rep greedy lo hi r1 =>
      let m1 := exec r1 in
      fun c g k =>
        rep_loop m1 greedy lo hi (lo + S (List.length (rest c))) 0 c g k
  | Grp i r1 =>
      let m1 := exec r1 in
      fun c g k => m1 c g (fun c' g' => k c' (set_cap i (pos c, pos c') g'))
  | Eos => fun c g k =>
      match rest c with
      | [] => k c g
      | [x] => if is_newline x then k c g else None
      | _ => None
      end
  | Bnd w => fun c g k =>
      if xorb (is_word w (prev c)) (is_word w (List.hd_error (rest c)))
      then k c g else None
  end.

(** A match object: the span of the whole match and of its groups, as
    positions in the subject. *)
Record rmatch := { m_start : nat; m_end : nat; m_caps : caps }.

Definition accept : cont := fun c g => Some (c, g).

Definition match_at (r : re A) (p : nat) (pv : option A) (s : list A)
  : option rmatch :=
  match exec r {| pos := p; prev := pv; rest := s |} [] accept with
  | Some (c, g) => Some {| m_start := p; m_end := pos c; m_caps := g |}
  | None => None
  end.

(** [re.match(r, s)]. *)
Definition rematch (r : re A) (s : list A) : option rmatch :=
  match_at r 0 None s.

Fixpoint search_from (r : re A) (p : nat) (pv : option A) (s : list A)
  : option rmatch :=
  match match_at r p pv s with
  | Some m => Some m
  | None =>
      match s with
      | [] => None
      | x :: t => search_from r (S p) (Some x) t
      end
  end.

(** [re.search(r, s)]. *)
Definition search (r : re A) (s : list A) : option rmatch :=
  search_from r 0 None s.

(** [m.group(0)] and [m.group(i)] ([None] for a group that took no part). *)
Definition group0 (s : list A) (m : rmatch) : list A :=
  slice (m_start m) (m_end m) s.

Definition group (s : list A) (m : rmatch) (i : nat) : option (list A) :=
  match get_cap i (m_caps m) with
  | Some (a, z) => Some (slice a z s)
  | None => None
  end.

(** [m.group(i)] where the group is known to take part in every match. *)
Definition group_ (s : list A) (m : rmatch) (i : nat) : list A :=
  match group s m i with Some x => x | None => [] end.

(** [re.sub(r, repl, s)] for a literal replacement. *)
Fixpoint sub_from (r : re A) (repl : list A) (skip p : nat) (pv : option A)
         (s : list A) : list A :=
  match s with
  | [] => []
  | x :: t =>
      match skip with
      | S k => sub_from r repl k (S p) (Some x) t
      | O =>
          match match_at r p pv s with
          | Some m =>
              if Nat.eqb (m_end m) p
              then x :: sub_from r repl 0 (S p) (Some x) t
              else repl ++ sub_from r repl (m_end m - p - 1) (S p) (Some x) t
          | None => x :: sub_from r repl 0 (S p) (Some x) t
          end
      end
  end.

Definition sub (r : re A) (repl s : list A) : list A :=
  sub_from r repl 0 0 None s.

(** The successive matches that [re.findall] and [re.split] walk over. *)
Fixpoint matches_from (r : re A) (skip p : nat) (pv : option A) (s : list A)
  : list rmatch :=
  match s with
  | [] => []
  | x :: t =>
      match skip with
      | S k => matches_from r k (S p) (Some x) t
      | O =>
          match match_at r p pv s with
          | Some m =>
              if Nat.eqb (m_end m) p
              then matches_from r 0 (S p) (Some x) t
              else m :: matches_from r (m_end m - p - 1) (S p) (Some x) t
          | None => matches_from r 0 (S p) (Some x) t
          end
      end
  end.

Definition findall (r : re A) (s : list A) : list rmatch :=
  matches_from r 0 0 None s.

(** [re.split(r, s)] for a pattern without groups. *)
Fixpoint split_at (s : list A) (from : nat) (ms : list rmatch)
  : list (list A) :=
  match ms with
  | [] => [skipn from s]
  | m :: ms' => slice from (m_start m) s :: split_at s (m_end m) ms'
  end.

Definition split (r : re A) (s : list A) : list (list A) :=
  split_at s 0 (findall r s).

(** Pattern syntax. *)
Fixpoint cat (rs : list (re A)) : re A :=
  match rs with
  | [] => Eps
  | [r] => r
  | r :: rs' => Cat r (cat rs')
  end.

Definition star (r : re A) : re A := Rep true 0 None r.        (* r* *)
Definition plus (r : re A) : re A := Rep true 1 None r.        (* r+ *)
Definition opt (r : re A) : re A := Rep true 0 (Some 1) r.     (* r? *)
Definition lazy_star (r : re A) : re A := Rep false 0 None r.  (* r*? *)
Definition times (lo hi : nat) (r : re A) : re A :=            (* r{lo,hi} *)
  Rep true lo (Some hi) r.
Definition at_least (lo : nat) (r : re A) : re A := Rep true lo None r.
End Engine.

(** Literal text of a [str] pattern, without and with [re.IGNORECASE]. *)
Definition chr (c : char) : re char := One (N.eqb c).
Definition lit (s : string) : re char := cat (List.map chr (u s)).

(** [re.IGNORECASE] on a [str] pattern compares simple lower-case forms;
    beside the ASCII capital, [i] also takes U+0130 and U+0131, [k] U+212A
    and [s] U+017F. *)
Definition ieq (l c : char) : bool :=
  let l := ascii_tolower l in
  (N.eqb (ascii_tolower c) l
   || N.eqb l 105 && (N.eqb c 304 || N.eqb c 305)
   || N.eqb l 107 && N.eqb c 8490
   || N.eqb l 115 && N.eqb c 383)%bool.
Definition chr_i (c : char) : re char := One (ieq c).
Definition lit_i (s : string) : re char := cat (List.map chr_i (u s)).

(** Literal text of a [bytes] pattern. *)
Definition blit (s : string) : re byte :=
  cat (List.map (fun x => One (Byte.eqb x)) (b s)).

(** [\s] and [.] (with [re.DOTALL]) in a [str] pattern; [\d] in a [bytes]
    pattern. *)
Definition ws : re char := One isspace.
Definition any : re char := One (fun _ => true).
Definition bdigit_value (x : byte) : option N :=
  let n := Byte.to_N x in
  if ((48 <=? n) && (n <=? 57))%N then Some (n - 48)%N else None.
Definition bdigit : re byte :=
  One (fun x => match bdigit_value x with Some _ => true | None => false end).
Definition one_of (s : string) : char -> bool :=
  fun c => existsb (N.eqb c) (u s).
Definition none_of (s : string) : char -> bool :=
  fun c => negb (one_of s c).

(** [[ \t]] *)
Definition blank (c : char) : bool := N.eqb c SPACE || N.eqb c TAB.

End Re.
Import Re.

(** ** Runs and the run normalizer *)

(** A run is the pair [(text, is_bold)] of the source. *)
Definition run : Type := str * bool.

(** The streaming merge shared by the parsers' [_append] and by the first
    loop of [_normalize_captured_runs]: extend the last run when it has the
    same bold value, else append a new run. *)
Fixpoint append_run (runs : list run) (text : str) (is_bold : bool) : list run :=
  match runs with
  | [] => [(text, is_bold)]
  | [(prev_text, b0)] =>
      if Bool.eqb b0 is_bold then [(prev_text ++ text, is_bold)]
      else [(prev_text, b0); (text, is_bold)]
  | r :: rest => r :: append_run rest text is_bold
  end.

(** [MULTISPACE_PATTERN = re.compile(r"[ \t]{2,}")] *)
Definition MULTISPACE_PATTERN : re char := at_least 2 (One blank).

(** [_normalize_captured_text] *)
Definition _normalize_captured_text (text : str) : str :=
  let normalized := replace N.eqb [CR] [LF] (replace N.eqb [CR; LF] [LF] text) in
  let normalized :=
    replace N.eqb [8239%N] [SPACE] (replace N.eqb [160%N] [SPACE] normalized) in
  let normalized_lines :=
    List.map (sub MULTISPACE_PATTERN [SPACE]) (split1 N.eqb LF normalized) in
  join [LF] normalized_lines.

(** [r"\n[ \t]*-\s*\n"] *)
Definition blank_bullet_re : re char :=
  cat [chr LF; star (One blank); lit "-"; star ws; chr LF].

(** [r"\n{3,}"] *)
Definition blank_lines_re : re char := at_least 3 (chr LF).

(** The per-run cleaning at the head of the first loop. *)
Definition clean_run_text (run_text : str) : str :=
  let cleaned := _normalize_captured_text run_text in
  let cleaned := replace N.eqb [8226%N] (u "-") cleaned in
  let cleaned := sub blank_bullet_re (LF :: u "- ") cleaned in
  let cleaned := sub blank_lines_re [LF; LF] cleaned in
  let cleaned := replace N.eqb ([LF; LF] ++ u "- ") (LF :: u "- ") cleaned in
  let cleaned := replace N.eqb (LF :: u "-  ") (LF :: u "- ") cleaned in
  cleaned.

(** First loop: clean each run, skip the empty ones, merge equal neighbours. *)
Definition merge_cleaned (normalized : list run) (r : run) : list run :=
  let '(run_text, is_bold) := r in
  let cleaned := clean_run_text run_text in
  if negb (truthy cleaned) then normalized
  else append_run normalized cleaned is_bold.

(** Second loop, [for i in range(1, len(normalized))]: [prev] is the text of
    the run before, as the loop left it. *)
Fixpoint collapse_joint_spaces (prev : str) (rest : list run) : list run :=
  match rest with
  | [] => []
  | (curr, is_bold) :: rest' =>
      let curr' :=
        if endswith N.eqb [SPACE] prev && startswith N.eqb [SPACE] curr
        then lstrip_by (N.eqb SPACE) curr
        else curr in
      (curr', is_bold) :: collapse_joint_spaces curr' rest'
  end.

Definition nonempty_runs (l : list run) : list run :=
  List.filter (fun item => truthy (fst item)) l.

Definition map_first (f : str -> str) (l : list run) : list run :=
  match l with
  | [] => []
  | (t, b0) :: rest => (f t, b0) :: rest
  end.

Fixpoint map_last (f : str -> str) (l : list run) : list run :=
  match l with
  | [] => []
  | [(t, b0)] => [(f t, b0)]
  | r :: rest => r :: map_last f rest
  end.

(** [_normalize_captured_runs] *)
Definition _normalize_captured_runs (runs : list run) : list run :=
  let normalized := List.fold_left merge_cleaned runs [] in
  match normalized with
  | [] => []
  | (first, first_bold) :: others =>
      let normalized :=
        (first, first_bold) :: collapse_joint_spaces first others in
      let normalized := nonempty_runs normalized in
      match normalized with
      | [] => []
      | _ =>
          let normalized := map_first lstrip normalized in
          let normalized := map_last rstrip normalized in
          nonempty_runs normalized
      end
  end.

(** ** Codecs

    [bytes.decode(encoding)] for the encodings the source names.  [None]
    stands for a raised [UnicodeDecodeError]. *)
Module Codec.

Local Open Scope N_scope.

Inductive encoding := UTF8 | CP1252 | LATIN1 | UTF16 | UTF16LE | UTF16BE.

Definition in_range (lo hi x : N) : bool := (lo <=? x) && (x <=? hi).

Definition latin1 (data : bytes) : option str :=
  Some (List.map Byte.to_N data).

(** The five bytes without a character in code page 1252 raise. *)
Definition cp1252_char (x : byte) : option char :=
  let n := Byte.to_N x in
  if (n <? 128) || (160 <=? n) then Some n
  else match n with
       | 128 => Some 8364 | 130 => Some 8218 | 131 => Some 402
       | 132 => Some 8222 | 133 => Some 8230 | 134 => Some 8224
       | 135 => Some 8225 | 136 => Some 710 | 137 => Some 8240
       | 138 => Some 352 | 139 => Some 8249 | 140 => Some 338
       | 142 => Some 381 | 145 => Some 8216 | 146 => Some 8217
       | 147 => Some 8220 | 148 => Some 8221 | 149 => Some 8226
       | 150 => Some 8211 | 151 => Some 8212 | 152 => Some 732
       | 153 => Some 8482 | 154 => Some 353 | 155 => Some 8250
       | 156 => Some 339 | 158 => Some 382 | 159 => Some 376
       | _ => None
       end.

Fixpoint cp1252 (data : bytes) : option str :=
  match data with
  | [] => Some []
  | x :: t =>
      match cp1252_char x, cp1252 t with
      | Some c, Some s => Some (c :: s)
      | _, _ => None
      end
  end.

(** The 16-bit code units of a buffer; an odd trailing byte is an error. *)
Fixpoint code_units (little : bool) (data : bytes) : option (list N) :=
  match data with
  | [] => Some []
  | [_] => None
  | x :: y :: t =>
      let w := if little then Byte.to_N x + 256 * Byte.to_N y
               else 256 * Byte.to_N x + Byte.to_N y in
      option_map (cons w) (code_units little t)
  end.

(** Surrogate pairs combine; a lone surrogate is an error. *)
Fixpoint from_units (ws : list N) : option str :=
  match ws with
  | [] => Some []
  | w :: t =>
      if in_range 55296 56319 w then
        match t with
        | w2 :: t2 =>
            if in_range 56320 57343 w2
            then option_map
                   (cons (65536 + (w - 55296) * 1024 + (w2 - 56320)))
                   (from_units t2)
            else None
        | [] => None
        end
      else if in_range 56320 57343 w then None
      else option_map (cons w) (from_units t)
  end.

Definition utf16_order (little : bool) (data : bytes) : option str :=
  match code_units little data with
  | Some ws => from_units ws
  | None => None
  end.

(** ["utf-16"] honours a byte-order mark and otherwise reads in the byte
    order of the host, little-endian on the Windows machines the program
    runs on. *)
Definition utf16 (data : bytes) : option str :=
  match data with
  | "255"%byte :: "254"%byte :: t => utf16_order true t
  | "254"%byte :: "255"%byte :: t => utf16_order false t
  | _ => utf16_order true data
  end.

(** One UTF-8 sequence at the head of a non-empty buffer: the character and
    the number of bytes it takes, or the number of bytes of the ill-formed
    part that an error handler passes over. *)
Definition cont_byte (x : N) : bool := in_range 128 191 x.

Definition utf8_head (data : list N) : (char * nat) + nat :=
  match data with
  | [] => inr O
  | c :: t =>
      if c <? 128 then inl (c, 1%nat)
      else if c <? 194 then inr 1%nat
      else if c <? 224 then
        match t with
        | [] => inr 1%nat
        | c2 :: _ =>
            if cont_byte c2 then inl ((c - 192) * 64 + (c2 - 128), 2%nat)
            else inr 1%nat
        end
      else if c <? 240 then
        match t with
        | [] => inr 1%nat
        | c2 :: t2 =>
            if negb (cont_byte c2)
               || (if c2 <? 160 then c =? 224 else c =? 237)
            then inr 1%nat
            else match t2 with
                 | [] => inr 2%nat
                 | c3 :: _ =>
                     if cont_byte c3
                     then inl ((c - 224) * 4096 + (c2 - 128) * 64 + (c3 - 128),
                               3%nat)
                     else inr 2%nat
                 end
        end
      else if c <? 245 then
        match t with
        | [] => inr 1%nat
        | c2 :: t2 =>
            if negb (cont_byte c2)
               || (if c2 <? 144 then c =? 240 else c =? 244)
            then inr 1%nat
            else match t2 with
                 | [] => inr 2%nat
                 | c3 :: t3 =>
                     if negb (cont_byte c3) then inr 2%nat
                     else match t3 with
                          | [] => inr 3%nat
                          | c4 :: _ =>
                              if cont_byte c4
                              then inl ((c - 240) * 262144 + (c2 - 128) * 4096
                                        + (c3 - 128) * 64 + (c4 - 128), 4%nat)
                              else inr 3%nat
                          end
                 end
        end
      else inr 1%nat
  end.

(** [strict = false] is [errors="ignore"]: ill-formed parts are dropped. *)
Fixpoint utf8_from (strict : bool) (skip : nat) (data : list N) : option str :=
  match data with
  | [] => Some []
  | _ :: t =>
      match skip with
      | S k => utf8_from strict k t
      | O =>
          match utf8_head data with
          | inl (c, n) => option_map (cons c) (utf8_from strict (n - 1) t)
          | inr n => if strict then None else utf8_from strict (n - 1) t
          end
      end
  end.

Definition utf8 (data : bytes) : option str :=
  utf8_from true 0 (List.map Byte.to_N data).

(** [data.decode("utf-8", errors="ignore")] *)
Definition utf8_ignore (data : bytes) : str :=
  match utf8_from false 0 (List.map Byte.to_N data) with
  | Some s => s
  | None => []
  end.

(** [data.decode(encoding)] *)
Definition decode (e : encoding) (data : bytes) : option str :=
  match e with
  | UTF8 => utf8 data
  | CP1252 => cp1252 data
  | LATIN1 => latin1 data
  | UTF16 => utf16 data
  | UTF16LE => utf16_order true data
  | UTF16BE => utf16_order false data
  end.

End Codec.

(** ** The Unicode character database

    The source calls [str.isalpha], [str.isdigit], [int], [str.lower],
    [str.casefold] and the pattern [\b].  On ASCII these are written out; on
    the other code points they are the tables of the Unicode character
    database, which the development takes as given: every statement below
    holds whatever these tables say. *)
Class Unicode := {
  uni_isalpha : char -> bool;
  uni_isdigit : char -> bool;
  uni_isalnum : char -> bool;
  (** the value of a decimal digit, the characters that [int] and [\d] take *)
  uni_decimal : char -> option Z;
  (** the full case folding of one character *)
  uni_casefold : char -> str;
  uni_casefold_nonempty : forall c, uni_casefold c <> [];
  (** [str.lower] of a string with a character outside ASCII *)
  uni_lower : str -> str
}.

Section Characters.
Context {U : Unicode}.

Definition isalpha (c : char) : bool :=
  if is_ascii c then ascii_isalpha c else uni_isalpha c.

Definition isdigit (c : char) : bool :=
  if is_ascii c then ascii_isdigit c else uni_isdigit c.

Definition isalnum (c : char) : bool :=
  if is_ascii c then ascii_isalpha c || ascii_isdigit c else uni_isalnum c.

(** [\w] of a [str] pattern. *)
Definition isword (c : char) : bool := isalnum c || N.eqb c 95.

Definition decimal (c : char) : option Z :=
  if is_ascii c
  then (if ascii_isdigit c then Some (Z.of_N c - 48)%Z else None)
  else uni_decimal c.

(** The value of a text of decimal digits; [None] when a character is not
    a decimal digit. *)
Fixpoint int_from (acc : Z) (s : str) : option Z :=
  match s with
  | [] => Some acc
  | c :: t =>
      match decimal c with
      | Some d => int_from (10 * acc + d)%Z t
      | None => None
      end
  end.

(** [sys.int_info.default_max_str_digits]: [int] raises [ValueError] on a
    text of more digits than this. *)
Definition MAX_STR_DIGITS : Z := 4300.

(** [int(s)] for a non-empty [s] of [isdigit] or [\d] characters;
    [None] is [ValueError], which [int] raises on a character that is not a
    decimal digit and on more than [MAX_STR_DIGITS] digits.  Below that
    limit Python integers are unbounded. *)
Definition int (s : str) : option Z :=
  if (MAX_STR_DIGITS <? len s)%Z then None else int_from 0%Z s.

Definition casefold_char (c : char) : str :=
  if is_ascii c then [ascii_tolower c] else uni_casefold c.

Definition casefold (s : str) : str := List.flat_map casefold_char s.

Definition lower (s : str) : str :=
  if List.forallb is_ascii s then List.map ascii_tolower s else uni_lower s.
End Characters.

Fixpoint takewhile {A} (p : A -> bool) (s : list A) : list A :=
  match s with
  | c :: t => if p c then c :: takewhile p t else []
  | [] => []
  end.

Fixpoint last_opt {A} (s : list A) : option A :=
  match s with
  | [] => None
  | [x] => Some x
  | _ :: t => last_opt t
  end.

(** ** The legacy rich-text parser *)
Module ClipboardRtfRunParser.
Section Parser.
Context {U : Unicode}.

Record state := {
  runs : list run;
  _bold : bool;
  _bold_stack : list bool;      (* top of the stack first *)
  _uc_skip : Z;
  _pending_skip : Z
}.

(** [__init__], and the reset at the head of [parse]. *)
Definition init : state :=
  {| runs := []; _bold := false; _bold_stack := []; _uc_skip := 1;
     _pending_skip := 0 |}.

Definition with_runs (st : state) (r : list run) : state :=
  {| runs := r; _bold := _bold st; _bold_stack := _bold_stack st;
     _uc_skip := _uc_skip st; _pending_skip := _pending_skip st |}.
Definition with_bold (st : state) (v : bool) : state :=
  {| runs := runs st; _bold := v; _bold_stack := _bold_stack st;
     _uc_skip := _uc_skip st; _pending_skip := _pending_skip st |}.
Definition with_bold_stack (st : state) (v : list bool) : state :=
  {| runs := runs st; _bold := _bold st; _bold_stack := v;
     _uc_skip := _uc_skip st; _pending_skip := _pending_skip st |}.
Definition with_uc_skip (st : state) (v : Z) : state :=
  {| runs := runs st; _bold := _bold st; _bold_stack := _bold_stack st;
     _uc_skip := v; _pending_skip := _pending_skip st |}.
Definition with_pending_skip (st : state) (v : Z) : state :=
  {| runs := runs st; _bold := _bold st; _bold_stack := _bold_stack st;
     _uc_skip := _uc_skip st; _pending_skip := v |}.

(** [_append(text, is_bold=None)] *)
Definition _append (st : state) (text : str) (is_bold : option bool) : state :=
  if negb (truthy text) then st
  else
    let is_bold := match is_bold with Some v => v | None => _bold st end in
    with_runs st (append_run (runs st) text is_bold).

(** [_read_control_word(text, index)] on the text from [index] on: the
    word, the number and how far the index moves.  [None] is the
    [ValueError] of [int]. *)
Definition _read_control_word (s : str) : option (str * option Z * nat) :=
  let word := takewhile isalpha s in
  let s1 := skipn (List.length word) s in
  let '(sign, signed) :=
    match s1 with
    | c :: _ =>
        if N.eqb c 45 then ((-1)%Z, 1%nat)
        else if N.eqb c 43 then (1%Z, 1%nat)
        else (1%Z, 0%nat)
    | [] => (1%Z, 0%nat)
    end in
  let s2 := skipn signed s1 in
  let digits := takewhile isdigit s2 in
  let s3 := skipn (List.length digits) s2 in
  let spaced :=
    match s3 with
    | c :: _ => if N.eqb c SPACE then 1%nat else 0%nat
    | [] => 0%nat
    end in
  let moved := (List.length word + signed + List.length digits + spaced)%nat in
  match digits with
  | [] => Some (word, None, moved)
  | _ =>
      match int digits with
      | Some v => Some (word, Some (sign * v)%Z, moved)
      | None => None
      end
  end.

Definition hex_value_of (c : char) : option N :=
  if ascii_isdigit c then Some (c - 48)%N
  else if ((97 <=? c) && (c <=? 102))%N then Some (c - 87)%N
  else if ((65 <=? c) && (c <=? 70))%N then Some (c - 55)%N
  else None.

Definition hex_space (c : char) : bool :=
  ((9 <=? c) && (c <=? 13) || (c =? 32))%N.

(** [bytes.fromhex(hex_value).decode("cp1252")] for the two characters
    after the quote; [None] is any of the exceptions it raises. *)
Definition decode_hex (hex_value : str) : option str :=
  match hex_value with
  | [h; l] =>
      match hex_value_of h, hex_value_of l with
      | Some x, Some y =>
          match Byte.of_N (16 * x + y) with
          | Some byte => Codec.cp1252 [byte]
          | None => None
          end
      | _, _ => if hex_space h && hex_space l then Some [] else None
      end
  | _ => None
  end.

Definition is_special (c : char) : bool :=
  N.eqb c 92 || N.eqb c 123 || N.eqb c 125.       (* backslash, braces *)

(** The effect of a control word. *)
Definition control (st : state) (word : str) (number : option Z) : state :=
  if str_eqb word (u "b") then
    with_bold st (match number with Some 0%Z => false | _ => true end)
  else if str_eqb word (u "par") || str_eqb word (u "line") then
    _append st [LF] (Some false)
  else if str_eqb word (u "tab") then _append st [TAB] None
  else if str_eqb word (u "emdash") || str_eqb word (u "endash") then
    _append st (u "-") None
  else if str_eqb word (u "bullet") then _append st (u "- ") (Some false)
  else
    match number with
    | Some number =>
        if str_eqb word (u "u") then
          let codepoint :=
            if (0 <=? number)%Z then number else (number + 65536)%Z in
          let st :=
            if ((0 <=? codepoint) && (codepoint <? 1114112))%Z
            then _append st [Z.to_N codepoint] None
            else st in
          with_pending_skip st (Z.max 0 (_uc_skip st))
        else if str_eqb word (u "uc") && (0 <=? number)%Z then
          with_uc_skip st number
        else st
    | None => st
    end.

(** One turn of the [while i < n] loop of [parse] on the text from [i]
    on: the new state and how far [i] moves.  [None] is an exception. *)
Definition step (st : state) (s : str) : option (state * nat) :=
  match s with
  | [] => Some (st, 0%nat)
  | ch :: t =>
      if (0 <? _pending_skip st)%Z && negb (is_special ch) then
        Some (with_pending_skip st (_pending_skip st - 1)%Z, 1%nat)
      else if N.eqb ch 123 then
        Some (with_bold_stack st (_bold st :: _bold_stack st), 1%nat)
      else if N.eqb ch 125 then
        match _bold_stack st with
        | top :: below =>
            Some (with_bold_stack (with_bold st top) below, 1%nat)
        | [] => Some (st, 1%nat)
        end
      else if negb (N.eqb ch 92) then Some (_append st [ch] None, 1%nat)
      else
        match t with
        | [] => Some (st, 1%nat)
        | symbol :: t2 =>
            if is_special symbol then Some (_append st [symbol] None, 2%nat)
            else if N.eqb symbol 39 then
              if (2 <=? List.length t2)%nat then
                let hex_value := firstn 2 t2 in
                match decode_hex hex_value with
                | Some decoded => Some (_append st decoded None, 4%nat)
                | None => Some (st, 4%nat)
                end
              else Some (st, 2%nat)
            else if negb (isalpha symbol) then
              let st :=
                if N.eqb symbol 126 then _append st [SPACE] None
                else if N.eqb symbol 95 then _append st (u "-") None
                else if N.eqb symbol 45 then _append st (u "-") None
                else st in
              Some (st, 2%nat)
            else
              match _read_control_word t with
              | Some (word, number, moved) =>
                  Some (control st word number, S moved)
              | None => None
              end
        end
  end.

(** The loop: [skip] characters are still to be passed over before the
    next turn. *)
Fixpoint parse_from (skip : nat) (st : state) (s : str) : option state :=
  match s with
  | [] => Some st
  | _ :: t =>
      match skip with
      | S k => parse_from k st t
      | O =>
          match step st s with
          | Some (st', moved) => parse_from (moved - 1) st' t
          | None => None
          end
      end
  end.

(** [parse(rtf_text)] *)
Definition parse (rtf_text : str) : option (list run) :=
  option_map runs (parse_from 0 init rtf_text).
End Parser.
End ClipboardRtfRunParser.

(** ** Dictionaries

    A Python [dict] with string keys, in insertion order. *)
Definition dict (V : Type) : Type := list (str * V).

Fixpoint dict_get {V} (d : dict V) (k : str) : option V :=
  match d with
  | [] => None
  | (k', v) :: d' => if str_eqb k k' then Some v else dict_get d' k
  end.

Fixpoint dict_set {V} (d : dict V) (k : str) (v : V) : dict V :=
  match d with
  | [] => [(k, v)]
  | (k', v') :: d' =>
      if str_eqb k k' then (k, v) :: d' else (k', v') :: dict_set d' k v
  end.

(** [d.get(k, default)] with the empty string as default *)
Definition dict_get_str (d : dict str) (k : str) : str :=
  match dict_get d k with Some v => v | None => [] end.

(** ** The standard library at the boundary

    [html.parser.HTMLParser] tokenizes markup and calls the handlers of the
    subclass; [difflib.SequenceMatcher] scores similarity.  Both are taken
    as given: the tokenizer as the sequence of handler calls that [feed]
    followed by [close] makes on a text ([None] when it raises), the matcher
    as its ratio.  The ratio is the float [2.0 * M / T] of two integers; at
    the lengths a clipboard holds, comparing such floats with each other and
    with 0.28 agrees with comparing the exact fractions, which is what the
    development does. *)
Inductive html_event :=
| StartTag (tag : str) (attrs : list (str * option str))
| EndTag (tag : str)
| Data (data : str).

Class Library := {
  html_feed : str -> option (list html_event);
  SequenceMatcher_ratio : str -> str -> Q
}.

(** ** The markup run parser *)
Module ClipboardHtmlRunParser.
Section Parser.
Context {U : Unicode}.

Definition BLOCK_TAGS : list str :=
  List.map u ["p"; "div"; "section"; "article"; "header"; "footer"; "aside";
              "blockquote"; "pre"; "ul"; "ol"; "table"; "tr"; "h1"; "h2";
              "h3"; "h4"; "h5"; "h6"]%string.

Definition str_in (x : str) (l : list str) : bool := existsb (str_eqb x) l.

Record state := {
  runs : list run;
  _bold_depth : Z;
  _skip_depth : Z;
  _tag_stack : list (str * bool);     (* last pushed first *)
  _li_depth : Z;
  _class_bold_map : dict bool;
  _css_vars : dict str
}.

(** [__init__(class_bold_map, css_vars)] *)
Definition init (class_bold_map : dict bool) (css_vars : dict str) : state :=
  {| runs := []; _bold_depth := 0; _skip_depth := 0; _tag_stack := [];
     _li_depth := 0; _class_bold_map := class_bold_map;
     _css_vars := css_vars |}.

Definition with_runs (st : state) (v : list run) : state :=
  {| runs := v; _bold_depth := _bold_depth st; _skip_depth := _skip_depth st;
     _tag_stack := _tag_stack st; _li_depth := _li_depth st;
     _class_bold_map := _class_bold_map st; _css_vars := _css_vars st |}.
Definition with_bold_depth (st : state) (v : Z) : state :=
  {| runs := runs st; _bold_depth := v; _skip_depth := _skip_depth st;
     _tag_stack := _tag_stack st; _li_depth := _li_depth st;
     _class_bold_map := _class_bold_map st; _css_vars := _css_vars st |}.
Definition with_skip_depth (st : state) (v : Z) : state :=
  {| runs := runs st; _bold_depth := _bold_depth st; _skip_depth := v;
     _tag_stack := _tag_stack st; _li_depth := _li_depth st;
     _class_bold_map := _class_bold_map st; _css_vars := _css_vars st |}.
Definition with_tag_stack (st : state) (v : list (str * bool)) : state :=
  {| runs := runs st; _bold_depth := _bold_depth st;
     _skip_depth := _skip_depth st; _tag_stack := v;
     _li_depth := _li_depth st; _class_bold_map := _class_bold_map st;
     _css_vars := _css_vars st |}.
Definition with_li_depth (st : state) (v : Z) : state :=
  {| runs := runs st; _bold_depth := _bold_depth st;
     _skip_depth := _skip_depth st; _tag_stack := _tag_stack st;
     _li_depth := v; _class_bold_map := _class_bold_map st;
     _css_vars := _css_vars st |}.

(** [r"\s*!important\s*$"], [re.IGNORECASE] *)
Definition important_re : re char :=
  cat [star ws; lit_i "!important"; star ws; Eos].

(** [[A-Za-z0-9_-]] *)
Definition name_char (c : char) : bool :=
  ascii_isalpha c || ascii_isdigit c || N.eqb c 95 || N.eqb c 45.

(** [r"var\(\s*(--[A-Za-z0-9_-]+)\s*(?:,\s*([^)]+))?\)"] *)
Definition var_re : re char :=
  cat [lit "var("; star ws; Grp 1 (Cat (lit "--") (plus (One name_char)));
       star ws;
       opt (cat [lit ","; star ws; Grp 2 (plus (One (none_of ")")))]);
       lit ")"].

(** [_resolve_css_value(value, css_vars, depth)], with [left = 7 - depth]
    levels still allowed. *)
Fixpoint resolve_css_value (left : nat) (value : str) (css_vars : dict str)
  : str :=
  match left with
  | O => strip value
  | S left' =>
      let text := strip value in
      if negb (truthy text) then []
      else
        let text := strip (sub important_re [] text) in
        match rematch var_re text with
        | Some var_match =>
            let var_name := casefold (group_ text var_match 1) in
            let fallback :=
              match group text var_match 2 with
              | Some g => if truthy g then strip g else []
              | None => []
              end in
            let resolved :=
              if truthy css_vars then dict_get_str css_vars var_name
              else [] in
            let resolved := if negb (truthy resolved) then fallback
                            else resolved in
            resolve_css_value left' resolved css_vars
        | None => text
        end
  end.

Definition _resolve_css_value (value : str) (css_vars : dict str) : str :=
  resolve_css_value 7 value css_vars.

(** [r"<property>\s*:\s*([^;]+)"] *)
Definition property_re (name : string) : re char :=
  cat [lit name; star ws; lit ":"; star ws; Grp 1 (plus (One (none_of ";")))].

(** [r"\b(bold|bolder|semibold|demibold|black)\b"] *)
Definition font_keyword_re : re char :=
  cat [Bnd isword;
       Grp 1 (Alt (lit "bold") (Alt (lit "bolder") (Alt (lit "semibold")
                (Alt (lit "demibold") (lit "black")))));
       Bnd isword].

(** [r"\b([5-9]00)\b"] *)
Definition font_number_re : re char :=
  cat [Bnd isword; Grp 1 (Cat (One (one_of "56789")) (lit "00"));
       Bnd isword].

(** [r"([0-9]{3,4})"] and [r"['\"]?wght['\"]?\s*([0-9]{2,4})"] *)
Definition weight_number_re : re char := Grp 1 (times 3 4 (One ascii_isdigit)).
Definition quote_char (c : char) : bool := N.eqb c 39 || N.eqb c 34.
Definition wght_re : re char :=
  cat [opt (One quote_char); lit "wght"; opt (One quote_char); star ws;
       Grp 1 (times 2 4 (One ascii_isdigit))].

Definition int_ge_500 (digits : str) : bool :=
  match int digits with Some v => (500 <=? v)%Z | None => false end.

(** [_style_implies_bold(style_text, css_vars)] *)
Definition _style_implies_bold (style_text : str) (css_vars : dict str)
  : bool :=
  if negb (truthy style_text) then false
  else
    let lowered := casefold style_text in
    let by_font :=
      match search (property_re "font") lowered with
      | Some font_match =>
          let font_value :=
            _resolve_css_value (group_ lowered font_match 1) css_vars in
          match search font_keyword_re font_value with
          | Some _ => true
          | None =>
              match search font_number_re font_value with
              | Some _ => true
              | None => false
              end
          end
      | None => false
      end in
    if by_font then true
    else
      let by_weight :=
        match search (property_re "font-weight") lowered with
        | Some m =>
            let value :=
              strip (_resolve_css_value (group_ lowered m 1) css_vars) in
            if str_in value (List.map u ["bold"; "bolder"; "semibold";
                                         "demibold"; "medium"; "black"]%string)
            then true
            else
              match rematch weight_number_re value with
              | Some number_match => int_ge_500 (group_ value number_match 1)
              | None => false
              end
        | None => false
        end in
      if by_weight then true
      else
        let by_variation :=
          match search (property_re "font-variation-settings") lowered with
          | Some variation_match =>
              let variation_value :=
                _resolve_css_value (group_ lowered variation_match 1)
                                   css_vars in
              match search wght_re variation_value with
              | Some wght_match =>
                  int_ge_500 (group_ variation_value wght_match 1)
              | None => false
              end
          | None => false
          end in
        if by_variation then true
        else
          match search (property_re "font-family") lowered with
          | Some family_match =>
              let family_value :=
                _resolve_css_value (group_ lowered family_match 1) css_vars in
              contains N.eqb (u "bold") family_value
              || contains N.eqb (u "black") family_value
              || contains N.eqb (u "semibold") family_value
              || contains N.eqb (u "demibold") family_value
          | None => false
          end.

(** [_attrs_imply_bold(attrs)].  [attr_map] is the dictionary built from
    the attribute list, a missing value read as the empty string. *)
Definition attr_map_of (attrs : list (str * option str)) : dict str :=
  List.fold_left
    (fun d kv => dict_set d (lower (fst kv))
                   (match snd kv with Some v => v | None => [] end))
    attrs [].

Definition _attrs_imply_bold (st : state) (attrs : list (str * option str))
  : bool :=
  let attr_map := attr_map_of attrs in
  if _style_implies_bold (dict_get_str attr_map (u "style")) (_css_vars st)
  then true
  else
    let face_value := casefold (dict_get_str attr_map (u "face")) in
    if truthy face_value
       && (contains N.eqb (u "bold") face_value
           || contains N.eqb (u "black") face_value
           || contains N.eqb (u "semibold") face_value
           || contains N.eqb (u "demibold") face_value)
    then true
    else
      let class_value := dict_get_str attr_map (u "class") in
      if truthy class_value
      then existsb
             (fun class_name =>
                truthy class_name
                && match dict_get (_class_bold_map st) class_name with
                   | Some v => v
                   | None => false
                   end)
             (split (plus ws) (strip class_value))
      else false.

(** [_append(text, is_bold)] *)
Definition _append (st : state) (text : str) (is_bold : bool) : state :=
  if negb (truthy text) then st
  else with_runs st (append_run (runs st) text is_bold).

(** [_append_newline()] *)
Definition _append_newline (st : state) : state :=
  match last_opt (runs st) with
  | None => st
  | Some (last_text, _) =>
      if endswith N.eqb [LF] last_text then st
      else _append st [LF] false
  end.

Definition is_heading (lowered : str) : bool :=
  match lowered with
  | [h; d] => N.eqb h 104 && isdigit d
  | _ => false
  end.

Definition skipped_tag (lowered : str) : bool :=
  str_eqb lowered (u "script") || str_eqb lowered (u "style").

(** [handle_starttag(tag, attrs)] *)
Definition handle_starttag (st : state) (tag : str)
           (attrs : list (str * option str)) : state :=
  let lowered := lower tag in
  if skipped_tag lowered then with_skip_depth st (_skip_depth st + 1)
  else if (0 <? _skip_depth st)%Z then st
  else if str_eqb lowered (u "br") then _append st [LF] false
  else
    let st :=
      if str_eqb lowered (u "li")
      then
        let st := _append_newline st in
        let st := _append st (u "- ") false in
        with_li_depth st (_li_depth st + 1)
      else st in
    let pushes_bold :=
      str_in lowered (List.map u ["b"; "strong"; "th"]%string) in
    let pushes_bold := if is_heading lowered then true else pushes_bold in
    let pushes_bold :=
      if _attrs_imply_bold st attrs then true else pushes_bold in
    let st :=
      if pushes_bold then with_bold_depth st (_bold_depth st + 1) else st in
    with_tag_stack st ((lowered, pushes_bold) :: _tag_stack st).

(** The [for i in range(len(self._tag_stack) - 1, -1, -1)] scan: the
    innermost entry named [lowered], taken off the stack. *)
Fixpoint pop_matching (lowered : str) (stack : list (str * bool))
  : option (bool * list (str * bool)) :=
  match stack with
  | [] => None
  | (stack_tag, pushes_bold) :: below =>
      if negb (str_eqb stack_tag lowered)
      then match pop_matching lowered below with
           | Some (found, below') => Some (found, (stack_tag, pushes_bold) :: below')
           | None => None
           end
      else Some (pushes_bold, below)
  end.

(** [handle_endtag(tag)] *)
Definition handle_endtag (st : state) (tag : str) : state :=
  let lowered := lower tag in
  if skipped_tag lowered then
    if (0 <? _skip_depth st)%Z then with_skip_depth st (_skip_depth st - 1)
    else st
  else if (0 <? _skip_depth st)%Z then st
  else
    let st :=
      match pop_matching lowered (_tag_stack st) with
      | Some (pushes_bold, stack') =>
          let st := with_tag_stack st stack' in
          if pushes_bold && (0 <? _bold_depth st)%Z
          then with_bold_depth st (_bold_depth st - 1)
          else st
      | None => st
      end in
    if str_eqb lowered (u "li") then
      let st :=
        if (0 <? _li_depth st)%Z then with_li_depth st (_li_depth st - 1)
        else st in
      _append_newline st
    else if str_in lowered BLOCK_TAGS then
      if (_li_depth st =? 0)%Z then _append_newline st else st
    else st.

(** [handle_data(data)] *)
Definition handle_data (st : state) (data : str) : state :=
  if (0 <? _skip_depth st)%Z then st
  else _append st data (0 <? _bold_depth st)%Z.

(** One handler call, and the calls of a whole [feed]. *)
Definition handle (st : state) (e : html_event) : state :=
  match e with
  | StartTag tag attrs => handle_starttag st tag attrs
  | EndTag tag => handle_endtag st tag
  | Data data => handle_data st data
  end.

Definition feed_events (st : state) (events : list html_event) : state :=
  List.fold_left handle events st.
End Parser.
End ClipboardHtmlRunParser.

(** * The application's capture methods *)

(** The outcome of a call that an exception can leave: [Raises] is the
    [ValueError] of an [int] that no handler around the call catches. *)
Inductive call_outcome (A : Type) : Type :=
| Returns (a : A)
| Raises.
Arguments Raises {A}.

Section Capture.
Context {U : Unicode} {L : Library}.

(** ** Byte decoder *)

(** [sample[0::2]] and [sample[1::2]] *)
Fixpoint even_indexed {A} (l : list A) : list A :=
  match l with
  | x :: _ :: t => x :: even_indexed t
  | [x] => [x]
  | [] => []
  end.

Fixpoint odd_indexed {A} (l : list A) : list A :=
  match l with
  | _ :: y :: t => y :: odd_indexed t
  | _ => []
  end.

(** [part.count(0)] *)
Definition count_zero (part : bytes) : Z :=
  len (List.filter (Byte.eqb "000"%byte) part).

(** [blob[: min(len(blob), 1024)]] *)
Definition sample_of (blob : bytes) : bytes := firstn 1024 blob.

(** The zero fractions are floats [count / length] with a length of at
    most 512; their comparisons with 0.55 and 0.25 agree with the exact
    ones, which are written with cross-multiplication:
    [count / length > 0.55] is [55 * length < 100 * count] and
    [count / length < 0.25] is [100 * count < 25 * length]. *)
Definition fraction_gt (count length pct : Z) : bool :=
  (pct * length <? 100 * count)%Z.
Definition fraction_lt (count length pct : Z) : bool :=
  (100 * count <? pct * length)%Z.

Definition looks_like_utf16le (blob : bytes) : bool :=
  let sample := sample_of blob in
  if (len sample <? 8)%Z then false
  else
    let even := even_indexed sample in
    let odd := odd_indexed sample in
    if negb (truthy even) || negb (truthy odd) then false
    else fraction_gt (count_zero odd) (len odd) 55
         && fraction_lt (count_zero even) (len even) 25.

Definition looks_like_utf16be (blob : bytes) : bool :=
  let sample := sample_of blob in
  if (len sample <? 8)%Z then false
  else
    let even := even_indexed sample in
    let odd := odd_indexed sample in
    if negb (truthy even) || negb (truthy odd) then false
    else fraction_gt (count_zero even) (len even) 55
         && fraction_lt (count_zero odd) (len odd) 25.

Definition starts_with_bom (data : bytes) : bool :=
  startswith Byte.eqb ["255"%byte; "254"%byte] data
  || startswith Byte.eqb ["254"%byte; "255"%byte] data.

(** [rb"\x00+$"] *)
Definition trailing_nul_re : re byte :=
  Cat (plus (One (Byte.eqb "000"%byte))) Eos.

(** [data[:-1]] when the length is odd *)
Definition drop_odd_byte (data : bytes) : bytes :=
  if (len data mod 2 =? 1)%Z then removelast data else data.

(** The buffer and the codec chain that the decoder settles on. *)
Definition decoding_plan (raw_data : bytes) : bytes * list Codec.encoding :=
  let data := raw_data in
  let looks_le := looks_like_utf16le data in
  let looks_be := looks_like_utf16be data in
  let starts_with_bom := starts_with_bom data in
  let data :=
    if negb (starts_with_bom || looks_le || looks_be)
    then sub trailing_nul_re [] data
    else data in
  if starts_with_bom then
    (data, [Codec.UTF16; Codec.UTF8; Codec.CP1252; Codec.LATIN1])
  else if looks_le then
    (drop_odd_byte data,
     [Codec.UTF16LE; Codec.UTF16; Codec.UTF8; Codec.CP1252; Codec.LATIN1])
  else if looks_be then
    (drop_odd_byte data,
     [Codec.UTF16BE; Codec.UTF16; Codec.UTF8; Codec.CP1252; Codec.LATIN1])
  else
    (data, [Codec.UTF8; Codec.CP1252; Codec.LATIN1; Codec.UTF16LE]).

(** [decoded.replace(NUL, empty)] *)
Definition drop_nul (decoded : str) : str := replace N.eqb [NUL] [] decoded.

(** The [for encoding in encodings] loop: the first codec that does not
    raise decides; [None] when the loop falls through. *)
Fixpoint first_decoding (encodings : list Codec.encoding) (data : bytes)
  : option str :=
  match encodings with
  | [] => None
  | encoding :: rest =>
      match Codec.decode encoding data with
      | Some decoded =>
          Some (if contains N.eqb [NUL] decoded then drop_nul decoded
                else decoded)
      | None => first_decoding rest data
      end
  end.

(** [_decode_clipboard_bytes(raw_data)] *)
Definition _decode_clipboard_bytes (raw_data : bytes) : str :=
  if negb (truthy raw_data) then []
  else
    let '(data, encodings) := decoding_plan raw_data in
    match first_decoding encodings data with
    | Some decoded => decoded
    | None => drop_nul (Codec.utf8_ignore data)
    end.

(** ** Markup fragment extractor *)

(** [\d] of a [str] pattern: any decimal digit. *)
Definition digit : re char :=
  One (fun c => match decimal c with Some _ => true | None => false end).

(** [r"<!--\s*StartFragment\s*-->(.*?)<!--\s*EndFragment\s*-->"],
    [re.IGNORECASE | re.DOTALL] *)
Definition marker_re : re char :=
  cat [lit "<!--"; star ws; lit_i "StartFragment"; star ws; lit "-->";
       Grp 1 (lazy_star any);
       lit "<!--"; star ws; lit_i "EndFragment"; star ws; lit "-->"].

(** [r"StartFragment:(\d+).*?EndFragment:(\d+)"],
    [re.IGNORECASE | re.DOTALL] *)
Definition offset_re : re char :=
  cat [lit_i "StartFragment:"; Grp 1 (plus digit); lazy_star any;
       lit_i "EndFragment:"; Grp 2 (plus digit)].

(** [r"<body[^>]*>(.*?)</body>"], [re.IGNORECASE | re.DOTALL] *)
Definition body_re : re char :=
  cat [lit_i "<body"; star (One (none_of ">")); lit ">";
       Grp 1 (lazy_star any); lit_i "</body>"].

(** [0 <= start < end <= length] *)
Definition in_bounds (start end_ length : Z) : bool :=
  ((0 <=? start) && (start <? end_) && (end_ <=? length))%Z.

(** [s[start:end]] for bounds that passed [in_bounds] *)
Definition zslice {A} (start end_ : Z) (s : list A) : list A :=
  slice (Z.to_nat start) (Z.to_nat end_) s.

(** What [_extract_html_fragment_from_text] returns when neither the
    comment markers nor the offsets give the fragment. *)
Definition body_or_whole (html_text : str) : str :=
  match search body_re html_text with
  | Some body_match => group_ html_text body_match 1
  | None => html_text
  end.

(** [_extract_html_fragment_from_text(html_text)] *)
Definition _extract_html_fragment_from_text (html_text : str)
  : call_outcome str :=
  if negb (truthy html_text) then Returns []
  else
    match search marker_re html_text with
    | Some marker_match => Returns (group_ html_text marker_match 1)
    | None =>
        match search offset_re html_text with
        | Some offset_match =>
            match int (group_ html_text offset_match 1) with
            | None => Raises
            | Some start =>
                match int (group_ html_text offset_match 2) with
                | None => Raises
                | Some end_ =>
                    if in_bounds start end_ (len html_text)
                    then Returns (zslice start end_ html_text)
                    else Returns (body_or_whole html_text)
                end
            end
        | None => Returns (body_or_whole html_text)
        end
    end.

(** ** Style map builder *)

(** [r"<style[^>]*>(.*?)</style>"], [re.IGNORECASE | re.DOTALL] *)
Definition style_block_re : re char :=
  cat [lit_i "<style"; star (One (none_of ">")); lit ">";
       Grp 1 (lazy_star any); lit_i "</style>"].

(** [r"([^{}]+)\{([^{}]+)\}"], [re.DOTALL] *)
Definition rule_re : re char :=
  cat [Grp 1 (plus (One (none_of "{}"))); lit "{";
       Grp 2 (plus (One (none_of "{}"))); lit "}"].

(** [[A-Za-z0-9_-]] under [re.IGNORECASE] *)
Definition name_char_i (c : char) : bool :=
  ClipboardHtmlRunParser.name_char c
  || N.eqb c 304 || N.eqb c 305 || N.eqb c 383 || N.eqb c 8490.

(** [r"(--[A-Za-z0-9_-]+)\s*:\s*([^;]+)"], [re.IGNORECASE] *)
Definition var_decl_re : re char :=
  cat [Grp 1 (Cat (lit "--") (plus (One name_char_i))); star ws; lit ":";
       star ws; Grp 2 (plus (One (none_of ";")))].

(** [r"\.([A-Za-z0-9_-]+)"] *)
Definition class_re : re char :=
  Cat (lit ".") (Grp 1 (plus (One ClipboardHtmlRunParser.name_char))).

(** The groups of [re.findall]. *)
Definition findall1 (r : re char) (s : str) : list str :=
  List.map (fun m => group_ s m 1) (findall r s).
Definition findall2 (r : re char) (s : str) : list (str * str) :=
  List.map (fun m => (group_ s m 1, group_ s m 2)) (findall r s).

Record style_maps := {
  sm_class_bold_map : dict bool;
  sm_css_vars : dict str
}.

(** [_extract_html_style_maps(html_text)] *)
Definition _extract_html_style_maps (html_text : str) : style_maps :=
  if negb (truthy html_text)
  then {| sm_class_bold_map := []; sm_css_vars := [] |}
  else
    let style_blocks := findall1 style_block_re html_text in
    let rules := List.flat_map (findall2 rule_re) style_blocks in
    let css_vars :=
      List.fold_left
        (fun css_vars rule =>
           List.fold_left
             (fun css_vars decl =>
                dict_set css_vars (casefold (fst decl)) (strip (snd decl)))
             (findall2 var_decl_re (snd rule)) css_vars)
        rules [] in
    let class_bold_map :=
      List.fold_left
        (fun class_bold_map rule =>
           if negb (ClipboardHtmlRunParser._style_implies_bold
                      (snd rule) css_vars)
           then class_bold_map
           else List.fold_left
                  (fun class_bold_map class_name =>
                     dict_set class_bold_map class_name true)
                  (findall1 class_re (fst rule)) class_bold_map)
        rules [] in
    {| sm_class_bold_map := class_bold_map; sm_css_vars := css_vars |}.

(** [rb"<name>(\d+)"], the offset headers of a markup payload *)
Definition header_re (name : string) : re byte :=
  Cat (blit name) (Grp 1 (plus bdigit)).

(** The number that [bytes] of ASCII digits write. *)
Definition digits_value (digits : bytes) : Z :=
  List.fold_left
    (fun acc x =>
       (10 * acc + match bdigit_value x with Some d => Z.of_N d | None => 0 end)%Z)
    digits 0%Z.

(** [int(digits)] for [bytes] of ASCII digits; [None] is the [ValueError]
    that [int] raises on more than [MAX_STR_DIGITS] digits. *)
Definition int_of_bytes (digits : bytes) : option Z :=
  if (MAX_STR_DIGITS <? len digits)%Z then None
  else Some (digits_value digits).

(** The digits of a header, [group(1)] of its match, when the header is
    there. *)
Definition header_digits (name : string) (compact : bytes) : option bytes :=
  match search (header_re name) compact with
  | Some m => Some (group_ compact m 1)
  | None => None
  end.

(** The full markup range of a payload. *)
Definition html_bytes_of (compact : bytes) : call_outcome bytes :=
  match header_digits "StartHTML:" compact,
        header_digits "EndHTML:" compact with
  | Some start_digits, Some end_digits =>
      match int_of_bytes start_digits with
      | None => Raises
      | Some html_start =>
          match int_of_bytes end_digits with
          | None => Raises
          | Some html_end =>
              if in_bounds html_start html_end (len compact)
              then Returns (zslice html_start html_end compact)
              else Returns compact
          end
      end
  | _, _ => Returns compact
  end.

Definition start_marker : bytes := b "<!--StartFragment-->".
Definition end_marker : bytes := b "<!--EndFragment-->".

(** The fragment range of a payload. *)
Definition fragment_bytes_of (compact html_bytes : bytes)
  : call_outcome bytes :=
  match header_digits "StartFragment:" compact,
        header_digits "EndFragment:" compact with
  | Some start_digits, Some end_digits =>
      match int_of_bytes start_digits with
      | None => Raises
      | Some start =>
          match int_of_bytes end_digits with
          | None => Raises
          | Some end_ =>
              if in_bounds start end_ (len compact)
              then Returns (zslice start end_ compact)
              else Returns html_bytes
          end
      end
  | _, _ =>
      let start := find Byte.eqb start_marker html_bytes in
      let end_ := find Byte.eqb end_marker html_bytes in
      if (negb (start =? -1) && negb (end_ =? -1) && (start <? end_))%Z
      then Returns (zslice (start + len start_marker) end_ html_bytes)
      else Returns html_bytes
  end.

Record html_payload := {
  fragment : str;
  html_text : str;
  class_bold_map : dict bool;
  css_vars : dict str
}.

Definition payload_of (decoded_fragment decoded_html : str) : html_payload :=
  let style_maps := _extract_html_style_maps decoded_html in
  {| fragment := decoded_fragment; html_text := decoded_html;
     class_bold_map := sm_class_bold_map style_maps;
     css_vars := sm_css_vars style_maps |}.

(** What [_read_clipboard_html_fragment] does once the two ranges are cut:
    the payload of the decoded ranges, or, when the fragment range decodes
    to nothing, the payload that the text extractor finds in the decoded
    raw data. *)
Definition payload_of_ranges (raw_data html_bytes fragment_bytes : bytes)
  : call_outcome (option html_payload) :=
  let decoded_html := _decode_clipboard_bytes html_bytes in
  let decoded_fragment := _decode_clipboard_bytes fragment_bytes in
  if truthy decoded_fragment
  then Returns (Some (payload_of decoded_fragment decoded_html))
  else
    let decoded_html := _decode_clipboard_bytes raw_data in
    match _extract_html_fragment_from_text decoded_html with
    | Raises => Raises
    | Returns decoded_fragment =>
        let decoded_fragment :=
          if negb (truthy decoded_fragment) then decoded_html
          else decoded_fragment in
        Returns (Some (payload_of decoded_fragment decoded_html))
    end.

(** [_read_clipboard_html_fragment()], on what [_read_clipboard_format_bytes]
    returned for the markup formats.  No handler surrounds the [int] of the
    offset headers. *)
Definition _read_clipboard_html_fragment (raw : option bytes)
  : call_outcome (option html_payload) :=
  match raw with
  | None => Returns None
  | Some raw_data =>
      if negb (truthy raw_data) then Returns None
      else
        let compact := sub trailing_nul_re [] raw_data in
        match html_bytes_of compact with
        | Raises => Raises
        | Returns html_bytes =>
            match fragment_bytes_of compact html_bytes with
            | Raises => Raises
            | Returns fragment_bytes =>
                payload_of_ranges raw_data html_bytes fragment_bytes
            end
        end
  end.

(** ** Legacy rich-text reader *)

(** [_read_clipboard_rtf_runs()], on what [_read_clipboard_format_bytes]
    returned for the rich-text formats. *)
Definition _read_clipboard_rtf_runs (raw : option bytes) : list run :=
  match raw with
  | None => []
  | Some raw_data =>
      if negb (truthy raw_data) then []
      else
        let rtf_text := _decode_clipboard_bytes raw_data in
        if negb (truthy rtf_text) then []
        else
          let rtf_start := find N.eqb (u "{\rtf") rtf_text in
          let rtf_text :=
            if (0 <? rtf_start)%Z then skipn (Z.to_nat rtf_start) rtf_text
            else rtf_text in
          match ClipboardRtfRunParser.parse rtf_text with
          | Some runs => _normalize_captured_runs runs
          | None => []
          end
  end.

(** ** Capture reconciler *)

(** [r"\n[ \t]*-\s*"] and [r"\s+"] *)
Definition bullet_line_re : re char :=
  cat [chr LF; star (One blank); lit "-"; star ws].
Definition whitespace_re : re char := plus ws.

(** [_canonical_capture_text(text)]; [None] is Python's [None]. *)
Definition _canonical_capture_text (text : option str) : str :=
  match text with
  | None => []
  | Some text =>
      if negb (truthy text) then []
      else
        let canonical := _normalize_captured_text text in
        let canonical := replace N.eqb [8226%N] (u "-") canonical in
        let canonical := sub bullet_line_re [LF] canonical in
        let canonical := sub whitespace_re [SPACE] canonical in
        casefold (strip canonical)
  end.

(** [_capture_similarity(text_a, text_b)] *)
Definition _capture_similarity (text_a text_b : str) : Q :=
  if negb (truthy text_a) || negb (truthy text_b) then 0%Q
  else SequenceMatcher_ratio text_a text_b.

(** What the operating system holds when a capture is attempted: the text
    that [clipboard_get] returns ([None] on [TclError]), the payloads that
    [_read_clipboard_format_bytes] returns for the markup and rich-text
    format names, and the names that
    [_clipboard_available_format_names] lists. *)
Record clipboard := {
  clipboard_get : option str;
  html_format_bytes : option bytes;
  rtf_format_bytes : option bytes;
  available_format_names : list str
}.

(** [_read_clipboard_text()] *)
Definition _read_clipboard_text (cb : clipboard) : option str :=
  match clipboard_get cb with
  | None => None
  | Some text =>
      let cleaned := strip (_normalize_captured_text text) in
      if truthy cleaned then Some cleaned else None
  end.

Inductive source_kind := SourceHtml | SourceRtf | SourceText.

Inductive signature_key :=
| RunsSignature (source : source_kind) (runs : list run)
| TextSignature (text : str).

Record capture := {
  text : str;
  runs : list run;
  signature : signature_key;
  source : source_kind;
  detail : option str
}.

(** [(has_bold, similarity, -length_delta, length)], compared as Python
    compares tuples: the first place where the two differ decides. *)
Definition score : Type := Z * Q * Z * Z.

Definition score_gt (a b : score) : bool :=
  let '(a1, a2, a3, a4) := a in
  let '(b1, b2, b3, b4) := b in
  match (a1 ?= b1)%Z with
  | Gt => true
  | Lt => false
  | Eq =>
      match (a2 ?= b2)%Q with
      | Gt => true
      | Lt => false
      | Eq =>
          match (a3 ?= b3)%Z with
          | Gt => true
          | Lt => false
          | Eq => match (a4 ?= b4)%Z with Gt => true | _ => false end
          end
      end
  end.

Definition runs_text (runs : list run) : str :=
  List.concat (List.map fst runs).

Definition has_bold_run (runs : list run) : bool := existsb snd runs.

(** [sum(len(text) for text, is_bold in runs if is_bold)] *)
Definition bold_chars (runs : list run) : Z :=
  List.fold_left
    (fun (acc : Z) (r : run) => if snd r then (acc + len (fst r))%Z else acc)
    runs 0%Z.

(** The body of the [for candidate in fragment_candidates] loop up to the
    score: [None] when the candidate is passed over by [continue]. *)
Definition score_candidate (payload : html_payload)
           (canonical_plain_text candidate : str)
  : option (list run * score * Q) :=
  match html_feed candidate with
  | None => None
  | Some events =>
      let parser :=
        ClipboardHtmlRunParser.feed_events
          (ClipboardHtmlRunParser.init (class_bold_map payload)
                                       (css_vars payload))
          events in
      let runs := _normalize_captured_runs (ClipboardHtmlRunParser.runs parser) in
      if negb (truthy runs) then None
      else
        let candidate_text := runs_text runs in
        if negb (truthy candidate_text) then None
        else
          let candidate_canonical :=
            _canonical_capture_text (Some candidate_text) in
          let similarity :=
            _capture_similarity candidate_canonical canonical_plain_text in
          let length_delta :=
            Z.abs (len candidate_canonical - len canonical_plain_text) in
          Some (runs,
                ((if (0 <? bold_chars runs)%Z then 1 else 0)%Z, similarity,
                 (- length_delta)%Z, len candidate_text),
                similarity)
  end.

(** [best_runs], [best_score], [best_similarity] *)
Definition best : Type := option (list run) * score * Q.

Definition best_init : best :=
  (None, ((-1)%Z, (-1)%Q, (- 10 ^ 9)%Z, (-1)%Z), 0%Q).

Definition consider (payload : html_payload) (canonical_plain_text : str)
           (acc : best) (candidate : str) : best :=
  match score_candidate payload canonical_plain_text candidate with
  | None => acc
  | Some (runs, score, similarity) =>
      if score_gt score (snd (fst acc)) then (Some runs, score, similarity)
      else acc
  end.

(** The candidate list of the reconciler; the text extractor is called
    outside any handler. *)
Definition fragment_candidates_of (payload : html_payload)
  : call_outcome (list str) :=
  let fragment_candidates := [] in
  let primary_fragment := fragment payload in
  let fragment_candidates :=
    if truthy primary_fragment
    then fragment_candidates ++ [primary_fragment]
    else fragment_candidates in
  match _extract_html_fragment_from_text (html_text payload) with
  | Raises => Raises
  | Returns alt_fragment =>
      let fragment_candidates :=
        if truthy alt_fragment
           && negb (existsb (str_eqb alt_fragment) fragment_candidates)
        then fragment_candidates ++ [alt_fragment]
        else fragment_candidates in
      Returns
        (if truthy (html_text payload)
            && negb (existsb (str_eqb (html_text payload)) fragment_candidates)
         then fragment_candidates ++ [html_text payload]
         else fragment_candidates)
  end.

(** [0.28] *)
Definition ACCEPT_SIMILARITY : Q := (28 # 100)%Q.

(** The capture that the loop over the candidates leaves. *)
Definition capture_of_candidates (html_payload : html_payload)
           (canonical_plain_text : str) (fragment_candidates : list str)
  : option capture :=
  let '(best_runs, _, best_similarity) :=
    List.fold_left (consider html_payload canonical_plain_text)
                   fragment_candidates best_init in
  match best_runs with
  | Some best_runs =>
      if truthy best_runs
         && (negb (truthy canonical_plain_text)
             || Qle_bool ACCEPT_SIMILARITY best_similarity)
      then Some {| text := runs_text best_runs; runs := best_runs;
                   signature := RunsSignature SourceHtml best_runs;
                   source := SourceHtml; detail := None |}
      else None
  | None => None
  end.

(** The [html_capture] of [_read_clipboard_capture]. *)
Definition html_capture_of (cb : clipboard) (canonical_plain_text : str)
  : call_outcome (option capture) :=
  match _read_clipboard_html_fragment (html_format_bytes cb) with
  | Raises => Raises
  | Returns None => Returns None
  | Returns (Some html_payload) =>
      match fragment_candidates_of html_payload with
      | Raises => Raises
      | Returns fragment_candidates =>
          Returns (capture_of_candidates html_payload canonical_plain_text
                                         fragment_candidates)
      end
  end.

(** The [rtf_capture] of [_read_clipboard_capture]. *)
Definition rtf_capture_of (cb : clipboard) : option capture :=
  let rtf_runs := _read_clipboard_rtf_runs (rtf_format_bytes cb) in
  if truthy rtf_runs then
    let rtf_text := runs_text rtf_runs in
    if truthy rtf_text
    then Some {| text := rtf_text; runs := rtf_runs;
                 signature := RunsSignature SourceRtf rtf_runs;
                 source := SourceRtf; detail := None |}
    else None
  else None.

(** The diagnostic of the plain-text fallback. *)
Definition fallback_detail (available_formats : list str) : str :=
  let lowered_formats := List.map casefold available_formats in
  let has_html_like := existsb (contains N.eqb (u "html")) lowered_formats in
  let has_rtf_like := existsb (contains N.eqb (u "rtf")) lowered_formats in
  let visible_formats :=
    if truthy available_formats
    then join (u ", ") (firstn 6 available_formats)
    else u "none" in
  if has_html_like || has_rtf_like
  then u "fant html/rtf format men klarte ikke lese bold. formater: "
         ++ visible_formats
  else u "ingen html/rtf format i clipboard. formater: " ++ visible_formats.

(** The choice that [_read_clipboard_capture] makes among the captures it
    has read. *)
Definition choose_capture (cb : clipboard) (plain_text : option str)
           (html_capture rtf_capture : option capture) : option capture :=
  match html_capture, rtf_capture with
  | Some h, _ =>
      if has_bold_run (runs h) then Some h
      else match rtf_capture with
           | Some r => if has_bold_run (runs r) then Some r else Some h
           | None => Some h
           end
  | None, Some r => Some r
  | None, None =>
      match plain_text with
      | None => None
      | Some text_ =>
          if negb (truthy text_) then None
          else
            Some {| text := text_; runs := [(text_, false)];
                    signature := TextSignature text_;
                    source := SourceText;
                    detail :=
                      Some (fallback_detail (available_format_names cb)) |}
      end
  end.

(** [_read_clipboard_capture()]; [Returns None] is the [None] it returns,
    [Raises] the [ValueError] that reading the markup payload lets through,
    before the rich-text format is read. *)
Definition _read_clipboard_capture (cb : clipboard)
  : call_outcome (option capture) :=
  let plain_text := _read_clipboard_text cb in
  let canonical_plain_text := _canonical_capture_text plain_text in
  match html_capture_of cb canonical_plain_text with
  | Raises => Raises
  | Returns html_capture =>
      let rtf_capture := rtf_capture_of cb in
      Returns (choose_capture cb plain_text html_capture rtf_capture)
  end.
End Capture.

Unset Implicit Arguments.

(** * Automatic capture

    The clipboard watcher.  Of the application object it touches the two
    attributes [auto_capture_enabled] and [_last_clipboard_signature]; it
    calls [_append_captured_text], whose calls are kept in order, and
    [_set_status], whose last message is kept with the values that its
    format string takes.  The timer that calls the watcher again and the
    label of the button are left to the toolkit.  When the read of the
    clipboard raises, the exception leaves the method at that statement
    and goes to the toolkit, which reports it; the object stays as the
    statements before the read left it. *)
Section AutoCapture.
Context {U : Unicode} {L : Library}.

Inductive status_message :=
| AutoCaptureOn
| AutoCaptureOff
| CapturedBoldKept (source : source_kind)
| CapturedWithDetail (source : source_kind) (detail : str)
| CapturedPlain (source : source_kind).

Record NotatApp := {
  auto_capture_enabled : bool;
  _last_clipboard_signature : option signature_key;
  appended_captures : list capture;
  status : option status_message
}.

(** The state that [__init__] sets up. *)
Definition NotatApp_init : NotatApp :=
  {| auto_capture_enabled := false; _last_clipboard_signature := None;
     appended_captures := []; status := None |}.

(** [==] on signatures, which are tuples of strings and of runs. *)
Definition source_eqb (x y : source_kind) : bool :=
  match x, y with
  | SourceHtml, SourceHtml | SourceRtf, SourceRtf | SourceText, SourceText =>
      true
  | _, _ => false
  end.

Definition run_eqb (x y : run) : bool :=
  str_eqb (fst x) (fst y) && Bool.eqb (snd x) (snd y).

Fixpoint runs_eqb (x y : list run) : bool :=
  match x, y with
  | [], [] => true
  | r1 :: x', r2 :: y' => run_eqb r1 r2 && runs_eqb x' y'
  | _, _ => false
  end.

Definition signature_eqb (x y : signature_key) : bool :=
  match x, y with
  | RunsSignature s1 r1, RunsSignature s2 r2 =>
      source_eqb s1 s2 && runs_eqb r1 r2
  | TextSignature t1, TextSignature t2 => str_eqb t1 t2
  | _, _ => false
  end.

(** [capture["signature"] != self._last_clipboard_signature] *)
Definition signature_differs (sig : signature_key)
           (last : option signature_key) : bool :=
  match last with
  | Some l => negb (signature_eqb sig l)
  | None => true
  end.

(** [toggle_auto_capture()] *)
Definition toggle_auto_capture (cb : clipboard) (a : NotatApp) : NotatApp :=
  let enabled := negb (auto_capture_enabled a) in
  if enabled then
    match _read_clipboard_capture cb with
    | Raises =>
        {| auto_capture_enabled := enabled;
           _last_clipboard_signature := _last_clipboard_signature a;
           appended_captures := appended_captures a;
           status := status a |}
    | Returns current_capture =>
        {| auto_capture_enabled := enabled;
           _last_clipboard_signature :=
             match current_capture with
             | Some c => Some (signature c)
             | None => None
             end;
           appended_captures := appended_captures a;
           status := Some AutoCaptureOn |}
    end
  else
    {| auto_capture_enabled := enabled;
       _last_clipboard_signature := _last_clipboard_signature a;
       appended_captures := appended_captures a;
       status := Some AutoCaptureOff |}.

(** [_clipboard_watch_tick()] *)
Definition _clipboard_watch_tick (cb : clipboard) (a : NotatApp) : NotatApp :=
  if auto_capture_enabled a then
    match _read_clipboard_capture cb with
    | Raises => a
    | Returns None => a
    | Returns (Some capture) =>
        if signature_differs (signature capture) (_last_clipboard_signature a)
        then
          let bold_runs := len (List.filter snd (runs capture)) in
          {| auto_capture_enabled := auto_capture_enabled a;
             _last_clipboard_signature := Some (signature capture);
             appended_captures := appended_captures a ++ [capture];
             status :=
               Some (if (0 <? bold_runs)%Z
                     then CapturedBoldKept (source capture)
                     else match detail capture with
                          | Some d =>
                              if truthy d
                              then CapturedWithDetail (source capture) d
                              else CapturedPlain (source capture)
                          | None => CapturedPlain (source capture)
                          end) |}
        else a
    end
  else a.
End AutoCapture.

(** * Bullet lines *)

(** [BULLET_MARKERS] and [BULLET_INDENT_SPACES] *)
Definition BULLET_MARKERS : list str := [[8226%N]; [9702%N]; [9642%N]; [9643%N]].
Definition BULLET_INDENT_SPACES : Z := 4.

(** The markers that the pattern takes: hyphen, asterisk, plus sign and the
    four characters of [BULLET_MARKERS]. *)
Definition bullet_marker_char (c : char) : bool :=
  N.eqb c 45 || N.eqb c 42 || N.eqb c 43
  || N.eqb c 8226 || N.eqb c 9702 || N.eqb c 9642 || N.eqb c 9643.

(** [BULLET_LINE_PATTERN]: at the start of the line any number of spaces
    and tabs as group 1, one marker character as group 2, then one
    white-space character.  The source applies it with [match], which looks
    at the start only. *)
Definition BULLET_LINE_PATTERN : re char :=
  cat [Grp 1 (star (One blank)); Grp 2 (One bullet_marker_char); ws].

(** [_bullet_level_from_indent(indent_text)] *)
Definition _bullet_level_from_indent (indent_text : str) : Z :=
  let width :=
    List.fold_left
      (fun (width : Z) (ch : char) =>
         if N.eqb ch TAB
         then (width + (BULLET_INDENT_SPACES - width mod BULLET_INDENT_SPACES))%Z
         else (width + 1)%Z)
      indent_text 0%Z in
  Z.max 0 (width / BULLET_INDENT_SPACES).

(** [_bullet_marker_for_level(level)] *)
Definition _bullet_marker_for_level (level : Z) : str :=
  let level := if (level <? 0)%Z then 0%Z else level in
  nth (Z.to_nat (Z.min level (len BULLET_MARKERS - 1))) BULLET_MARKERS [].

(** [_bullet_prefix_for_level(level)] *)
Definition _bullet_prefix_for_level (level : Z) : str :=
  repeat SPACE (Z.to_nat (Z.max 0 level * BULLET_INDENT_SPACES))
  ++ _bullet_marker_for_level level ++ [SPACE].

Record bullet_info := {
  bullet_indent : str;
  bullet_marker : str;
  bullet_prefix_len : Z;
  bullet_level : Z;
  bullet_content : str
}.

(** [_parse_bullet_line(line_text)] *)
Definition _parse_bullet_line (line_text : str) : option bullet_info :=
  match rematch BULLET_LINE_PATTERN line_text with
  | None => None
  | Some m =>
      let indent := group_ line_text m 1 in
      let marker := group_ line_text m 2 in
      let prefix_len := m_end m in
      let level := _bullet_level_from_indent indent in
      Some {| bullet_indent := indent; bullet_marker := marker;
              bullet_prefix_len := Z.of_nat prefix_len;
              bullet_level := level;
              bullet_content := skipn prefix_len line_text |}
  end.

(** * Export helpers *)

(** A run of the editor: [(text, is_bold, is_superscript)]. *)
Definition format_run : Type := str * bool * bool.

Definition run_text (r : format_run) : str := fst (fst r).

(** ["".join(text for text, _is_bold, _is_superscript in runs)] *)
Definition plain_text_of (runs : list format_run) : str :=
  List.concat (List.map run_text runs).

(** [paragraphs[-1].append(item)]; the list of paragraphs is never empty. *)
Fixpoint append_to_last (paragraphs : list (list format_run))
         (item : format_run) : list (list format_run) :=
  match paragraphs with
  | [] => []
  | [p] => [p ++ [item]]
  | p :: rest => p :: append_to_last rest item
  end.

(** The inner loop of [_runs_to_paragraphs], [for i, part in
    enumerate(parts)]: on the parts from [i] on. *)
Fixpoint add_parts (paragraphs : list (list format_run)) (parts : list str)
         (is_bold is_superscript : bool) : list (list format_run) :=
  match parts with
  | [] => paragraphs
  | part :: later =>
      let paragraphs :=
        if truthy part
        then append_to_last paragraphs (part, is_bold, is_superscript)
        else paragraphs in
      let paragraphs :=
        match later with
        | [] => paragraphs
        | _ => paragraphs ++ [[]]
        end in
      add_parts paragraphs later is_bold is_superscript
  end.

(** [_runs_to_paragraphs(runs)] *)
Definition _runs_to_paragraphs (runs : list format_run)
  : list (list format_run) :=
  let paragraphs :=
    List.fold_left
      (fun paragraphs (r : format_run) =>
         let '(run_text, is_bold, is_superscript) := r in
         add_parts paragraphs (split1 N.eqb LF run_text)
                   is_bold is_superscript)
      runs [[]] in
  if negb (truthy paragraphs) then [[]] else paragraphs.

(** The loop of [_trim_prefix_from_runs] with [remaining] as it stands. *)
Fixpoint trim_prefix_loop (remaining : Z) (runs : list format_run)
  : list format_run :=
  match runs with
  | [] => []
  | (run_text, is_bold, is_superscript) :: rest =>
      if (len run_text <=? remaining)%Z
      then trim_prefix_loop (remaining - len run_text) rest
      else
        let trimmed_text :=
          if (0 <? remaining)%Z then skipn (Z.to_nat remaining) run_text
          else run_text in
        let remaining := if (0 <? remaining)%Z then 0%Z else remaining in
        if truthy trimmed_text
        then (trimmed_text, is_bold, is_superscript)
               :: trim_prefix_loop remaining rest
        else trim_prefix_loop remaining rest
  end.

(** [_trim_prefix_from_runs(runs, prefix_len)] for an integer
    [prefix_len]. *)
Definition _trim_prefix_from_runs (runs : list format_run) (prefix_len : Z)
  : list format_run :=
  trim_prefix_loop (Z.max 0 prefix_len) runs.

(** * Labels *)

(** [s[:stop]], also for a negative [stop]. *)
Definition slice_to {A : Type} (stop : Z) (s : list A) : list A :=
  if (0 <=? stop)%Z then firstn (Z.to_nat stop) s
  else firstn (Z.to_nat (len s + stop)) s.

(** [_short_token_label(token, max_len)]; [max_len] defaults to 18. *)
Definition _short_token_label (token : str) (max_len : Z) : str :=
  let compact :=
    replace N.eqb [LF] [SPACE] (replace N.eqb [CR] [SPACE] token) in
  if (len compact <=? max_len)%Z then compact
  else slice_to (max_len - 3) compact ++ u "...".

(** * Paragraph runs for the export *)

(** The letters of the word pattern: ASCII letters and the code points
    U+00C0 to U+024F. *)
Definition word_letter (c : char) : bool :=
  (ascii_isalpha c || (192 <=? c) && (c <=? 591))%N.

(** The word pattern of the loop: one or more such letters. *)
Definition export_word_re : re char := plus (One word_letter).

(** An item [[ch, is_bold, is_superscript]] of [chars]. *)
Definition cell : Type := char * bool * bool.

Definition cell_bold (c : cell) : bool := snd (fst c).

(** [chars], one item for every character of the runs. *)
Definition cells_of (paragraph_runs : list format_run) : list cell :=
  List.flat_map
    (fun r : format_run =>
       let '(run_text, is_bold, is_superscript) := r in
       List.map (fun ch => (ch, is_bold, is_superscript)) run_text)
    paragraph_runs.

(** [for i in range(start, start + count): chars[i][1] = True] *)
Fixpoint set_bold (start count : nat) (chars : list cell) : list cell :=
  match chars with
  | [] => []
  | (ch, is_bold, is_superscript) :: later =>
      match start, count with
      | S k, _ => (ch, is_bold, is_superscript) :: set_bold k count later
      | O, S c => (ch, true, is_superscript) :: set_bold 0 c later
      | O, O => chars
      end
  end.

(** The body of the [for match in re.finditer(...)] loop. *)
Definition embolden_word_start (chars : list cell) (m : rmatch) : list cell :=
  let start := m_start m in
  let end_ := m_end m in
  let bold_flags := List.map cell_bold (slice start end_ chars) in
  if negb (existsb id bold_flags) || forallb id bold_flags then chars
  else
    let prefix_nonbold := List.length (takewhile negb bold_flags) in
    if Nat.ltb 0 prefix_nonbold && Nat.leb prefix_nonbold 2
       && forallb id (skipn prefix_nonbold bold_flags)
    then set_bold start prefix_nonbold chars
    else chars.

(** The regrouping loop: [normalized], [buffer] and [current_style]. *)
Definition regroup_step
           (st : list format_run * str * option (bool * bool)) (c : cell)
  : list format_run * str * option (bool * bool) :=
  let '(normalized, buffer, current_style) := st in
  let '(ch, is_bold, is_superscript) := c in
  let style := (is_bold, is_superscript) in
  let current_style :=
    match current_style with None => style | Some s => s end in
  if negb (Bool.eqb (fst style) (fst current_style)
           && Bool.eqb (snd style) (snd current_style))
  then (normalized ++ [(buffer, fst current_style, snd current_style)],
        [ch], Some style)
  else (normalized, buffer ++ [ch], Some current_style).

Definition regroup (chars : list cell) : list format_run :=
  let '(normalized, buffer, current_style) :=
    List.fold_left regroup_step chars ([], [], None) in
  match current_style with
  | Some s =>
      if truthy buffer then normalized ++ [(buffer, fst s, snd s)]
      else normalized
  | None => normalized
  end.

(** [_normalize_paragraph_runs_for_export(paragraph_runs)] *)
Definition _normalize_paragraph_runs_for_export
           (paragraph_runs : list format_run) : list format_run :=
  if negb (truthy paragraph_runs) then paragraph_runs
  else
    let chars := cells_of paragraph_runs in
    if negb (truthy chars) then paragraph_runs
    else
      let plain_text := List.map (fun c : cell => fst (fst c)) chars in
      let chars :=
        List.fold_left embolden_word_start
                       (findall export_word_re plain_text) chars in
      regroup chars.

(** * Paragraph classes for the export *)
Section ExportClasses.
Context {U : Unicode}.

(** The numbered-heading pattern of [_heading_level_from_runs]: white
    space, then as group 1 a number with any count of dotted parts, an
    optional full stop or closing bracket, white space, and one character
    that is not white space.  The source applies it with [match]. *)
Definition numbered_heading_re : re char :=
  cat [star ws;
       Grp 1 (Cat (plus digit) (star (Cat (lit ".") (plus digit))));
       opt (One (one_of ".)"));
       plus ws;
       One (fun c => negb (isspace c))].

(** [s.count(".")] *)
Definition count_dots (s : str) : Z := len (List.filter (N.eqb 46) s).

(** The two counters of the letter loop, [total_letters] and
    [bold_letters]. *)
Definition count_letters (runs : list format_run) : Z * Z :=
  List.fold_left
    (fun (counts : Z * Z) (r : format_run) =>
       let '(run_text, is_bold, _) := r in
       List.fold_left
         (fun (counts : Z * Z) (ch : char) =>
            let '(total_letters, bold_letters) := counts in
            if negb (isalpha ch) then counts
            else ((total_letters + 1)%Z,
                  if is_bold then (bold_letters + 1)%Z else bold_letters))
         run_text counts)
    runs (0%Z, 0%Z).

(** [_heading_level_from_runs(runs, plain_text)].  The test
    [bold_letters / max(total_letters, 1) >= 0.8] is a float comparison of
    a quotient of two integers below 2^50; it agrees with the exact one,
    written here with cross-multiplication. *)
Definition _heading_level_from_runs (runs : list format_run)
           (plain_text : str) : Z :=
  let text := strip plain_text in
  if negb (truthy text) then 0%Z
  else
    match rematch numbered_heading_re plain_text with
    | Some numbered_match =>
        Z.min 3 (count_dots (group_ plain_text numbered_match 1) + 1)
    | None =>
        if (110 <? len text)%Z then 0%Z
        else
          let '(total_letters, bold_letters) := count_letters runs in
          if (3 <=? total_letters)%Z
             && (8 * Z.max total_letters 1 <=? 10 * bold_letters)%Z
          then 1%Z else 0%Z
    end.

(** The dictionary that [_classify_paragraph_for_export] returns, by its
    kind. *)
Inductive paragraph_class :=
| BlankParagraph
| BulletParagraph (level : Z) (marker : str) (runs : list format_run)
| HeadingParagraph (level : Z) (runs : list format_run)
| NormalParagraph (runs : list format_run).

(** [_classify_paragraph_for_export(paragraph_runs)] *)
Definition _classify_paragraph_for_export (paragraph_runs : list format_run)
  : paragraph_class :=
  let plain_text := plain_text_of paragraph_runs in
  let stripped := strip plain_text in
  if negb (truthy stripped) then BlankParagraph
  else
    match _parse_bullet_line plain_text with
    | Some bullet_info =>
        let content_runs :=
          _trim_prefix_from_runs paragraph_runs
                                 (bullet_prefix_len bullet_info) in
        BulletParagraph (bullet_level bullet_info)
                        (bullet_marker bullet_info) content_runs
    | None =>
        let heading_level :=
          _heading_level_from_runs paragraph_runs plain_text in
        if (0 <? heading_level)%Z
        then HeadingParagraph heading_level paragraph_runs
        else NormalParagraph paragraph_runs
    end.
End ExportClasses.

(** * Vocabulary of the properties *)

(** ** A character database for running the model

    [BasicLatin] knows no letter, digit or case pair outside ASCII.  It
    agrees with Python on ASCII text, which is all that the concrete inputs
    below contain. *)
#[export] Instance BasicLatin : Unicode := {|
  uni_isalpha := fun _ => false;
  uni_isdigit := fun _ => false;
  uni_isalnum := fun _ => false;
  uni_decimal := fun _ => None;
  uni_casefold := fun c => [c];
  uni_casefold_nonempty := fun c (H : [c] = []) =>
    eq_ind [c] (fun l : str => match l with [] => False | _ :: _ => True end)
           I [] H;
  uni_lower := fun s => s
|}.

(** A stand-in for the standard library on the inputs of the examples: it
    tokenizes the markup [<b>Hello</b> world] as [html.parser] does and takes
    any other text as character data; it scores equal texts 1.0, as
    [difflib] does, and other pairs 0. *)
Definition example_feed (s : str) : option (list html_event) :=
  if str_eqb s (u "<b>Hello</b> world")
  then Some [StartTag (u "b") []; Data (u "Hello"); EndTag (u "b");
             Data (u " world")]
  else Some [Data s].

#[export] Instance ExampleLibrary : Library := {|
  html_feed := example_feed;
  SequenceMatcher_ratio := fun x y => if str_eqb x y then 1%Q else 0%Q
|}.

(** The normalized-sequence invariant of the data model. *)
Fixpoint alternating (runs : list run) : Prop :=
  match runs with
  | r1 :: ((r2 :: _) as rest) => snd r1 <> snd r2 /\ alternating rest
  | _ => True
  end.

Definition normalized_invariant (runs : list run) : Prop :=
  Forall (fun r : run => fst r <> []) runs /\ alternating runs.

(** The two depth counters of a parser state are not negative. *)
Definition depths_ok (st : ClipboardHtmlRunParser.state) : Prop :=
  (0 <= ClipboardHtmlRunParser._bold_depth st)%Z
  /\ (0 <= ClipboardHtmlRunParser._skip_depth st)%Z.

(** The codec chain of a buffer classified as little-endian wide-character
    text. *)
Definition LE_CHAIN : list Codec.encoding :=
  [Codec.UTF16LE; Codec.UTF16; Codec.UTF8; Codec.CP1252; Codec.LATIN1].

(** The zero byte. *)
Definition x00 : byte := "000"%byte.

(** The parser after [<b>x</i>], and inside a style element. *)
Definition after_bold_text : ClipboardHtmlRunParser.state :=
  ClipboardHtmlRunParser.feed_events (U := BasicLatin)
    (ClipboardHtmlRunParser.init [] [])
    [StartTag (u "b") []; Data (u "x"); EndTag (u "i")].

Definition inside_style : ClipboardHtmlRunParser.state :=
  ClipboardHtmlRunParser.feed_events (U := BasicLatin)
    (ClipboardHtmlRunParser.init [] []) [StartTag (u "style") []].

(** The text [hello] as little-endian wide characters with one stray byte
    after it; four bytes of wide characters; wide characters behind a
    byte-order mark, of odd length. *)
Definition wide_hello : bytes :=
  [ "h"; x00; "e"; x00; "l"; x00; "l"; x00; "o"; x00; "!" ]%byte.

Definition short_wide_buffer : bytes := [ "a"; x00; "b"; x00 ]%byte.

Definition bom_odd_buffer : bytes :=
  [ "255"; "254"; "a"; x00; "b"; x00; "c"; x00; "d"; x00; "e" ]%byte.

(** What the comment markers delimit in a markup range, when both are there
    in order. *)
Definition between_markers (html_bytes : bytes) : option bytes :=
  let start := find Byte.eqb start_marker html_bytes in
  let end_ := find Byte.eqb end_marker html_bytes in
  if (negb (start =? -1) && negb (end_ =? -1) && (start <? end_))%Z
  then Some (zslice (start + len start_marker) end_ html_bytes)
  else None.

(** A payload with the offsets 9 and 5, which are not a range, and with both
    comment markers around the text [X]. *)
Definition crossed_offsets_payload : bytes :=
  b "StartFragment:9EndFragment:5<!--StartFragment-->X<!--EndFragment-->".

(** The payload of the same shape whose first offset has 4301 digits, and a
    clipboard that holds it beside a plain text. *)
Definition oversized_offset_payload : bytes :=
  b "StartFragment:" ++ List.repeat "9"%byte 4301 ++ b "EndFragment:1".

Definition oversized_offset_clipboard : clipboard :=
  {| clipboard_get := Some (u "note");
     html_format_bytes := Some oversized_offset_payload;
     rtf_format_bytes := None;
     available_format_names := [u "CF_UNICODETEXT"; u "HTML Format"] |}.

(** A payload whose markup range, bytes 50 to 52, holds two zero bytes and
    so decodes to the empty text; the fragment offsets 9 and 5 are not a
    range, and the comment markers are around the text [X]. *)
Definition hollow_markup_payload : bytes :=
  b "StartHTML:50EndHTML:52StartFragment:9EndFragment:5" ++ [x00; x00]
  ++ b "<!--StartFragment-->X<!--EndFragment-->".

(** Two zero bytes before a last line feed: the pattern of the trailing
    zero bytes matches before the line feed. *)
Definition zeros_before_newline : bytes :=
  [ "a"; "b"; x00; x00; "010" ]%byte.

(** There is a capture and one of its runs is bold. *)
Definition bold_capture (c : option capture) : Prop :=
  exists x, c = Some x /\ exists t, In (t, true) (runs x).

(** The priority order of the reconciler: the markup capture when it has a
    bold run, else the rich-text capture when it has a bold run, else the
    markup capture, else the rich-text capture, else the plain-text
    fallback. *)
Definition chosen_by_priority
           (html_capture rtf_capture fallback chosen : option capture)
  : Prop :=
  (bold_capture html_capture -> chosen = html_capture)
  /\ (~ bold_capture html_capture -> bold_capture rtf_capture ->
      chosen = rtf_capture)
  /\ (~ bold_capture html_capture -> ~ bold_capture rtf_capture ->
      html_capture <> None -> chosen = html_capture)
  /\ (html_capture = None -> rtf_capture <> None -> chosen = rtf_capture)
  /\ (html_capture = None -> rtf_capture = None -> chosen = fallback).

(** The plain-text fallback: one run over the text, not bold, with the
    diagnostic detail. *)
Definition plain_capture {U : Unicode} (available_formats : list str)
           (t : str) : capture :=
  {| text := t; runs := [(t, false)]; signature := TextSignature t;
     source := SourceText;
     detail := Some (fallback_detail available_formats) |}.

(** Seven format names, and a clipboard with a plain text under them. *)
Definition seven_format_names : list str :=
  [u "F1"; u "F2"; u "F3"; u "F4"; u "F5"; u "F6"; u "F7"].

Definition seven_format_clipboard : clipboard :=
  {| clipboard_get := Some (u "note"); html_format_bytes := None;
     rtf_format_bytes := None;
     available_format_names := seven_format_names |}.

(** A clipboard that holds nothing. *)
Definition empty_clipboard : clipboard :=
  {| clipboard_get := None; html_format_bytes := None;
     rtf_format_bytes := None; available_format_names := [] |}.

(** The example of the specification: plain text [Hello world], the markup
    [<b>Hello</b> world] and a legacy candidate without bold. *)
Definition hello_clipboard : clipboard :=
  {| clipboard_get := Some (u "Hello world");
     html_format_bytes := Some (b "<b>Hello</b> world");
     rtf_format_bytes := Some (b "{\rtf1 Hello world}");
     available_format_names := [u "CF_UNICODETEXT"; u "HTML Format";
                                u "Rich Text Format"] |}.

(** A text that begins with a character that is not white space. *)
Definition starts_solid (s : str) : Prop :=
  exists c r, s = c :: r /\ isspace c = false.

(** A run sequence has a bold character when one of its bold runs holds a
    character. *)
Definition has_bold_character (rs : list run) : Prop :=
  exists t, In (t, true) rs /\ t <> [].

(** The same as a test: the run is bold and its text is not empty. *)
Definition bold_character_run (r : run) : bool :=
  match r with
  | (_ :: _, true) => true
  | _ => false
  end.

(** The tuple of the specification for a normalized run sequence: 1 when it
    has a bold character and else 0, the similarity of its canonical text to
    the canonical plain text, the negated absolute length difference of the
    two canonical texts, and the length of the candidate text. *)
Definition spec_score {U : Unicode} {L : Library}
           (candidate_runs : list run) (canonical_plain_text : str) : score :=
  let candidate_canonical :=
    _canonical_capture_text (Some (runs_text candidate_runs)) in
  ((if existsb bold_character_run candidate_runs then 1 else 0)%Z,
   _capture_similarity candidate_canonical canonical_plain_text,
   (- Z.abs (len candidate_canonical - len canonical_plain_text))%Z,
   len (runs_text candidate_runs)).

(** What the loop holds after the candidates [seen]. *)
Definition best_of {U : Unicode} {L : Library} (payload : html_payload)
           (canonical_plain_text : str) (seen : list str) (acc : best)
  : Prop :=
  match acc with
  | (None, s, _) =>
      s = snd (fst best_init)
      /\ forall candidate, In candidate seen ->
           score_candidate payload canonical_plain_text candidate = None
  | (Some rs, s, similarity) =>
      (exists candidate,
          In candidate seen
          /\ score_candidate payload canonical_plain_text candidate
             = Some (rs, s, similarity))
      /\ forall candidate rs' s' similarity',
           In candidate seen ->
           score_candidate payload canonical_plain_text candidate
           = Some (rs', s', similarity') ->
           score_gt s' s = false
  end.

(** ** Vocabulary of the further properties *)

(** The digits of a text are decimal when [int] takes every character that
    [str.isdigit] takes; so it is for every ASCII text. *)
Definition digits_decimal {U : Unicode} (s : str) : Prop :=
  forall c, In c s -> isdigit c = true -> decimal c <> None.

(** Text without a character that has a role in the control syntax of the
    legacy rich-text format. *)
Definition literal (s : str) : Prop :=
  Forall (fun c => ClipboardRtfRunParser.is_special c = false) s.

(** Handler calls of well-nested markup: text, line breaks, and elements
    whose end tag closes the start tag of the same name, with well-nested
    content between them.  Script and style elements are left out. *)
Inductive balanced {U : Unicode} : list html_event -> Prop :=
| balanced_nil : balanced []
| balanced_data : forall data rest,
    balanced rest -> balanced (Data data :: rest)
| balanced_br : forall tag attrs rest,
    lower tag = u "br" ->
    balanced rest -> balanced (StartTag tag attrs :: rest)
| balanced_element : forall tag attrs inner end_tag rest,
    ClipboardHtmlRunParser.skipped_tag (lower tag) = false ->
    str_eqb (lower tag) (u "br") = false ->
    lower end_tag = lower tag ->
    balanced inner -> balanced rest ->
    balanced (StartTag tag attrs :: inner ++ EndTag end_tag :: rest).

(** The formatting state of the markup parser: what decides how the next
    text is taken. *)
Definition formatting (st : ClipboardHtmlRunParser.state)
  : Z * Z * list (str * bool) * Z :=
  (ClipboardHtmlRunParser._bold_depth st,
   ClipboardHtmlRunParser._skip_depth st,
   ClipboardHtmlRunParser._tag_stack st,
   ClipboardHtmlRunParser._li_depth st).

(** No end tag of a script or style element. *)
Definition no_script_end {U : Unicode} (e : html_event) : Prop :=
  match e with
  | EndTag tag => ClipboardHtmlRunParser.skipped_tag (lower tag) = false
  | _ => True
  end.

(** One level of depth for a flag that is set. *)
Definition step_of (flag : bool) : Z := if flag then 1%Z else 0%Z.

(** A byte of ASCII text: not zero, and below 128. *)
Definition text_byte (x : byte) : bool :=
  ((0 <? Byte.to_N x) && (Byte.to_N x <? 128))%N.

(** [text.encode("utf-16-le")] for ASCII text given by its bytes. *)
Definition wide (ascii_text : bytes) : bytes :=
  flat_map (fun x => [x; x00]) ascii_text.

(** A contiguous part of a sequence. *)
Definition part_of {A : Type} (x s : list A) : Prop :=
  exists before after, s = before ++ x ++ after.

(** A character that [_normalize_captured_text] leaves in a text: no
    carriage return, no no-break space, no narrow no-break space. *)
Definition plain_char (c : char) : Prop :=
  c <> CR /\ c <> 160%N /\ c <> 8239%N.

(** The character before the cursor after a matcher has passed over [span]. *)
Definition prev_after (pv : option char) (span : str) : option char :=
  match last_opt span with Some x => Some x | None => pv end.

(** No two blank characters side by side. *)
Fixpoint single_blanks (s : str) : Prop :=
  match s with
  | x :: ((y :: _) as t) =>
      (blank x = true -> blank y = false) /\ single_blanks t
  | _ => True
  end.

(** The first character, if there is one, is not blank. *)
Definition solid_head (s : str) : Prop :=
  match s with
  | y :: _ => blank y = false
  | [] => True
  end.

(** The normal form of captured text: only plain characters, and on no
    line two blanks side by side. *)
Definition normal_text (s : str) : Prop :=
  Forall plain_char s /\ Forall single_blanks (split1 N.eqb LF s).

(** What every capture satisfies: a text that is not empty and is the
    concatenation of its runs, runs that are not empty, and a signature and
    a detail that go with its source. *)
Definition well_formed_capture (c : capture) : Prop :=
  text c <> []
  /\ text c = runs_text (runs c)
  /\ Forall (fun r : run => fst r <> []) (runs c)
  /\ match source c with
     | SourceText =>
         runs c = [(text c, false)]
         /\ signature c = TextSignature (text c)
         /\ detail c <> None
     | kind =>
         signature c = RunsSignature kind (runs c) /\ detail c = None
     end.

(** A run of one line: its text is not empty and holds no line break. *)
Definition line_run (r : format_run) : Prop :=
  run_text r <> [] /\ Forall (fun c => c <> LF) (run_text r).

(** The capture that the reconciler returns for [hello_clipboard]. *)
Definition hello_capture : capture :=
  {| text := u "Hello world";
     runs := [(u "Hello", true); (u " world", false)];
     signature :=
       RunsSignature SourceHtml [(u "Hello", true); (u " world", false)];
     source := SourceHtml; detail := None |}.

(** The characters of runs, each with the superscript value of its run. *)
Definition char_superscripts (runs : list format_run) : list (char * bool) :=
  List.flat_map
    (fun r : format_run => List.map (fun ch => (ch, snd r)) (run_text r))
    runs.

(** A cell without its bold value. *)
Definition cell_plain (c : cell) : char * bool := (fst (fst c), snd c).

(** A paragraph of two runs whose text is a bullet line of level 1. *)
Definition bullet_paragraph : list format_run :=
  [(u "    ", false, false); ([9702%N] ++ u " item", true, false)].

(** The cursor [c'] is the cursor [c] moved over [span]. *)
Definition moved_over {A : Type} (c : cursor (A := A)) (span : list A)
           (c' : cursor (A := A)) : Prop :=
  rest c = span ++ rest c' /\ pos c' = (pos c + List.length span)%nat.

(** The cursor stands at its position in the subject [s]. *)
Definition cursor_in {A : Type} (s : list A) (c : cursor (A := A)) : Prop :=
  rest c = skipn (pos c) s.

(** * Properties *)

(** ** Legacy rich-text parser *)
Section RtfProperties.
Context {U : Unicode}.
Import ClipboardRtfRunParser.

(** The bold control word alone sets the bold state, whatever it was. *)
Lemma control_b_sets : forall st, _bold (control st (u "b") None) = true.
Proof. intros st. reflexivity. Qed.

(** With the parameter 0 it clears the bold state; with any other parameter
    it sets it. *)
Lemma control_b_number : forall st n,
  _bold (control st (u "b") (Some n)) = negb (n =? 0)%Z.
Proof. intros st n. destruct n; reflexivity. Qed.

(** C8.  The legacy input [{\b hello\b0 world}] parses, without an exception,
    to exactly the two runs [("hello", true)] and [("world", false)]; the
    bold control word without a parameter sets the bold state and with the
    parameter 0 clears it. *)
Theorem rtf_bold_hello_world :
  parse (u "{\b hello\b0 world}")
  = Some [(u "hello", true); (u "world", false)]
  /\ (forall st, _bold (control st (u "b") None) = true)
  /\ (forall st, _bold (control st (u "b") (Some 0%Z)) = false).
Proof.
  split; [vm_compute; reflexivity|].
  split; intros st; [apply control_b_sets|].
  rewrite control_b_number. reflexivity.
Qed.
End RtfProperties.

(** ** Run normalizer *)

Lemma nonempty_runs_spec : forall l,
  Forall (fun r : run => fst r <> []) (nonempty_runs l).
Proof.
  intros l. apply Forall_forall. intros [t b0] Hin.
  apply filter_In in Hin. destruct Hin as [_ Ht]. simpl in *.
  destruct t; [discriminate|congruence].
Qed.

(** Every run that the normalizer returns has a non-empty text. *)
Lemma normalized_texts_nonempty : forall rs : list run,
  Forall (fun r : run => fst r <> []) (_normalize_captured_runs rs).
Proof.
  intros rs. unfold _normalize_captured_runs.
  destruct (fold_left merge_cleaned rs []) as [|[first first_bold] others].
  - constructor.
  - destruct (nonempty_runs ((first, first_bold)
                               :: collapse_joint_spaces first others)).
    + constructor.
    + apply nonempty_runs_spec.
Qed.

(** C5.  The normalizer breaks the invariant on the three runs
    [("a ", bold)], [(" ", plain)], [(" b", bold)]: the second loop empties
    the middle run, the filter drops it, and the two bold runs end up next
    to each other, unmerged. *)
Theorem normalize_leaves_equal_neighbours :
  _normalize_captured_runs [(u "a ", true); (u " ", false); (u " b", true)]
  = [(u "a ", true); (u " b", true)]
  /\ ~ normalized_invariant
       (_normalize_captured_runs
          [(u "a ", true); (u " ", false); (u " b", true)]).
Proof.
  assert (E : _normalize_captured_runs
                [(u "a ", true); (u " ", false); (u " b", true)]
              = [(u "a ", true); (u " b", true)])
    by (vm_compute; reflexivity).
  split; [exact E|].
  rewrite E. intros [_ [Hne _]]. apply Hne. reflexivity.
Qed.

(** Both inputs are run lists that the markup run parser produces: the first
    for [<b>a </b> <b> b</b>], the second for [<br><b> a</b>]. *)
Example equal_neighbours_input_from_markup :
  ClipboardHtmlRunParser.runs
    (ClipboardHtmlRunParser.feed_events (U := BasicLatin)
       (ClipboardHtmlRunParser.init [] [])
       [StartTag (u "b") []; Data (u "a "); EndTag (u "b"); Data (u " ");
        StartTag (u "b") []; Data (u " b"); EndTag (u "b")])
  = [(u "a ", true); (u " ", false); (u " b", true)]
  /\ ClipboardHtmlRunParser.runs
       (ClipboardHtmlRunParser.feed_events (U := BasicLatin)
          (ClipboardHtmlRunParser.init [] [])
          [StartTag (u "br") []; StartTag (u "b") []; Data (u " a");
           EndTag (u "b")])
     = [([LF], false); (u " a", true)].
Proof. split; vm_compute; reflexivity. Qed.

(** C6.  The normalizer is not idempotent on the two runs [("\n", plain)],
    [(" a", bold)]: the first run is trimmed to nothing and dropped, the run
    that becomes first keeps its leading space, and a second pass removes
    it. *)
Theorem normalize_twice_differs :
  _normalize_captured_runs [([LF], false); (u " a", true)] = [(u " a", true)]
  /\ _normalize_captured_runs
       (_normalize_captured_runs [([LF], false); (u " a", true)])
     = [(u "a", true)]
  /\ _normalize_captured_runs
       (_normalize_captured_runs [([LF], false); (u " a", true)])
     <> _normalize_captured_runs [([LF], false); (u " a", true)].
Proof.
  assert (E1 : _normalize_captured_runs [([LF], false); (u " a", true)]
               = [(u " a", true)]) by (vm_compute; reflexivity).
  assert (E2 : _normalize_captured_runs [(u " a", true)] = [(u "a", true)])
    by (vm_compute; reflexivity).
  rewrite E1, E2. repeat split. discriminate.
Qed.

(** ** Markup run parser *)

Lemma str_eqb_eq : forall x y, str_eqb x y = true <-> x = y.
Proof.
  intros x y. unfold str_eqb.
  destruct (list_eq_dec N.eq_dec x y); split; congruence.
Qed.

(** The streaming merge ends with the text just given, under the bold value
    just given. *)
Lemma append_run_last : forall (rs : list run) text0 is_bold,
  exists earlier t,
    append_run rs text0 is_bold = earlier ++ [(t ++ text0, is_bold)].
Proof.
  induction rs as [|[p b0] rest IH]; intros text is_bold.
  - exists [], []. reflexivity.
  - destruct rest as [|r rest'].
    + simpl. destruct (Bool.eqb b0 is_bold).
      * exists [], p. reflexivity.
      * exists [(p, b0)], []. reflexivity.
    + destruct (IH text is_bold) as [earlier [t E]].
      exists ((p, b0) :: earlier), t.
      change (append_run ((p, b0) :: r :: rest') text is_bold)
        with ((p, b0) :: append_run (r :: rest') text is_bold).
      rewrite E. reflexivity.
Qed.

Section HtmlProperties.
Context {U : Unicode}.
Import ClipboardHtmlRunParser.

Lemma append_keeps : forall st text is_bold,
  _bold_depth (_append st text is_bold) = _bold_depth st
  /\ _skip_depth (_append st text is_bold) = _skip_depth st
  /\ _tag_stack (_append st text is_bold) = _tag_stack st
  /\ _li_depth (_append st text is_bold) = _li_depth st.
Proof.
  intros st text is_bold. unfold _append.
  destruct (negb (truthy text)); repeat split.
Qed.

Lemma append_newline_keeps : forall st,
  _bold_depth (_append_newline st) = _bold_depth st
  /\ _skip_depth (_append_newline st) = _skip_depth st
  /\ _tag_stack (_append_newline st) = _tag_stack st
  /\ _li_depth (_append_newline st) = _li_depth st.
Proof.
  intros st. unfold _append_newline.
  destruct (last_opt (runs st)) as [[last_text b0]|]; [|repeat split].
  destruct (endswith N.eqb [LF] last_text); [repeat split|].
  apply append_keeps.
Qed.

Ltac keep_depths :=
  repeat match goal with
    | |- context [_bold_depth (_append_newline ?s)] =>
        rewrite (proj1 (append_newline_keeps s))
    | |- context [_skip_depth (_append_newline ?s)] =>
        rewrite (proj1 (proj2 (append_newline_keeps s)))
    | |- context [_li_depth (_append_newline ?s)] =>
        rewrite (proj2 (proj2 (proj2 (append_newline_keeps s))))
    | |- context [_bold_depth (_append ?s ?t ?f)] =>
        rewrite (proj1 (append_keeps s t f))
    | |- context [_skip_depth (_append ?s ?t ?f)] =>
        rewrite (proj1 (proj2 (append_keeps s t f)))
    | |- context [_li_depth (_append ?s ?t ?f)] =>
        rewrite (proj2 (proj2 (proj2 (append_keeps s t f))))
    end.

Lemma handle_starttag_depths : forall st tag attrs,
  depths_ok st -> depths_ok (handle_starttag st tag attrs).
Proof.
  intros st tag attrs [Hb Hs]. unfold depths_ok, handle_starttag.
  destruct (skipped_tag (lower tag)); [simpl; lia|].
  destruct (0 <? _skip_depth st)%Z; [auto|].
  destruct (str_eqb (lower tag) (u "br")); [keep_depths; auto|].
  cbv zeta.
  set (st1 := if str_eqb (lower tag) (u "li") then _ else st).
  assert (H1 : _bold_depth st1 = _bold_depth st /\ _skip_depth st1 = _skip_depth st).
  { subst st1. destruct (str_eqb (lower tag) (u "li")); [|auto].
    simpl. keep_depths. auto. }
  destruct H1 as [E1 E2].
  match goal with
  | |- context [if ?c then with_bold_depth _ _ else _] => destruct c
  end; simpl; lia.
Qed.

Lemma handle_endtag_depths : forall st tag,
  depths_ok st -> depths_ok (handle_endtag st tag).
Proof.
  intros st tag [Hb Hs]. unfold depths_ok, handle_endtag.
  destruct (skipped_tag (lower tag)).
  { destruct (0 <? _skip_depth st)%Z eqn:E; [|auto].
    apply Z.ltb_lt in E. simpl. lia. }
  destruct (0 <? _skip_depth st)%Z; [auto|].
  cbv zeta.
  set (st1 := match pop_matching (lower tag) (_tag_stack st) with
              | Some _ => _ | None => st end).
  assert (H1 : (0 <= _bold_depth st1)%Z /\ _skip_depth st1 = _skip_depth st).
  { subst st1.
    destruct (pop_matching (lower tag) (_tag_stack st)) as [[pushes stack']|];
      [|auto].
    simpl. destruct pushes; simpl; [|auto].
    destruct (0 <? _bold_depth st)%Z eqn:E; simpl; [|auto].
    apply Z.ltb_lt in E. lia. }
  destruct H1 as [E1 E2].
  destruct (str_eqb (lower tag) (u "li")).
  { keep_depths. destruct (0 <? _li_depth st1)%Z; simpl; lia. }
  destruct (str_in (lower tag) BLOCK_TAGS); [|lia].
  destruct (_li_depth st1 =? 0)%Z; keep_depths; lia.
Qed.

Lemma handle_data_depths : forall st data,
  depths_ok st -> depths_ok (handle_data st data).
Proof.
  intros st data [Hb Hs]. unfold depths_ok, handle_data.
  destruct (0 <? _skip_depth st)%Z; keep_depths; auto.
Qed.

Lemma handle_depths : forall st e, depths_ok st -> depths_ok (handle st e).
Proof.
  intros st [tag attrs|tag|data] H; simpl.
  - apply handle_starttag_depths; assumption.
  - apply handle_endtag_depths; assumption.
  - apply handle_data_depths; assumption.
Qed.

Lemma feed_events_depths : forall events st,
  depths_ok st -> depths_ok (feed_events st events).
Proof.
  induction events as [|e events IH]; intros st H; simpl; [assumption|].
  apply IH. apply handle_depths. assumption.
Qed.

Lemma pop_matching_absent : forall lowered stack,
  ~ In lowered (List.map fst stack) -> pop_matching lowered stack = None.
Proof.
  induction stack as [|[stack_tag pushes] below IH]; intros Hn; simpl.
  - reflexivity.
  - destruct (str_eqb stack_tag lowered) eqn:E; simpl.
    + apply str_eqb_eq in E. exfalso. apply Hn. left. exact E.
    + rewrite IH; [reflexivity|]. intros Hin. apply Hn. right. exact Hin.
Qed.

(** A close tag that names no entry of the tag stack leaves the bold depth
    as it is. *)
Lemma handle_endtag_unmatched : forall st tag,
  ~ In (lower tag) (List.map fst (_tag_stack st)) ->
  _bold_depth (handle_endtag st tag) = _bold_depth st.
Proof.
  intros st tag Hn. unfold handle_endtag.
  destruct (skipped_tag (lower tag)).
  { destruct (0 <? _skip_depth st)%Z; reflexivity. }
  destruct (0 <? _skip_depth st)%Z; [reflexivity|].
  rewrite (pop_matching_absent _ _ Hn). cbv zeta.
  destruct (str_eqb (lower tag) (u "li")).
  { keep_depths. destruct (0 <? _li_depth st)%Z; reflexivity. }
  destruct (str_in (lower tag) BLOCK_TAGS); [|reflexivity].
  destruct (_li_depth st =? 0)%Z; keep_depths; reflexivity.
Qed.

(** Text outside script and style bodies goes to the end of the run list,
    bold exactly when the bold depth is positive; text inside them is
    dropped. *)
Lemma handle_data_emits : forall st data,
  ((0 < _skip_depth st)%Z -> runs (handle_data st data) = runs st)
  /\ ((_skip_depth st <= 0)%Z -> data <> [] ->
      exists earlier t,
        runs (handle_data st data)
        = earlier ++ [(t ++ data, (0 <? _bold_depth st)%Z)]).
Proof.
  intros st data. unfold handle_data. split.
  - intros H. apply Z.ltb_lt in H. rewrite H. reflexivity.
  - intros H Hd.
    assert (E : (0 <? _skip_depth st)%Z = false) by (apply Z.ltb_ge; lia).
    rewrite E. unfold _append.
    destruct data as [|c data']; [congruence|]. simpl.
    apply append_run_last.
Qed.

(** C10.  Whatever handler calls a markup makes, balanced or not, the bold
    depth and the skip depth of the parser are never negative: after every
    sequence of calls (so at every step of a longer one) both are at least
    zero.  In every state so reached, a close tag that matches no entry of
    the tag stack leaves the bold depth unchanged, and a text node is
    appended to the runs with bold state [true] exactly when the bold depth
    is positive (and is dropped inside script and style bodies). *)
Theorem html_depth_counters_invariant :
  forall (class_bold_map : dict bool) (css_vars : dict str)
         (events : list html_event),
    let st := feed_events (init class_bold_map css_vars) events in
    ((0 <= _bold_depth st)%Z /\ (0 <= _skip_depth st)%Z)
    /\ (forall tag,
          ~ In (lower tag) (List.map fst (_tag_stack st)) ->
          _bold_depth (handle_endtag st tag) = _bold_depth st)
    /\ (forall data,
          ((0 < _skip_depth st)%Z -> runs (handle_data st data) = runs st)
          /\ ((_skip_depth st <= 0)%Z -> data <> [] ->
              exists earlier t,
                runs (handle_data st data)
                = earlier ++ [(t ++ data, (0 <? _bold_depth st)%Z)])).
Proof.
  intros class_bold_map css_vars events st. split; [|split].
  - apply feed_events_depths. split; simpl; lia.
  - intros tag. apply handle_endtag_unmatched.
  - intros data. apply handle_data_emits.
Qed.
End HtmlProperties.

Lemma html_depth_counters_witness :
  (~ In (lower (u "i"))
        (List.map fst (ClipboardHtmlRunParser._tag_stack after_bold_text))
   /\ ClipboardHtmlRunParser._bold_depth
        (ClipboardHtmlRunParser.handle_endtag after_bold_text (u "i"))
      = ClipboardHtmlRunParser._bold_depth after_bold_text)
  /\ ((ClipboardHtmlRunParser._skip_depth after_bold_text <= 0)%Z
      /\ u "y" <> []
      /\ exists earlier t,
           ClipboardHtmlRunParser.runs
             (ClipboardHtmlRunParser.handle_data after_bold_text (u "y"))
           = earlier ++ [(t ++ u "y", true)])
  /\ ((0 < ClipboardHtmlRunParser._skip_depth inside_style)%Z
      /\ ClipboardHtmlRunParser.runs
           (ClipboardHtmlRunParser.handle_data inside_style (u "y"))
         = ClipboardHtmlRunParser.runs inside_style).
Proof.
  assert (Hn : ~ In (lower (u "i"))
                    (List.map fst
                       (ClipboardHtmlRunParser._tag_stack after_bold_text))).
  { intros [H|[]]. discriminate H. }
  assert (Hs : (ClipboardHtmlRunParser._skip_depth after_bold_text <= 0)%Z)
    by (vm_compute; discriminate).
  assert (Hy : u "y" <> []) by discriminate.
  assert (Hs' : (0 < ClipboardHtmlRunParser._skip_depth inside_style)%Z)
    by reflexivity.
  split; [|split].
  - split; [exact Hn|].
    exact (proj1 (proj2 (html_depth_counters_invariant (U := BasicLatin) [] []
             [StartTag (u "b") []; Data (u "x"); EndTag (u "i")]))
             (u "i") Hn).
  - split; [exact Hs|]. split; [exact Hy|].
    exact (proj2 (proj2 (proj2 (html_depth_counters_invariant
             (U := BasicLatin) [] []
             [StartTag (u "b") []; Data (u "x"); EndTag (u "i")]))
             (u "y")) Hs Hy).
  - split; [exact Hs'|].
    exact (proj1 (proj2 (proj2 (html_depth_counters_invariant
             (U := BasicLatin) [] [] [StartTag (u "style") []]))
             (u "y")) Hs').
Defined.

(** ** Byte decoder *)

Lemma drop_nul_clean : forall s, ~ In NUL (drop_nul s).
Proof.
  unfold drop_nul, replace. induction s as [|c t IH]; simpl; [tauto|].
  destruct c as [|p]; simpl; [exact IH|].
  intros [H|H]; [discriminate H|tauto].
Qed.

Lemma find_nul_from : forall s i,
  In NUL s -> (0 <= i)%Z -> (0 <= find_from N.eqb [NUL] s i)%Z.
Proof.
  induction s as [|c t IH]; intros i Hin Hi; [destruct Hin|].
  simpl. destruct c as [|p]; simpl; [exact Hi|].
  destruct Hin as [H|H]; [discriminate H|]. apply IH; [exact H|lia].
Qed.

Lemma contains_nul_false : forall s,
  contains N.eqb [NUL] s = false -> ~ In NUL s.
Proof.
  intros s H Hin. unfold contains, find in H.
  apply Z.leb_gt in H. pose proof (find_nul_from s 0 Hin). lia.
Qed.

Lemma first_decoding_clean : forall encodings data decoded,
  first_decoding encodings data = Some decoded -> ~ In NUL decoded.
Proof.
  induction encodings as [|e rest IH]; intros data decoded H; simpl in H.
  - discriminate.
  - destruct (Codec.decode e data) as [d|]; [|eauto].
    injection H as <-.
    destruct (contains N.eqb [NUL] d) eqn:E.
    + apply drop_nul_clean.
    + apply contains_nul_false. exact E.
Qed.

(** A chain that holds the single-byte codec never falls through: that
    codec maps every byte. *)
Lemma first_decoding_latin1 : forall encodings data,
  In Codec.LATIN1 encodings ->
  exists decoded, first_decoding encodings data = Some decoded.
Proof.
  induction encodings as [|e rest IH]; intros data Hin; [destruct Hin|].
  simpl. destruct (Codec.decode e data) as [d|] eqn:E; [eauto|].
  destruct Hin as [H|H]; [|auto].
  subst e. discriminate E.
Qed.

Lemma decoding_plan_has_latin1 : forall raw_data,
  In Codec.LATIN1 (snd (decoding_plan raw_data)).
Proof.
  intros raw_data. unfold decoding_plan. cbv zeta.
  destruct (starts_with_bom raw_data), (looks_like_utf16le raw_data),
    (looks_like_utf16be raw_data); simpl; tauto.
Qed.

(** C4.  For every byte buffer, empty, of odd length or arbitrary, the
    decoder returns a string that holds no NUL character.  No exception
    escapes: each codec that raises is passed over by the loop, and the loop
    itself always returns, because every chain holds the single-byte codec
    that maps every byte; what it returns for a non-empty buffer is the
    result of the decoder. *)
Theorem decode_total_without_nul : forall raw_data : bytes,
  ~ In NUL (_decode_clipboard_bytes raw_data)
  /\ exists decoded,
       first_decoding (snd (decoding_plan raw_data))
                      (fst (decoding_plan raw_data)) = Some decoded
       /\ _decode_clipboard_bytes raw_data
          = if truthy raw_data then decoded else [].
Proof.
  intros raw_data.
  destruct (first_decoding_latin1 (snd (decoding_plan raw_data))
              (fst (decoding_plan raw_data))
              (decoding_plan_has_latin1 raw_data)) as [decoded E].
  assert (R : _decode_clipboard_bytes raw_data
              = if truthy raw_data then decoded else []).
  { unfold _decode_clipboard_bytes.
    destruct raw_data as [|x rest]; [reflexivity|].
    simpl truthy. simpl negb. cbv iota.
    destruct (decoding_plan (x :: rest)) as [data encodings].
    simpl in E. rewrite E. reflexivity. }
  split; [|exists decoded; auto].
  rewrite R. destruct (truthy raw_data); [|simpl; tauto].
  eapply first_decoding_clean. exact E.
Qed.

Lemma sample_len : forall blob : bytes,
  (8 <= len blob)%Z -> (8 <= len (sample_of blob))%Z.
Proof.
  intros blob H. unfold sample_of, len in *. rewrite length_firstn. lia.
Qed.

Lemma indexed_parts_nonempty : forall sample : bytes,
  (8 <= len sample)%Z ->
  truthy (even_indexed sample) = true /\ truthy (odd_indexed sample) = true.
Proof.
  intros sample H. unfold len in H.
  destruct sample as [|x [|y t]]; simpl in H; try lia.
  split; reflexivity.
Qed.

(** C9, as the code has it.  A buffer of at least eight bytes that does not
    open with a byte-order mark, in whose sampled prefix more than 60% of the
    odd-indexed bytes and fewer than 25% of the even-indexed bytes are zero,
    is classified as little-endian wide-character text: it loses its last
    byte when its length is odd and is handed to the little-endian codec
    first; the decoded string holds no NUL character. *)
Theorem utf16le_classification : forall data : bytes,
  let sample := sample_of data in
  (8 <= len data)%Z ->
  starts_with_bom data = false ->
  (6 * len (odd_indexed sample) < 10 * count_zero (odd_indexed sample))%Z ->
  (4 * count_zero (even_indexed sample) < len (even_indexed sample))%Z ->
  looks_like_utf16le data = true
  /\ decoding_plan data = (drop_odd_byte data, LE_CHAIN)
  /\ ~ In NUL (_decode_clipboard_bytes data).
Proof.
  intros data sample Hlen Hbom Hodd Heven.
  assert (Hle : looks_like_utf16le data = true).
  { unfold looks_like_utf16le. fold sample.
    pose proof (sample_len data Hlen) as Hs. fold sample in Hs.
    destruct (indexed_parts_nonempty sample Hs) as [He Ho].
    replace (len sample <? 8)%Z with false by (symmetry; apply Z.ltb_ge; lia).
    rewrite He, Ho. simpl.
    unfold fraction_gt, fraction_lt.
    apply andb_true_iff. split; apply Z.ltb_lt.
    - assert (0 <= len (odd_indexed sample))%Z by (unfold len; lia). lia.
    - lia. }
  split; [exact Hle|]. split.
  - unfold decoding_plan. rewrite Hle, Hbom. reflexivity.
  - apply decode_total_without_nul.
Qed.

Lemma utf16le_classification_witness :
  ((8 <= len wide_hello)%Z /\ starts_with_bom wide_hello = false
   /\ (6 * len (odd_indexed (sample_of wide_hello))
       < 10 * count_zero (odd_indexed (sample_of wide_hello)))%Z
   /\ (4 * count_zero (even_indexed (sample_of wide_hello))
       < len (even_indexed (sample_of wide_hello)))%Z)
  /\ looks_like_utf16le wide_hello = true
  /\ decoding_plan wide_hello = (removelast wide_hello, LE_CHAIN)
  /\ ~ In NUL (_decode_clipboard_bytes wide_hello).
Proof.
  assert (H1 : (8 <= len wide_hello)%Z) by (vm_compute; discriminate).
  assert (H2 : starts_with_bom wide_hello = false) by reflexivity.
  assert (H3 : (6 * len (odd_indexed (sample_of wide_hello))
                < 10 * count_zero (odd_indexed (sample_of wide_hello)))%Z)
    by reflexivity.
  assert (H4 : (4 * count_zero (even_indexed (sample_of wide_hello))
                < len (even_indexed (sample_of wide_hello)))%Z)
    by reflexivity.
  split; [repeat split; assumption|].
  exact (utf16le_classification wide_hello H1 H2 H3 H4).
Defined.

(** The decoder on that buffer: the odd last byte is dropped. *)
Example decode_wide_hello : _decode_clipboard_bytes wide_hello = u "hello".
Proof. vm_compute. reflexivity. Qed.

(** Without the length condition the classification fails on a short buffer: in the four bytes
    [a 00 b 00] every odd-indexed byte and no even-indexed byte is zero, yet
    a sample under eight bytes is never classified as wide-character text
    and the buffer goes to the default chain. *)
Lemma short_buffer_not_utf16le :
  (6 * len (odd_indexed (sample_of short_wide_buffer))
   < 10 * count_zero (odd_indexed (sample_of short_wide_buffer)))%Z
  /\ (4 * count_zero (even_indexed (sample_of short_wide_buffer))
      < len (even_indexed (sample_of short_wide_buffer)))%Z
  /\ looks_like_utf16le short_wide_buffer = false
  /\ snd (decoding_plan short_wide_buffer)
     = [Codec.UTF8; Codec.CP1252; Codec.LATIN1; Codec.UTF16LE].
Proof. repeat split. Qed.

(** With a byte-order mark in front the mark decides, not the zero
    fractions: an odd-length buffer keeps its last byte, the BOM-aware codec
    rejects it, and a single-byte codec decodes it. *)
Lemma bom_buffer_not_truncated :
  (6 * len (odd_indexed (sample_of bom_odd_buffer))
   < 10 * count_zero (odd_indexed (sample_of bom_odd_buffer)))%Z
  /\ (4 * count_zero (even_indexed (sample_of bom_odd_buffer))
      < len (even_indexed (sample_of bom_odd_buffer)))%Z
  /\ looks_like_utf16le bom_odd_buffer = true
  /\ decoding_plan bom_odd_buffer
     = (bom_odd_buffer,
        [Codec.UTF16; Codec.UTF8; Codec.CP1252; Codec.LATIN1])
  /\ _decode_clipboard_bytes bom_odd_buffer = [255; 254]%N ++ u "abcde".
Proof. repeat split. Qed.

(** ** What a match has read *)

Section MatchSpans.
Context {A : Type} `{Symbol A}.

Lemma moved_over_nil : forall c : cursor (A := A), moved_over c [] c.
Proof. intros c. split; [reflexivity|simpl; lia]. Qed.

Lemma moved_over_app : forall (c1 c2 c3 : cursor (A := A)) s1 s2,
  moved_over c1 s1 c2 -> moved_over c2 s2 c3 -> moved_over c1 (s1 ++ s2) c3.
Proof.
  intros c1 c2 c3 s1 s2 [R1 P1] [R2 P2]. split.
  - rewrite R1, R2, app_assoc. reflexivity.
  - rewrite P2, P1, length_app. lia.
Qed.

Lemma cursor_in_moved : forall (s : list A) (c c' : cursor (A := A)) span,
  cursor_in s c -> moved_over c span c' ->
  cursor_in s c' /\ slice (pos c) (pos c') s = span.
Proof.
  unfold cursor_in, slice. intros s c c' span Hc [R P]. split.
  - rewrite P, Nat.add_comm, <- skipn_skipn, <- Hc, R.
    rewrite skipn_app, Nat.sub_diag, skipn_all. reflexivity.
  - rewrite <- Hc, R, P.
    replace (pos c + List.length span - pos c)%nat with (List.length span)
      by lia.
    rewrite firstn_app, Nat.sub_diag, firstn_all, app_nil_r. reflexivity.
Qed.

Lemma exec_one_span : forall (p : A -> bool) c g (k : cont) res,
  exec (One p) c g k = Some res ->
  exists x c', p x = true /\ moved_over c [x] c' /\ k c' g = Some res.
Proof.
  intros p c g k res. cbn [exec].
  destruct (rest c) as [|x t] eqn:R; [discriminate|].
  destruct (p x) eqn:P; [|discriminate].
  intros E. exists x. eexists. split; [exact P|]. split; [|exact E].
  split; [exact R|simpl; lia].
Qed.

(** An unbounded repetition of a class reads characters of the class and
    leaves the groups as they are. *)
Lemma rep_one_span : forall (p : A -> bool) greedy lo bound i c g (k : cont)
                            res,
  rep_loop (exec (One p)) greedy lo None bound i c g k = Some res ->
  exists span c',
    Forall (fun x => p x = true) span /\ moved_over c span c'
    /\ k c' g = Some res.
Proof.
  intros p greedy lo. induction bound as [|bound IH];
    intros i c g k res; [discriminate|].
  cbn [rep_loop below].
  assert (Again : forall res,
    exec (One p) c g
      (fun c' g' =>
         if Nat.leb lo i && Nat.eqb (pos c') (pos c) then None
         else rep_loop (exec (One p)) greedy lo None bound (S i) c' g' k)
    = Some res ->
    exists span c',
      Forall (fun x => p x = true) span /\ moved_over c span c'
      /\ k c' g = Some res).
  { intros r E. apply exec_one_span in E.
    destruct E as [x [c1 [Px [M E]]]].
    destruct (Nat.leb lo i && Nat.eqb (pos c1) (pos c)); [discriminate|].
    apply IH in E. destruct E as [span [c' [F [M' E]]]].
    exists (x :: span), c'. split; [constructor; assumption|].
    split; [exact (moved_over_app _ _ _ _ _ M M')|exact E]. }
  assert (Stop : forall res,
    (if Nat.leb lo i then k c g else None) = Some res ->
    exists span c',
      Forall (fun x => p x = true) span /\ moved_over c span c'
      /\ k c' g = Some res).
  { intros r E. destruct (Nat.leb lo i); [|discriminate].
    exists [], c. split; [constructor|]. split; [apply moved_over_nil|exact E]. }
  destruct greedy.
  - match goal with |- match ?a with Some _ => _ | None => _ end = _ -> _ =>
      destruct a as [r|] end.
    + intros R. injection R as <-. exact (Again r eq_refl).
    + apply Stop.
  - match goal with |- match ?a with Some _ => _ | None => _ end = _ -> _ =>
      destruct a as [r|] end.
    + intros R. injection R as <-. exact (Stop r eq_refl).
    + apply Again.
Qed.

Lemma exec_cat : forall (r1 r2 : re A) c g (k : cont),
  exec (Cat r1 r2) c g k = exec r1 c g (fun c' g' => exec r2 c' g' k).
Proof. reflexivity. Qed.

Lemma exec_grp : forall i (r1 : re A) c g (k : cont),
  exec (Grp i r1) c g k
  = exec r1 c g (fun c' g' => k c' (set_cap i (pos c, pos c') g')).
Proof. reflexivity. Qed.

Lemma exec_rep : forall greedy lo hi (r1 : re A) c g (k : cont),
  exec (Rep greedy lo hi r1) c g k
  = rep_loop (exec r1) greedy lo hi (lo + S (List.length (rest c))) 0 c g k.
Proof. reflexivity. Qed.

(** A sequence of classes reads one character for each and leaves the
    groups as they are. *)
Lemma cat_ones_span : forall (ps : list (A -> bool)) c g (k : cont) res,
  exec (cat (List.map (fun p => One p) ps)) c g k = Some res ->
  exists span c', moved_over c span c' /\ k c' g = Some res.
Proof.
  induction ps as [|p1 ps IH]; intros c g k res.
  - cbn [List.map cat exec]. intros E. exists [], c.
    split; [apply moved_over_nil|exact E].
  - destruct ps as [|p2 ps].
    + cbn [List.map cat]. intros E. apply exec_one_span in E.
      destruct E as [x [c' [_ [M E]]]]. exists [x], c'. split; assumption.
    + change (cat (List.map (fun p => One p) (p1 :: p2 :: ps)))
        with (Cat (One p1) (cat (List.map (fun p => One p) (p2 :: ps)))).
      rewrite exec_cat. intros E. apply exec_one_span in E.
      destruct E as [x [c1 [_ [M E]]]]. apply IH in E.
      destruct E as [span [c' [M' E]]].
      exists ([x] ++ span), c'. split; [exact (moved_over_app _ _ _ _ _ M M')|exact E].
Qed.

(** Where a search finds its match. *)
Lemma search_from_match : forall (r : re A) (s : list A) p pv m,
  search_from r p pv s = Some m ->
  exists q pv', match_at r (p + q) pv' (skipn q s) = Some m.
Proof.
  intros r. induction s as [|x t IH]; intros p pv m; cbn [search_from].
  - destruct (match_at r p pv []) as [m'|] eqn:E; [|discriminate].
    intros R. injection R as <-. exists 0%nat, pv.
    rewrite Nat.add_0_r. exact E.
  - destruct (match_at r p pv (x :: t)) as [m'|] eqn:E.
    + intros R. injection R as <-. exists 0%nat, pv.
      rewrite Nat.add_0_r. exact E.
    + intros R. apply IH in R. destruct R as [q [pv' R]].
      exists (S q), pv'. rewrite Nat.add_succ_r. exact R.
Qed.
End MatchSpans.

Lemma slice_length : forall (A : Type) i j (s : list A),
  (List.length (slice i j s) <= List.length s)%nat.
Proof.
  intros A i j s. unfold slice.
  rewrite length_firstn, length_skipn. lia.
Qed.

Lemma group_length : forall (A : Type) (s : list A) m i,
  (List.length (group_ s m i) <= List.length s)%nat.
Proof.
  intros A s m i. unfold group_, group.
  destruct (get_cap i (m_caps m)) as [[a z]|]; [apply slice_length|].
  simpl. lia.
Qed.

Section OffsetHeaders.
Context {U : Unicode}.

Lemma lit_i_span : forall (s : string) c g (k : cont) res,
  exec (lit_i s) c g k = Some res ->
  exists span c', moved_over c span c' /\ k c' g = Some res.
Proof.
  intros s c g k res. unfold lit_i.
  change (List.map chr_i (u s))
    with (List.map (fun x => One (ieq x)) (u s)).
  rewrite <- (map_map ieq (fun p => One p)). apply cat_ones_span.
Qed.

(** The two groups of a match of the offset headers hold decimal digits. *)
Lemma offset_groups_decimal : forall (text : str) m,
  search offset_re text = Some m ->
  (forall c, In c (group_ text m 1) -> decimal c <> None)
  /\ (forall c, In c (group_ text m 2) -> decimal c <> None).
Proof.
  intros text m S. unfold search in S. apply search_from_match in S.
  destruct S as [q [pv S]]. unfold match_at in S.
  match type of S with match ?e with Some _ => _ | None => _ end = _ =>
    destruct e as [[c g]|] eqn:E; [|discriminate] end.
  injection S as <-.
  set (c0 := {| pos := (0 + q)%nat; prev := pv; rest := skipn q text |}) in E.
  assert (I0 : cursor_in text c0) by reflexivity.
  unfold offset_re in E. cbn [cat] in E.
  rewrite exec_cat in E. apply lit_i_span in E.
  destruct E as [span0 [c1 [M0 E]]].
  rewrite exec_cat, exec_grp in E. unfold plus in E. rewrite exec_rep in E.
  unfold digit in E. apply rep_one_span in E.
  destruct E as [span1 [c2 [F1 [M1 E]]]]. cbv beta in E.
  rewrite exec_cat in E. unfold lazy_star, any in E. rewrite exec_rep in E.
  apply rep_one_span in E. destruct E as [span2 [c3 [_ [M2 E]]]].
  cbv beta in E. rewrite exec_cat in E. apply lit_i_span in E.
  destruct E as [span3 [c4 [M3 E]]].
  rewrite exec_grp, exec_rep in E. apply rep_one_span in E.
  destruct E as [span4 [c5 [F4 [M4 E]]]]. cbv beta in E.
  unfold accept in E. injection E as <- <-.
  destruct (cursor_in_moved _ _ _ _ I0 M0) as [I1 _].
  destruct (cursor_in_moved _ _ _ _ I1 M1) as [I2 S1].
  destruct (cursor_in_moved _ _ _ _ I2 M2) as [I3 _].
  destruct (cursor_in_moved _ _ _ _ I3 M3) as [I4 _].
  destruct (cursor_in_moved _ _ _ _ I4 M4) as [_ S4].
  assert (D : forall span : str,
            Forall (fun x => match decimal x with
                             | Some _ => true
                             | None => false
                             end = true) span ->
            forall x, In x span -> decimal x <> None).
  { intros span F x Hx. rewrite Forall_forall in F. specialize (F x Hx).
    intros N. rewrite N in F. discriminate. }
  split; intros x Hx.
  - apply (D span1 F1). unfold group_, group in Hx. cbn in Hx.
    rewrite S1 in Hx. exact Hx.
  - apply (D span4 F4). unfold group_, group in Hx. cbn in Hx.
    rewrite S4 in Hx. exact Hx.
Qed.

Lemma int_from_decimals : forall (s : str) (acc : Z),
  (forall c, In c s -> decimal c <> None) ->
  exists v, int_from acc s = Some v.
Proof.
  induction s as [|c t IH]; intros acc H; simpl; [eauto|].
  destruct (decimal c) as [d|] eqn:E.
  - apply IH. intros x Hx. apply H. right. exact Hx.
  - exfalso. apply (H c); [left; reflexivity|exact E].
Qed.

(** [int] returns on at most 4300 decimal digits. *)
Lemma int_returns : forall s : str,
  (forall c, In c s -> decimal c <> None) ->
  (List.length s <= 4300)%nat ->
  exists v, int s = Some v.
Proof.
  intros s H Hl. unfold int, MAX_STR_DIGITS, len.
  replace (4300 <? Z.of_nat (List.length s))%Z with false
    by (symmetry; apply Z.ltb_ge; lia).
  apply int_from_decimals. exact H.
Qed.

(** [int] raises on more than 4300 digits. *)
Lemma int_raises : forall s : str, (4300 < len s)%Z -> int s = None.
Proof.
  intros s H. unfold int, MAX_STR_DIGITS.
  replace (4300 <? len s)%Z with true by (symmetry; apply Z.ltb_lt; exact H).
  reflexivity.
Qed.

(** The text extractor returns on a text of at most 4300 characters. *)
Lemma extract_fragment_returns : forall text : str,
  (List.length text <= 4300)%nat ->
  exists part, _extract_html_fragment_from_text text = Returns part.
Proof.
  intros text Hl. unfold _extract_html_fragment_from_text.
  destruct (negb (truthy text)); [eauto|].
  destruct (search marker_re text) as [mm|]; [eauto|].
  destruct (search offset_re text) as [m|] eqn:S; [|eauto].
  destruct (offset_groups_decimal text m S) as [D1 D2].
  destruct (int_returns (group_ text m 1) D1) as [start E1].
  { eapply Nat.le_trans; [apply group_length|exact Hl]. }
  destruct (int_returns (group_ text m 2) D2) as [end_ E2].
  { eapply Nat.le_trans; [apply group_length|exact Hl]. }
  rewrite E1, E2.
  destruct (in_bounds start end_ (len text)); eauto.
Qed.
End OffsetHeaders.

(** ** The decoder does not lengthen *)

Lemma sub_from_shrinks : forall (A : Type) (S : Symbol A) (r : re A)
                                (s : list A) skip p pv,
  (List.length (sub_from r [] skip p pv s) <= List.length s)%nat.
Proof.
  intros A S r. induction s as [|x t IH]; intros skip p pv; [simpl; lia|].
  cbn [sub_from]. destruct skip as [|k].
  - destruct (match_at r p pv (x :: t)) as [m|].
    + destruct (Nat.eqb (m_end m) p).
      * cbn [List.length]. apply le_n_S. apply IH.
      * cbn [app List.length]. apply Nat.le_trans with (List.length t);
          [apply IH|lia].
    + cbn [List.length]. apply le_n_S. apply IH.
  - cbn [List.length]. apply Nat.le_trans with (List.length t);
      [apply IH|lia].
Qed.

Lemma sub_shrinks : forall (A : Type) (S : Symbol A) (r : re A) (s : list A),
  (List.length (sub r [] s) <= List.length s)%nat.
Proof. intros A S r s. apply sub_from_shrinks. Qed.

Lemma replace_from_shrinks : forall (old s : str) skip,
  (List.length (replace_from N.eqb old [] skip s) <= List.length s)%nat.
Proof.
  intros old. induction s as [|c t IH]; intros skip; [simpl; lia|].
  cbn [replace_from]. destruct skip as [|k].
  - destruct (startswith N.eqb old (c :: t)).
    + cbn [app List.length]. apply Nat.le_trans with (List.length t);
        [apply IH|lia].
    + cbn [List.length]. apply le_n_S. apply IH.
  - cbn [List.length]. apply Nat.le_trans with (List.length t);
      [apply IH|lia].
Qed.

Lemma drop_nul_shrinks : forall s : str,
  (List.length (drop_nul s) <= List.length s)%nat.
Proof. intros s. apply replace_from_shrinks. Qed.

Lemma cp1252_length : forall (data : bytes) s,
  Codec.cp1252 data = Some s -> List.length s = List.length data.
Proof.
  induction data as [|x t IH]; intros s; cbn [Codec.cp1252].
  - intros E. injection E as <-. reflexivity.
  - destruct (Codec.cp1252_char x) as [c|]; [|discriminate].
    destruct (Codec.cp1252 t) as [s'|]; [|discriminate].
    intros E. injection E as <-. cbn [List.length]. f_equal.
    apply IH. reflexivity.
Qed.

Lemma code_units_length : forall little n (data : bytes) ws,
  (List.length data <= n)%nat ->
  Codec.code_units little data = Some ws ->
  (List.length ws <= List.length data)%nat.
Proof.
  intros little. induction n as [|n IH]; intros data ws Hn.
  - destruct data; [|simpl in Hn; lia]. intros E. injection E as <-.
    simpl. lia.
  - destruct data as [|x [|y t]].
    + intros E. injection E as <-. simpl. lia.
    + discriminate.
    + cbn [Codec.code_units]. cbv zeta.
      destruct (Codec.code_units little t) as [ws'|] eqn:E; [|discriminate].
      intros R. injection R as <-. cbn [List.length] in *.
      specialize (IH t ws' ltac:(lia) E). lia.
Qed.

Lemma option_map_cons_length : forall (A : Type) (x : A) o (s : list A),
  option_map (cons x) o = Some s ->
  exists s', o = Some s' /\ List.length s = S (List.length s').
Proof.
  intros A x [s'|] s; cbn [option_map]; [|discriminate].
  intros R. injection R as <-. exists s'. split; reflexivity.
Qed.

Lemma from_units_length : forall n (ws : list N) s,
  (List.length ws <= n)%nat ->
  Codec.from_units ws = Some s ->
  (List.length s <= List.length ws)%nat.
Proof.
  induction n as [|n IH]; intros ws s Hn.
  - destruct ws; [|simpl in Hn; lia]. intros E. injection E as <-.
    simpl. lia.
  - destruct ws as [|w t].
    + intros E. injection E as <-. simpl. lia.
    + cbn [Codec.from_units].
      destruct (Codec.in_range 55296 56319 w).
      * destruct t as [|w2 t2]; [discriminate|].
        destruct (Codec.in_range 56320 57343 w2); [|discriminate].
        intros R. apply (option_map_cons_length char) in R.
        destruct R as [s' [E Hs]]. cbn [List.length] in *.
        specialize (IH t2 s' ltac:(lia) E). lia.
      * destruct (Codec.in_range 56320 57343 w); [discriminate|].
        intros R. apply (option_map_cons_length char) in R.
        destruct R as [s' [E Hs]]. cbn [List.length] in *.
        specialize (IH t s' ltac:(lia) E). lia.
Qed.

Lemma utf16_order_length : forall little (data : bytes) s,
  Codec.utf16_order little data = Some s ->
  (List.length s <= List.length data)%nat.
Proof.
  intros little data s. unfold Codec.utf16_order.
  destruct (Codec.code_units little data) as [ws|] eqn:E; [|discriminate].
  intros F. apply (from_units_length _ _ _ (le_n _)) in F.
  apply (code_units_length _ _ _ _ (le_n _)) in E. lia.
Qed.

Lemma utf16_length : forall (data : bytes) s,
  Codec.utf16 data = Some s -> (List.length s <= List.length data)%nat.
Proof.
  intros data s. unfold Codec.utf16.
  assert (G : forall t : bytes,
            (List.length t <= List.length data)%nat ->
            forall little, Codec.utf16_order little t = Some s ->
            (List.length s <= List.length data)%nat).
  { intros t Ht little E. apply utf16_order_length in E. lia. }
  repeat match goal with
    | |- context [match ?d with [] => _ | _ :: _ => _ end] =>
        is_var d; destruct d
    | |- context [match ?x with "000"%byte => _ | _ => _ end] =>
        is_var x; destruct x
    end;
    try (apply G; simpl; lia).
Qed.

Lemma utf8_from_length : forall strict (data : list N) skip s,
  Codec.utf8_from strict skip data = Some s ->
  (List.length s <= List.length data)%nat.
Proof.
  intros strict. induction data as [|c t IH]; intros skip s.
  - intros E. injection E as <-. simpl. lia.
  - cbn [Codec.utf8_from]. destruct skip as [|k].
    + destruct (Codec.utf8_head (c :: t)) as [[ch n]|n].
      * destruct (Codec.utf8_from strict (n - 1) t) as [s'|] eqn:E;
          [|discriminate].
        intros R. injection R as <-. cbn [List.length]. apply le_n_S.
        exact (IH _ _ E).
      * destruct strict; [discriminate|]. intros E. apply IH in E.
        cbn [List.length]. lia.
    + intros E. apply IH in E. cbn [List.length]. lia.
Qed.

Lemma decode_length : forall e (data : bytes) s,
  Codec.decode e data = Some s -> (List.length s <= List.length data)%nat.
Proof.
  intros e data s. destruct e; cbn [Codec.decode].
  - unfold Codec.utf8. intros E. apply utf8_from_length in E.
    rewrite length_map in E. exact E.
  - intros E. apply cp1252_length in E. lia.
  - unfold Codec.latin1. intros E. injection E as <-.
    rewrite length_map. lia.
  - apply utf16_length.
  - apply utf16_order_length.
  - apply utf16_order_length.
Qed.

Lemma first_decoding_length : forall encodings (data : bytes) s,
  first_decoding encodings data = Some s ->
  (List.length s <= List.length data)%nat.
Proof.
  induction encodings as [|e encodings IH]; intros data s;
    cbn [first_decoding]; [discriminate|].
  destruct (Codec.decode e data) as [decoded|] eqn:E; [|apply IH].
  apply decode_length in E. intros R. injection R as <-.
  destruct (contains N.eqb [NUL] decoded); [|exact E].
  apply Nat.le_trans with (List.length decoded);
    [apply drop_nul_shrinks|exact E].
Qed.

Lemma decoding_plan_shrinks : forall raw_data : bytes,
  (List.length (fst (decoding_plan raw_data)) <= List.length raw_data)%nat.
Proof.
  intros raw_data. unfold decoding_plan. cbv zeta.
  assert (D : forall d : bytes,
            (List.length (drop_odd_byte d) <= List.length d)%nat).
  { intros d. unfold drop_odd_byte. destruct (len d mod 2 =? 1)%Z; [|lia].
    destruct d as [|x d]; [simpl; lia|].
    rewrite (app_removelast_last x (l := x :: d)) at 2 by discriminate.
    rewrite length_app. lia. }
  assert (T : forall c : bool,
            (List.length (if c then sub trailing_nul_re [] raw_data
                          else raw_data) <= List.length raw_data)%nat).
  { intros c. destruct c; [apply sub_shrinks|lia]. }
  destruct (starts_with_bom raw_data); cbn [fst]; [apply T|].
  destruct (looks_like_utf16le raw_data); cbn [fst].
  - eapply Nat.le_trans; [apply D|apply T].
  - destruct (looks_like_utf16be raw_data); cbn [fst]; [|apply T].
    eapply Nat.le_trans; [apply D|apply T].
Qed.

(** The decoded text has at most as many characters as the buffer has
    bytes. *)
Lemma decoded_length : forall raw_data : bytes,
  (List.length (_decode_clipboard_bytes raw_data) <= List.length raw_data)%nat.
Proof.
  intros raw_data. unfold _decode_clipboard_bytes.
  destruct (negb (truthy raw_data)); [simpl; lia|].
  pose proof (decoding_plan_shrinks raw_data) as P.
  destruct (decoding_plan raw_data) as [data encodings]. cbn [fst] in P.
  destruct (first_decoding encodings data) as [decoded|] eqn:E.
  - apply first_decoding_length in E. lia.
  - apply Nat.le_trans with (List.length (Codec.utf8_ignore data)).
    + apply drop_nul_shrinks.
    + unfold Codec.utf8_ignore.
      destruct (Codec.utf8_from false 0 (List.map Byte.to_N data))
        as [s|] eqn:F; [|simpl; lia].
      apply utf8_from_length in F. rewrite length_map in F. lia.
Qed.

(** ** When reading the markup payload returns *)

Lemma int_of_bytes_returns : forall digits : bytes,
  (List.length digits <= 4300)%nat ->
  int_of_bytes digits = Some (digits_value digits).
Proof.
  intros digits H. unfold int_of_bytes, MAX_STR_DIGITS, len.
  replace (4300 <? Z.of_nat (List.length digits))%Z with false
    by (symmetry; apply Z.ltb_ge; lia).
  reflexivity.
Qed.


Lemma header_digits_length : forall name (compact digits : bytes),
  header_digits name compact = Some digits ->
  (List.length digits <= List.length compact)%nat.
Proof.
  intros name compact digits. unfold header_digits.
  destruct (search (header_re name) compact) as [m|]; [|discriminate].
  intros E. injection E as <-. apply group_length.
Qed.

Lemma html_bytes_returns : forall compact : bytes,
  (List.length compact <= 4300)%nat ->
  exists html_bytes,
    html_bytes_of compact = Returns html_bytes
    /\ (List.length html_bytes <= List.length compact)%nat.
Proof.
  intros compact H. unfold html_bytes_of.
  destruct (header_digits "StartHTML:" compact) as [d1|] eqn:E1; [|eauto].
  destruct (header_digits "EndHTML:" compact) as [d2|] eqn:E2; [|eauto].
  apply header_digits_length in E1, E2.
  rewrite (int_of_bytes_returns d1), (int_of_bytes_returns d2) by lia.
  destruct (in_bounds _ _ _); [|eauto].
  eexists. split; [reflexivity|]. apply slice_length.
Qed.

Lemma fragment_bytes_returns : forall compact html_bytes : bytes,
  (List.length compact <= 4300)%nat ->
  exists fragment_bytes,
    fragment_bytes_of compact html_bytes = Returns fragment_bytes.
Proof.
  intros compact html_bytes H. unfold fragment_bytes_of.
  destruct (header_digits "StartFragment:" compact) as [d1|] eqn:E1;
    [|cbv zeta; destruct (_ && _); eauto].
  destruct (header_digits "EndFragment:" compact) as [d2|] eqn:E2;
    [|cbv zeta; destruct (_ && _); eauto].
  apply header_digits_length in E1, E2.
  rewrite (int_of_bytes_returns d1), (int_of_bytes_returns d2) by lia.
  destruct (in_bounds _ _ _); eauto.
Qed.

Section ReadReturns.
Context {U : Unicode}.

Lemma payload_of_ranges_returns : forall raw_data html_bytes fragment_bytes,
  (List.length raw_data <= 4300)%nat ->
  (List.length html_bytes <= 4300)%nat ->
  exists payload,
    payload_of_ranges raw_data html_bytes fragment_bytes
    = Returns (Some payload)
    /\ (List.length (html_text payload) <= 4300)%nat.
Proof.
  intros raw_data html_bytes fragment_bytes Hr Hh.
  unfold payload_of_ranges. cbv zeta.
  destruct (truthy (_decode_clipboard_bytes fragment_bytes)).
  - eexists. split; [reflexivity|]. cbn [payload_of html_text].
    eapply Nat.le_trans; [apply decoded_length|exact Hh].
  - assert (D : (List.length (_decode_clipboard_bytes raw_data) <= 4300)%nat)
      by (eapply Nat.le_trans; [apply decoded_length|exact Hr]).
    destruct (extract_fragment_returns _ D) as [part E]. rewrite E.
    eexists. split; [reflexivity|]. exact D.
Qed.

(** Reading a markup payload of at most 4300 bytes returns. *)
Lemma read_fragment_returns : forall raw_data : bytes,
  (List.length raw_data <= 4300)%nat ->
  exists r,
    _read_clipboard_html_fragment (Some raw_data) = Returns r
    /\ forall payload, r = Some payload ->
         (List.length (html_text payload) <= 4300)%nat.
Proof.
  intros raw_data H. unfold _read_clipboard_html_fragment.
  destruct (negb (truthy raw_data)).
  { exists None. split; [reflexivity|discriminate]. }
  cbv zeta.
  assert (C : (List.length (sub trailing_nul_re [] raw_data) <= 4300)%nat)
    by (eapply Nat.le_trans; [apply sub_shrinks|exact H]).
  destruct (html_bytes_returns _ C) as [html_bytes [E1 L1]]. rewrite E1.
  destruct (fragment_bytes_returns _ html_bytes C) as [fragment_bytes E2].
  rewrite E2.
  destruct (payload_of_ranges_returns raw_data html_bytes fragment_bytes H)
    as [payload [E3 L3]]; [lia|].
  exists (Some payload). split; [exact E3|].
  intros p R. injection R as <-. exact L3.
Qed.

Lemma candidates_return : forall payload : html_payload,
  (List.length (html_text payload) <= 4300)%nat ->
  exists candidates, fragment_candidates_of payload = Returns candidates.
Proof.
  intros payload H. unfold fragment_candidates_of. cbv zeta.
  destruct (extract_fragment_returns _ H) as [part E]. rewrite E. eauto.
Qed.
End ReadReturns.

Section CaptureReturns.
Context {U : Unicode} {L : Library}.

(** The markup capture is read without an exception when there is no markup
    payload or the payload has at most 4300 bytes. *)
Lemma html_capture_returns : forall (cb : clipboard) canonical_plain_text,
  (forall raw_data, html_format_bytes cb = Some raw_data ->
     (List.length raw_data <= 4300)%nat) ->
  exists html_capture,
    html_capture_of cb canonical_plain_text = Returns html_capture.
Proof.
  intros cb canonical_plain_text H. unfold html_capture_of.
  destruct (html_format_bytes cb) as [raw_data|].
  - destruct (read_fragment_returns raw_data (H raw_data eq_refl))
      as [r [E Hl]].
    rewrite E. destruct r as [payload|]; [|eauto].
    destruct (candidates_return payload (Hl payload eq_refl)) as [cs C].
    rewrite C. eauto.
  - cbn [_read_clipboard_html_fragment]. eauto.
Qed.
End CaptureReturns.

(** ** Markup fragment extractor *)

Lemma fragment_bytes_without_offsets : forall compact html_bytes,
  header_digits "StartFragment:" compact = None
  \/ header_digits "EndFragment:" compact = None ->
  fragment_bytes_of compact html_bytes
  = Returns match between_markers html_bytes with
            | Some part => part
            | None => html_bytes
            end.
Proof.
  intros compact html_bytes H. unfold fragment_bytes_of, between_markers.
  cbv zeta.
  destruct (header_digits "StartFragment:" compact) as [s|],
           (header_digits "EndFragment:" compact) as [e|];
    try (destruct H; discriminate);
    match goal with |- context [if ?c then _ else _] => destruct c end;
    reflexivity.
Qed.

Section FragmentProperties.
Context {U : Unicode}.

End FragmentProperties.



(** On the crossed payload the reconciler still gets the text between the
    markers, as a second candidate taken from the decoded markup. *)
Example crossed_offsets_candidates :
  match _read_clipboard_html_fragment (U := BasicLatin)
          (Some crossed_offsets_payload) with
  | Returns (Some payload) =>
      fragment_candidates_of (U := BasicLatin) payload
      = Returns
          [u "StartFragment:9EndFragment:5<!--StartFragment-->X<!--EndFragment-->";
           u "X"]
  | _ => False
  end.
Proof. vm_compute. reflexivity. Qed.

(** When the full markup range decodes to the empty text, the fragment is
    what the text extractor finds in the decoded payload: here the text
    between the comment markers, although the offsets are invalid. *)
Example hollow_markup_takes_marker_text :
  header_digits "StartFragment:" hollow_markup_payload = Some (b "9")
  /\ header_digits "EndFragment:" hollow_markup_payload = Some (b "5")
  /\ html_bytes_of hollow_markup_payload = Returns [x00; x00]
  /\ _decode_clipboard_bytes [x00; x00] = []
  /\ match _read_clipboard_html_fragment (U := BasicLatin)
             (Some hollow_markup_payload) with
     | Returns (Some payload) => fragment payload = u "X"
     | _ => False
     end.
Proof.
  split; [vm_compute; reflexivity|]. split; [vm_compute; reflexivity|].
  split; [vm_compute; reflexivity|]. split; [vm_compute; reflexivity|].
  vm_compute. reflexivity.
Qed.

(** An offset header of 4301 digits makes the extraction raise. *)
Example oversized_offset_raises :
  _read_clipboard_html_fragment (U := BasicLatin)
    (Some oversized_offset_payload) = Raises.
Proof. vm_compute. reflexivity. Qed.

(** ** Style predicate and style map builder *)
Section StyleProperties.
Context {U : Unicode}.
Import ClipboardHtmlRunParser.

(** A reference to [--w] resolves through the variable table. *)
Lemma resolve_var_w : forall css_vars : dict str,
  dict_get css_vars (u "--w") = Some (u "700") ->
  _resolve_css_value (u "var(--w)") css_vars = u "700".
Proof.
  intros css_vars H. unfold _resolve_css_value.
  change (resolve_css_value 7 (u "var(--w)") css_vars)
    with (let resolved :=
            if truthy css_vars then dict_get_str css_vars (u "--w") else [] in
          let resolved := if negb (truthy resolved) then [] else resolved in
          resolve_css_value 6 resolved css_vars).
  cbv zeta. unfold dict_get_str. rewrite H.
  destruct css_vars as [|kv rest]; [discriminate H|].
  simpl truthy. cbv iota. vm_compute. reflexivity.
Qed.

(** C7.  The style map builder reads the declaration [--w: 700;] of a style
    block into the variable table as [--w] with the value [700]; and with
    any variable table that maps [--w] to [700], the style predicate
    classifies [font-weight: var(--w)] as bold-implying, resolving the
    reference through the table. *)
Theorem css_variable_weight_implies_bold :
  dict_get (sm_css_vars (_extract_html_style_maps
                           (u "<style>:root{--w: 700;}</style>")))
           (u "--w") = Some (u "700")
  /\ forall css_vars : dict str,
       dict_get css_vars (u "--w") = Some (u "700") ->
       _resolve_css_value (u "var(--w)") css_vars = u "700"
       /\ _style_implies_bold (u "font-weight: var(--w)") css_vars = true.
Proof.
  split; [vm_compute; reflexivity|].
  intros css_vars H. split; [apply resolve_var_w; exact H|].
  unfold _style_implies_bold.
  simpl truthy. cbv beta iota zeta. simpl negb. cbv iota.
  change (casefold (u "font-weight: var(--w)")) with (u "font-weight: var(--w)").
  replace (search (property_re "font") (u "font-weight: var(--w)"))
    with (@None rmatch) by (vm_compute; reflexivity).
  cbv iota.
  replace (search (property_re "font-weight") (u "font-weight: var(--w)"))
    with (Some {| m_start := 0; m_end := 21; m_caps := [(1, (13, 21))]%nat |})
    by (vm_compute; reflexivity).
  cbv iota.
  change (group_ (u "font-weight: var(--w)")
            {| m_start := 0; m_end := 21; m_caps := [(1, (13, 21))]%nat |} 1)
    with (u "var(--w)").
  rewrite (resolve_var_w css_vars H).
  vm_compute. reflexivity.
Qed.
End StyleProperties.

Lemma css_variable_weight_witness :
  dict_get (sm_css_vars (_extract_html_style_maps (U := BasicLatin)
                           (u "<style>:root{--w: 700;}</style>")))
           (u "--w") = Some (u "700")
  /\ ClipboardHtmlRunParser._style_implies_bold (U := BasicLatin)
       (u "font-weight: var(--w)")
       (sm_css_vars (_extract_html_style_maps (U := BasicLatin)
                       (u "<style>:root{--w: 700;}</style>")))
     = true.
Proof.
  assert (H : dict_get
                (sm_css_vars (_extract_html_style_maps (U := BasicLatin)
                                (u "<style>:root{--w: 700;}</style>")))
                (u "--w") = Some (u "700")) by (vm_compute; reflexivity).
  split; [exact H|].
  exact (proj2 (proj2 (css_variable_weight_implies_bold (U := BasicLatin))
                  _ H)).
Defined.

(** ** Capture reconciler *)

Section ReconcilerProperties.
Context {U : Unicode} {L : Library}.

Lemma read_text_truthy : forall cb t,
  _read_clipboard_text cb = Some t -> truthy t = true.
Proof.
  intros cb t. unfold _read_clipboard_text.
  destruct (clipboard_get cb) as [raw|]; [|discriminate].
  cbv zeta. destruct (truthy (strip (_normalize_captured_text raw))) eqn:E;
    [|discriminate].
  intros H. injection H as <-. exact E.
Qed.

(** The detail ends with the names of the first six formats seen, or with
    [none]. *)
Lemma fallback_detail_names : forall names : list str,
  exists lead,
    fallback_detail names
    = lead ++ (if truthy names then join (u ", ") (firstn 6 names)
               else u "none").
Proof.
  intros names. unfold fallback_detail. cbv zeta.
  match goal with |- context [if ?c then _ ++ _ else _] => destruct c end;
    eexists; reflexivity.
Qed.

(** The test of the code for a bold run finds one exactly when there is
    one. *)
Lemma has_bold_run_spec : forall rs : list run,
  has_bold_run rs = true <-> exists t, In (t, true) rs.
Proof.
  intros rs. unfold has_bold_run. rewrite existsb_exists. split.
  - intros [[t b0] [Hin Hb]]. cbn [snd] in Hb. subst b0. exists t. exact Hin.
  - intros [t Hin]. exists (t, true). split; [exact Hin|reflexivity].
Qed.

Lemma bold_capture_spec : forall c : capture,
  bold_capture (Some c) <-> has_bold_run (runs c) = true.
Proof.
  intros c. rewrite has_bold_run_spec. unfold bold_capture. split.
  - intros [x [E Hx]]. injection E as <-. exact Hx.
  - intros Hx. exists c. split; [reflexivity|exact Hx].
Qed.

Lemma no_bold_capture : ~ bold_capture None.
Proof. intros [x [E _]]. discriminate. Qed.

(** The choice among the captures read follows the priority order. *)
Lemma choose_capture_priority : forall cb plain_text html_capture rtf_capture,
  (forall t, plain_text = Some t -> truthy t = true) ->
  chosen_by_priority html_capture rtf_capture
    (option_map (plain_capture (available_format_names cb)) plain_text)
    (choose_capture cb plain_text html_capture rtf_capture).
Proof.
  intros cb plain_text html_capture rtf_capture Ht.
  unfold chosen_by_priority, choose_capture.
  destruct html_capture as [h|].
  - destruct (has_bold_run (runs h)) eqn:Bh.
    + assert (B : bold_capture (Some h)) by (apply bold_capture_spec; exact Bh).
      repeat split; try reflexivity; try discriminate; intros N; contradiction.
    + assert (B : ~ bold_capture (Some h)).
      { intros B. apply bold_capture_spec in B. congruence. }
      destruct rtf_capture as [r|].
      * destruct (has_bold_run (runs r)) eqn:Br.
        -- assert (B' : bold_capture (Some r))
             by (apply bold_capture_spec; exact Br).
           repeat split; try reflexivity; try discriminate;
             intros; contradiction.
        -- assert (B' : ~ bold_capture (Some r)).
           { intros B'. apply bold_capture_spec in B'. congruence. }
           repeat split; try reflexivity; try discriminate;
             intros; contradiction.
      * repeat split; try reflexivity; try discriminate;
          intros; try contradiction.
        exfalso. exact (no_bold_capture ltac:(assumption)).
  - destruct rtf_capture as [r|].
    + repeat split; try reflexivity; try discriminate;
        intros; try congruence;
        exfalso; exact (no_bold_capture ltac:(assumption)).
    + repeat split; try reflexivity; try discriminate;
        intros; try congruence;
        try (exfalso; exact (no_bold_capture ltac:(assumption))).
      destruct plain_text as [t|]; [|reflexivity].
      rewrite (Ht t eq_refl). reflexivity.
Qed.

(** C1, as the code has it.  Reading the markup capture raises on some
    clipboard states, and then the reconciler raises.  When it returns, the
    reconciler returns the capture that the priority order chooses: the
    markup capture if it has a bold run, else the legacy rich-text capture
    if it has a bold run, else the markup capture, else the legacy rich-text
    capture, else, when plain text exists, the plain-text fallback, a single
    non-bold run over the plain text whose detail string ends with the first
    six of the raw format names seen on the clipboard (or [none]); and
    [None] when none of these is there.  It returns whenever the clipboard
    has no markup payload or one of at most 4300 bytes; in particular an
    empty clipboard gives [None], not an error. *)
Theorem capture_selection_order : forall cb : clipboard,
  let plain_text := _read_clipboard_text cb in
  let canonical_plain_text := _canonical_capture_text plain_text in
  let rtf_capture := rtf_capture_of cb in
  let fallback :=
    option_map (plain_capture (available_format_names cb)) plain_text in
  (html_capture_of cb canonical_plain_text = Raises ->
   _read_clipboard_capture cb = Raises)
  /\ (forall html_capture,
        html_capture_of cb canonical_plain_text = Returns html_capture ->
        exists chosen,
          _read_clipboard_capture cb = Returns chosen
          /\ chosen_by_priority html_capture rtf_capture fallback chosen)
  /\ ((forall raw_data, html_format_bytes cb = Some raw_data ->
         (len raw_data <= 4300)%Z) ->
      exists html_capture,
        html_capture_of cb canonical_plain_text = Returns html_capture)
  /\ (forall names t,
        runs (plain_capture names t) = [(t, false)]
        /\ text (plain_capture names t) = t
        /\ source (plain_capture names t) = SourceText
        /\ exists lead,
             detail (plain_capture names t)
             = Some (lead ++ (if truthy names
                              then join (u ", ") (firstn 6 names)
                              else u "none")))
  /\ (clipboard_get cb = None -> html_format_bytes cb = None ->
      rtf_format_bytes cb = None ->
      _read_clipboard_capture cb = Returns None).
Proof.
  intros cb plain_text canonical_plain_text rtf_capture fallback.
  assert (E : _read_clipboard_capture cb
              = match html_capture_of cb canonical_plain_text with
                | Raises => Raises
                | Returns html_capture =>
                    Returns (choose_capture cb plain_text html_capture
                                            rtf_capture)
                end) by reflexivity.
  split; [intros R; rewrite E, R; reflexivity|]. split.
  { intros html_capture R. rewrite E, R. eexists. split; [reflexivity|].
    apply choose_capture_priority. intros t. apply read_text_truthy. }
  split.
  { intros H. apply html_capture_returns. intros raw_data R.
    specialize (H raw_data R). unfold len in H. lia. }
  split.
  - intros names t. repeat split.
    destruct (fallback_detail_names names) as [lead D].
    exists lead. simpl. rewrite D. reflexivity.
  - intros H1 H2 H3. rewrite E.
    assert (P : plain_text = None).
    { unfold plain_text, _read_clipboard_text. rewrite H1. reflexivity. }
    assert (Hh : html_capture_of cb canonical_plain_text = Returns None).
    { unfold html_capture_of. rewrite H2. reflexivity. }
    assert (Hr : rtf_capture = None).
    { unfold rtf_capture, rtf_capture_of. rewrite H3. reflexivity. }
    rewrite Hh, P, Hr. reflexivity.
Qed.
End ReconcilerProperties.

Lemma capture_selection_witness :
  (clipboard_get empty_clipboard = None
   /\ html_format_bytes empty_clipboard = None
   /\ rtf_format_bytes empty_clipboard = None)
  /\ _read_clipboard_capture (U := BasicLatin) (L := ExampleLibrary)
       empty_clipboard = Returns None.
Proof.
  split; [repeat split|].
  exact (proj2 (proj2 (proj2 (proj2
           (capture_selection_order (U := BasicLatin) (L := ExampleLibrary)
              empty_clipboard))))
           eq_refl eq_refl eq_refl).
Defined.

(** With seven format names on the clipboard the detail of the fallback
    names six of them: the seventh is seen and not named.  And on a
    clipboard that holds a plain text and a markup payload whose offset
    header has 4301 digits, the reconciler raises. *)
Lemma seventh_format_unnamed_and_oversized_offset_raises :
  In (u "F7") (available_format_names seven_format_clipboard)
  /\ match _read_clipboard_capture (U := BasicLatin) (L := ExampleLibrary)
             seven_format_clipboard with
     | Returns (Some c) =>
         detail c
         = Some (u "ingen html/rtf format i clipboard. formater: F1, F2, F3, F4, F5, F6")
         /\ match detail c with
            | Some d => contains N.eqb (u "F7") d = false
            | None => False
            end
     | _ => False
     end
  /\ _read_clipboard_text oversized_offset_clipboard = Some (u "note")
  /\ header_digits "StartFragment:" oversized_offset_payload
     = Some (List.repeat "9"%byte 4301)
  /\ _read_clipboard_capture (U := BasicLatin) (L := ExampleLibrary)
       oversized_offset_clipboard = Raises.
Proof.
  split; [vm_compute; tauto|].
  split; [vm_compute; split; reflexivity|].
  split; [vm_compute; reflexivity|]. split; vm_compute; reflexivity.
Qed.

Example hello_selects_markup :
  match _read_clipboard_capture (U := BasicLatin) (L := ExampleLibrary)
          hello_clipboard with
  | Returns (Some c) =>
      source c = SourceHtml
      /\ runs c = [(u "Hello", true); (u " world", false)]
  | _ => False
  end
  /\ option_map runs (rtf_capture_of (U := BasicLatin) hello_clipboard)
     = Some [(u "Hello world", false)].
Proof. split; vm_compute; [split; reflexivity|reflexivity]. Qed.

(** With plain text only, the fallback names the formats. *)
Example plain_only_fallback :
  match _read_clipboard_capture (U := BasicLatin) (L := ExampleLibrary)
          {| clipboard_get := Some (u " note ");
             html_format_bytes := None; rtf_format_bytes := None;
             available_format_names := [u "CF_UNICODETEXT"; u "CF_TEXT"] |}
  with
  | Returns (Some c) =>
      runs c = [(u "note", false)]
      /\ detail c
         = Some (u "ingen html/rtf format i clipboard. formater: CF_UNICODETEXT, CF_TEXT")
  | _ => False
  end.
Proof. vm_compute. split; reflexivity. Qed.

Section CanonicalText.
(** ** Plain text that exists has a non-empty canonical form *)

#[local] Arguments N.eqb : simpl never.

Lemma lstrip_by_snoc : forall (p : char -> bool) (l : str) (c : char),
  p c = false -> lstrip_by p (l ++ [c]) = lstrip_by p l ++ [c].
Proof.
  intros p l c Hc. induction l as [|x l IH]; simpl.
  - rewrite Hc. reflexivity.
  - destruct (p x); [exact IH|reflexivity].
Qed.

Lemma rstrip_solid : forall (c : char) (r : str),
  isspace c = false -> exists r', rstrip (c :: r) = c :: r'.
Proof.
  intros c r Hc. unfold rstrip, rstrip_by. simpl rev.
  rewrite (lstrip_by_snoc isspace (rev r) c Hc).
  rewrite rev_app_distr. simpl. eauto.
Qed.

Lemma lstrip_head : forall (s : str) (c : char) (r : str),
  lstrip s = c :: r -> isspace c = false.
Proof.
  unfold lstrip. induction s as [|x s IH]; intros c r H; simpl in H.
  - discriminate.
  - destruct (isspace x) eqn:E; [eauto|]. injection H as <- _. exact E.
Qed.

Lemma strip_solid : forall s, strip s <> [] -> starts_solid (strip s).
Proof.
  intros s Hne. unfold strip in *.
  destruct (lstrip s) as [|c r] eqn:E.
  - exfalso. apply Hne. reflexivity.
  - pose proof (lstrip_head s c r E) as Hc.
    destruct (rstrip_solid c r Hc) as [r' E']. rewrite E'.
    exists c, r'. auto.
Qed.

Lemma strip_of_solid : forall s, starts_solid s -> starts_solid (strip s).
Proof.
  intros s [c [r [-> Hc]]]. unfold strip, lstrip. simpl. rewrite Hc.
  destruct (rstrip_solid c r Hc) as [r' E]. rewrite E. exists c, r'. auto.
Qed.

Lemma replace_solid : forall (o : char) (old new s : str),
  isspace o = true -> starts_solid s ->
  starts_solid (replace N.eqb (o :: old) new s).
Proof.
  intros o old new s Ho [c [r [-> Hc]]]. unfold replace. simpl.
  destruct (N.eqb_spec o c) as [E|E]; [congruence|]. simpl.
  exists c. eexists. split; [reflexivity|exact Hc].
Qed.

Lemma replace_bullet_solid : forall s,
  starts_solid s -> starts_solid (replace N.eqb [8226%N] (u "-") s).
Proof.
  intros s [c [r [-> Hc]]]. unfold replace.
  change (replace_from N.eqb [8226%N] (u "-") 0 (c :: r))
    with (if startswith N.eqb [8226%N] (c :: r)
          then u "-" ++ replace_from N.eqb [8226%N] (u "-") 0 r
          else c :: replace_from N.eqb [8226%N] (u "-") 0 r).
  destruct (startswith N.eqb [8226%N] (c :: r)).
  - eexists. eexists. split; [reflexivity|reflexivity].
  - exists c. eexists. split; [reflexivity|exact Hc].
Qed.

Lemma sub_solid : forall (r : re char) (repl s : str),
  (forall (c : char) (t : str) p pv,
      isspace c = false -> match_at r p pv (c :: t) = None) ->
  starts_solid s -> starts_solid (sub r repl s).
Proof.
  intros r repl s Hr [c [t [-> Hc]]]. unfold sub. simpl.
  rewrite (Hr c t 0%nat None Hc).
  exists c. eexists. split; [reflexivity|exact Hc].
Qed.

Lemma solid_not_blank : forall c, isspace c = false -> blank c = false.
Proof.
  intros c Hc. unfold blank.
  destruct (N.eqb_spec c SPACE) as [->|_]; [discriminate Hc|].
  destruct (N.eqb_spec c TAB) as [->|_]; [discriminate Hc|]. reflexivity.
Qed.

Lemma not_newline : forall c, isspace c = false -> N.eqb LF c = false.
Proof.
  intros c Hc. destruct (N.eqb_spec LF c) as [<-|_]; [discriminate Hc|].
  reflexivity.
Qed.

Lemma multispace_needs_blank : forall (c : char) (t : str) p pv,
  isspace c = false -> match_at MULTISPACE_PATTERN p pv (c :: t) = None.
Proof.
  intros c t p pv Hc. unfold match_at, MULTISPACE_PATTERN, at_least. simpl.
  rewrite (solid_not_blank c Hc). reflexivity.
Qed.

Lemma bullet_line_needs_newline : forall (c : char) (t : str) p pv,
  isspace c = false -> match_at bullet_line_re p pv (c :: t) = None.
Proof.
  intros c t p pv Hc. unfold match_at, bullet_line_re. simpl.
  unfold chr. simpl. rewrite (not_newline c Hc). reflexivity.
Qed.

Lemma whitespace_needs_space : forall (c : char) (t : str) p pv,
  isspace c = false -> match_at whitespace_re p pv (c :: t) = None.
Proof.
  intros c t p pv Hc. unfold match_at, whitespace_re, plus, ws. simpl.
  rewrite Hc. reflexivity.
Qed.

Lemma split1_head : forall (c : char) (r : str),
  N.eqb c LF = false ->
  exists l ls, split1 N.eqb LF (c :: r) = (c :: l) :: ls.
Proof.
  intros c r Hc. simpl. rewrite Hc.
  destruct (split1 N.eqb LF r); eauto.
Qed.

Lemma join_head : forall (sep : str) (c : char) (l : str) (ls : list str),
  exists r, join sep ((c :: l) :: ls) = c :: r.
Proof.
  intros sep c l ls. destruct ls; simpl; eauto.
Qed.

Lemma normalize_text_solid : forall s,
  starts_solid s -> starts_solid (_normalize_captured_text s).
Proof.
  intros s Hs. unfold _normalize_captured_text. cbv zeta.
  remember (replace N.eqb [8239%N] [SPACE]
              (replace N.eqb [160%N] [SPACE]
                 (replace N.eqb [CR] [LF]
                    (replace N.eqb [CR; LF] [LF] s)))) as x eqn:Ex.
  assert (H : starts_solid x).
  { rewrite Ex. repeat (apply replace_solid; [reflexivity|]). exact Hs. }
  destruct H as [c [r [-> Hc]]].
  assert (Hn : N.eqb c LF = false).
  { rewrite N.eqb_sym. apply not_newline. exact Hc. }
  destruct (split1_head c r Hn) as [l [ls ->]].
  simpl List.map.
  destruct (sub_solid MULTISPACE_PATTERN [SPACE] (c :: l)
              multispace_needs_blank) as [c' [l' [E Hc']]].
  { exists c, l. auto. }
  rewrite E. destruct (join_head [LF] c' l'
                         (List.map (sub MULTISPACE_PATTERN [SPACE]) ls))
    as [r' ->].
  exists c', r'. auto.
Qed.

Section CanonicalCase.
Context {U : Unicode}.

Lemma casefold_solid : forall s, s <> [] -> casefold s <> [].
Proof.
  intros [|c r] H; [congruence|]. unfold casefold. simpl.
  unfold casefold_char. destruct (is_ascii c).
  - discriminate.
  - intros E. apply app_eq_nil in E. destruct E as [E _].
    exact (uni_casefold_nonempty c E).
Qed.

Lemma canonical_of_solid : forall t,
  starts_solid t -> _canonical_capture_text (Some t) <> [].
Proof.
  intros t Ht. unfold _canonical_capture_text.
  destruct Ht as [c [r [-> Hc]]]. simpl truthy. simpl negb. cbv iota zeta.
  apply casefold_solid.
  remember (strip (sub whitespace_re [SPACE]
                     (sub bullet_line_re [LF]
                        (replace N.eqb [8226%N] (u "-")
                           (_normalize_captured_text (c :: r)))))) as x eqn:Ex.
  assert (H : starts_solid x).
  { rewrite Ex. apply strip_of_solid.
    apply sub_solid; [exact whitespace_needs_space|].
    apply sub_solid; [exact bullet_line_needs_newline|].
    apply replace_bullet_solid. apply normalize_text_solid.
    exists c, r. auto. }
  destruct H as [c' [r' [-> _]]]. discriminate.
Qed.

(** The canonical plain text is empty exactly when there is no plain text. *)
Lemma canonical_plain_empty : forall cb : clipboard,
  _canonical_capture_text (_read_clipboard_text cb) = []
  <-> _read_clipboard_text cb = None.
Proof.
  intros cb. split.
  - destruct (_read_clipboard_text cb) as [t|] eqn:E; [|reflexivity].
    intros H. exfalso. revert H. apply canonical_of_solid.
    unfold _read_clipboard_text in E.
    destruct (clipboard_get cb) as [raw|]; [|discriminate].
    cbv zeta in E.
    destruct (truthy (strip (_normalize_captured_text raw))) eqn:T;
      [|discriminate].
    injection E as <-. apply strip_solid.
    intros Z. rewrite Z in T. discriminate.
  - intros ->. reflexivity.
Qed.
End CanonicalCase.
End CanonicalText.

(** ** The scoring tuple and its order *)

Ltac split_compare :=
  repeat match goal with
    | H : context [(?x ?= ?y)%Z] |- _ => destruct (Z.compare_spec x y)
    | |- context [(?x ?= ?y)%Z] => destruct (Z.compare_spec x y)
    | H : context [(?x ?= ?y)%Q] |- _ => destruct (Qcompare_spec x y)
    | |- context [(?x ?= ?y)%Q] => destruct (Qcompare_spec x y)
    end.

Lemma score_gt_irrefl : forall s, score_gt s s = false.
Proof.
  intros [[[a1 a2] a3] a4]. unfold score_gt.
  split_compare; try reflexivity; try lia; exfalso; lra.
Qed.

Lemma score_gt_le_trans : forall a b c : score,
  score_gt a b = false -> score_gt c b = true -> score_gt a c = false.
Proof.
  intros [[[a1 a2] a3] a4] [[[b1 b2] b3] b4] [[[c1 c2] c3] c4].
  unfold score_gt. intros H1 H2.
  split_compare; try reflexivity; try discriminate; try lia; exfalso; lra.
Qed.

(** The count of bold characters that the code takes is positive exactly
    when a bold run holds a character. *)
Lemma bold_chars_from : forall (rs : list run) (acc : Z),
  let total :=
    List.fold_left
      (fun (acc : Z) (r : run) =>
         if snd r then (acc + len (fst r))%Z else acc) rs acc in
  (acc <= total)%Z
  /\ (acc <? total)%Z = existsb bold_character_run rs.
Proof.
  induction rs as [|[t b0] rest IH]; intros acc; cbn [List.fold_left].
  - cbv zeta. split; [lia|]. rewrite Z.ltb_irrefl. reflexivity.
  - cbv zeta. cbn [fst snd existsb].
    destruct b0.
    + destruct (IH (acc + len t)%Z) as [Hle Hlt]. cbv zeta in Hle, Hlt.
      destruct t as [|c t'].
      * change (len (@nil char)) with 0%Z in *.
        rewrite Z.add_0_r in *. cbn [bold_character_run orb].
        split; assumption.
      * assert (P : (0 < len (c :: t'))%Z) by (unfold len; simpl; lia).
        cbn [bold_character_run orb]. split; [lia|].
        apply Z.ltb_lt. lia.
    + destruct (IH acc) as [Hle Hlt]. cbv zeta in Hle, Hlt.
      replace (bold_character_run (t, false)) with false
        by (destruct t; reflexivity).
      cbn [orb]. split; assumption.
Qed.

Lemma bold_chars_positive : forall rs : list run,
  (0 <? bold_chars rs)%Z = existsb bold_character_run rs.
Proof. intros rs. exact (proj2 (bold_chars_from rs 0%Z)). Qed.

Lemma bold_character_spec : forall rs : list run,
  existsb bold_character_run rs = true <-> has_bold_character rs.
Proof.
  intros rs. rewrite existsb_exists. unfold has_bold_character. split.
  - intros [[t b0] [Hin Hb]]. destruct t as [|c t]; [discriminate|].
    destruct b0; [|discriminate]. exists (c :: t).
    split; [exact Hin|discriminate].
  - intros [t [Hin Hne]]. exists (t, true). split; [exact Hin|].
    destruct t; [congruence|reflexivity].
Qed.

Section ScoringProperties.
Context {U : Unicode} {L : Library}.
Variable payload : html_payload.
Variable canonical_plain_text : str.

(** The first place of the tuple of the specification is 1 when the runs
    have a bold character and 0 when they have none. *)
Lemma spec_score_first : forall rs : list run,
  (has_bold_character rs ->
   fst (fst (fst (spec_score rs canonical_plain_text))) = 1%Z)
  /\ (~ has_bold_character rs ->
      fst (fst (fst (spec_score rs canonical_plain_text))) = 0%Z).
Proof.
  intros rs. unfold spec_score. cbv zeta. cbn [fst].
  pose proof (bold_character_spec rs) as B.
  destruct (existsb bold_character_run rs).
  - split; [reflexivity|]. intros N. exfalso. apply N, B. reflexivity.
  - split; [|reflexivity]. intros P. apply B in P. discriminate.
Qed.

(** A candidate that the loop scores gets the tuple of the specification. *)
Lemma score_candidate_spec : forall candidate rs s similarity,
  score_candidate payload canonical_plain_text candidate
  = Some (rs, s, similarity) ->
  s = spec_score rs canonical_plain_text
  /\ similarity
     = _capture_similarity (_canonical_capture_text (Some (runs_text rs)))
                           canonical_plain_text
  /\ rs <> [].
Proof.
  intros candidate rs s similarity. unfold score_candidate.
  destruct (html_feed candidate) as [events|]; [|discriminate].
  cbv zeta.
  set (parsed := _normalize_captured_runs _).
  destruct (truthy parsed) eqn:T; cbn [negb]; cbv iota; [|discriminate].
  destruct (truthy (runs_text parsed)); cbn [negb]; cbv iota; [|discriminate].
  intros H. injection H as <- <- <-.
  split; [|split; [reflexivity|]].
  - unfold spec_score. rewrite bold_chars_positive. reflexivity.
  - intros E. rewrite E in T. discriminate.
Qed.

Lemma scored_beats_initial : forall candidate rs s similarity,
  score_candidate payload canonical_plain_text candidate
  = Some (rs, s, similarity) ->
  score_gt s (snd (fst best_init)) = true.
Proof.
  intros candidate rs s similarity H.
  destruct (score_candidate_spec _ _ _ _ H) as [-> _].
  unfold spec_score, best_init, score_gt. cbn [fst snd].
  destruct (existsb bold_character_run rs); reflexivity.
Qed.

Lemma consider_best_of : forall seen acc candidate,
  best_of payload canonical_plain_text seen acc ->
  best_of payload canonical_plain_text (seen ++ [candidate])
          (consider payload canonical_plain_text acc candidate).
Proof.
  intros seen [[best_runs best_score] best_similarity] candidate Inv.
  unfold consider.
  destruct (score_candidate payload canonical_plain_text candidate)
    as [[[rs s] similarity]|] eqn:E.
  - simpl fst. simpl snd.
    destruct (score_gt s best_score) eqn:G.
    + simpl. split.
      * exists candidate. split; [apply in_or_app; right; left; reflexivity|].
        exact E.
      * intros cand rs' s' similarity' Hin Hs.
        apply in_app_or in Hin. destruct Hin as [Hin|[<-|[]]].
        -- destruct best_runs as [b0|]; simpl in Inv.
           ++ destruct Inv as [_ Hmax].
              apply (score_gt_le_trans s' best_score s);
                [eapply Hmax; eauto|exact G].
           ++ destruct Inv as [_ Hnone]. rewrite (Hnone cand Hin) in Hs.
              discriminate.
        -- rewrite E in Hs. injection Hs as <- <- <-. apply score_gt_irrefl.
    + destruct best_runs as [b0|]; simpl in *.
      * destruct Inv as [[cand [Hin Hc]] Hmax]. split.
        -- exists cand. split; [apply in_or_app; left; exact Hin|exact Hc].
        -- intros cand' rs' s' similarity' Hin' Hs.
           apply in_app_or in Hin'. destruct Hin' as [Hin'|[<-|[]]].
           ++ eapply Hmax; eauto.
           ++ rewrite E in Hs. injection Hs as <- <- <-. exact G.
      * destruct Inv as [-> _]. exfalso.
        exact (eq_true_false_abs _ (scored_beats_initial _ _ _ _ E) G).
  - destruct best_runs as [b0|]; simpl in *.
    + destruct Inv as [[cand [Hin Hc]] Hmax]. split.
      * exists cand. split; [apply in_or_app; left; exact Hin|exact Hc].
      * intros cand' rs' s' similarity' Hin' Hs.
        apply in_app_or in Hin'. destruct Hin' as [Hin'|[<-|[]]].
        -- eapply Hmax; eauto.
        -- rewrite E in Hs. discriminate.
    + destruct Inv as [-> Hnone]. split; [reflexivity|].
      intros cand Hin. apply in_app_or in Hin.
      destruct Hin as [Hin|[<-|[]]]; [auto|exact E].
Qed.

Lemma fold_best_of : forall candidates seen acc,
  best_of payload canonical_plain_text seen acc ->
  best_of payload canonical_plain_text (seen ++ candidates)
          (List.fold_left (consider payload canonical_plain_text)
                          candidates acc).
Proof.
  induction candidates as [|candidate rest IH]; intros seen acc Inv; simpl.
  - rewrite app_nil_r. exact Inv.
  - replace (seen ++ candidate :: rest) with ((seen ++ [candidate]) ++ rest)
      by (rewrite <- app_assoc; reflexivity).
    apply IH. apply consider_best_of. exact Inv.
Qed.

Lemma best_of_all : forall candidates,
  best_of payload canonical_plain_text candidates
          (List.fold_left (consider payload canonical_plain_text)
                          candidates best_init).
Proof.
  intros candidates.
  apply (fold_best_of candidates [] best_init).
  simpl. split; [reflexivity|]. intros candidate [].
Qed.
End ScoringProperties.

Section MarkupCaptureProperties.
Context {U : Unicode} {L : Library}.

(** C2.  The first place of the tuple is 1 when the runs have a bold
    character and 0 when they have none.  When a markup payload and its
    candidates are there, the markup capture, if one is produced, carries
    the runs of a candidate whose tuple
    [(has a bold character, similarity to the canonical plain text, negated
    absolute length difference, candidate length)] no scored candidate
    exceeds in the lexicographic order, and it is produced only if there is
    no plain text at all or that candidate's similarity is at least 0.28.
    When none is produced, either no candidate could be scored or plain text
    exists and the best candidate's similarity is below 0.28.  Without a
    payload no markup capture is produced, and an exception raised while
    the payload or the candidates are read is raised by the construction of
    the markup capture. *)
Theorem markup_capture_best_scored : forall cb : clipboard,
  let plain_text := _read_clipboard_text cb in
  let canonical_plain_text := _canonical_capture_text plain_text in
  (forall rs : list run,
      (has_bold_character rs ->
       fst (fst (fst (spec_score rs canonical_plain_text))) = 1%Z)
      /\ (~ has_bold_character rs ->
          fst (fst (fst (spec_score rs canonical_plain_text))) = 0%Z))
  /\
  match _read_clipboard_html_fragment (html_format_bytes cb) with
  | Raises => html_capture_of cb canonical_plain_text = Raises
  | Returns None => html_capture_of cb canonical_plain_text = Returns None
  | Returns (Some payload) =>
      match fragment_candidates_of payload with
      | Raises => html_capture_of cb canonical_plain_text = Raises
      | Returns candidates =>
          let similarity_of (rs : list run) :=
            _capture_similarity
              (_canonical_capture_text (Some (runs_text rs)))
              canonical_plain_text in
          let best_among (rs : list run) :=
            (exists candidate,
                In candidate candidates
                /\ score_candidate payload canonical_plain_text candidate
                   = Some (rs, spec_score rs canonical_plain_text,
                           similarity_of rs))
            /\ (forall candidate rs' s' similarity',
                  In candidate candidates ->
                  score_candidate payload canonical_plain_text candidate
                  = Some (rs', s', similarity') ->
                  score_gt s' (spec_score rs canonical_plain_text) = false) in
          match html_capture_of cb canonical_plain_text with
          | Returns (Some c) =>
              source c = SourceHtml
              /\ text c = runs_text (runs c)
              /\ best_among (runs c)
              /\ (plain_text = None
                  \/ (ACCEPT_SIMILARITY <= similarity_of (runs c))%Q)
          | Returns None =>
              (forall candidate,
                  In candidate candidates ->
                  score_candidate payload canonical_plain_text candidate
                  = None)
              \/ (exists rs,
                     best_among rs
                     /\ plain_text <> None
                     /\ (similarity_of rs < ACCEPT_SIMILARITY)%Q)
          | Raises => False
          end
      end
  end.
Proof.
  intros cb plain_text canonical_plain_text.
  split; [apply spec_score_first|].
  unfold html_capture_of.
  destruct (_read_clipboard_html_fragment (html_format_bytes cb))
    as [[payload|]|]; [|reflexivity|reflexivity].
  destruct (fragment_candidates_of payload) as [candidates|]; [|reflexivity].
  cbv beta iota zeta. unfold capture_of_candidates.
  pose (similarity_of := fun rs : list run =>
          _capture_similarity (_canonical_capture_text (Some (runs_text rs)))
                              canonical_plain_text).
  pose (best_among := fun rs : list run =>
          (exists candidate,
              In candidate candidates
              /\ score_candidate payload canonical_plain_text candidate
                 = Some (rs, spec_score rs canonical_plain_text,
                         similarity_of rs))
          /\ (forall candidate rs' s' similarity',
                In candidate candidates ->
                score_candidate payload canonical_plain_text candidate
                = Some (rs', s', similarity') ->
                score_gt s' (spec_score rs canonical_plain_text) = false)).
  pose proof (best_of_all payload canonical_plain_text candidates) as Inv.
  destruct (fold_left (consider payload canonical_plain_text) candidates
                      best_init) as [[best_runs best_score] best_similarity].
  destruct best_runs as [rs|]; cbn [best_of] in Inv.
  - destruct Inv as [[candidate [Hin Hs]] Hmax].
    destruct (score_candidate_spec _ _ _ _ _ _ Hs) as [Es [Esim Hne]].
    subst best_score. subst best_similarity.
    assert (B : best_among rs).
    { split; [exists candidate; split; assumption|exact Hmax]. }
    assert (T : truthy rs = true) by (destruct rs; [congruence|reflexivity]).
    rewrite T. cbn [andb].
    destruct (negb (truthy canonical_plain_text)) eqn:P; cbn [orb].
    + split; [reflexivity|]. split; [reflexivity|]. split; [exact B|].
      left. apply canonical_plain_empty. fold plain_text.
      fold canonical_plain_text.
      destruct canonical_plain_text; [reflexivity|discriminate P].
    + fold (similarity_of rs).
      destruct (Qle_bool ACCEPT_SIMILARITY (similarity_of rs)) eqn:Q.
      * split; [reflexivity|]. split; [reflexivity|]. split; [exact B|].
        right. apply Qle_bool_iff. exact Q.
      * right. exists rs. split; [exact B|]. split.
        -- intros N. unfold canonical_plain_text in P. rewrite N in P.
           discriminate P.
        -- apply Qnot_le_lt. intros Hle. apply Qle_bool_iff in Hle.
           exact (eq_true_false_abs _ Hle Q).
  - left. exact (proj2 Inv).
Qed.
End MarkupCaptureProperties.

(** * Further properties *)

(** ** The streaming merge of both parsers *)

Lemma append_run_head_bold : forall (r : run) (rest : list run) text0 is_bold,
  exists t rest', append_run (r :: rest) text0 is_bold = (t, snd r) :: rest'.
Proof.
  intros [p b0] rest text0 is_bold. destruct rest as [|r2 rest].
  - simpl. destruct (Bool.eqb b0 is_bold) eqn:E.
    + apply eqb_prop in E. subst. eauto.
    + eauto.
  - change (append_run ((p, b0) :: r2 :: rest) text0 is_bold)
      with ((p, b0) :: append_run (r2 :: rest) text0 is_bold). eauto.
Qed.

(** Appending a non-empty text keeps the texts non-empty and the bold values
    alternating. *)
Lemma append_run_invariant : forall (rs : list run) text0 is_bold,
  text0 <> [] -> normalized_invariant rs ->
  normalized_invariant (append_run rs text0 is_bold).
Proof.
  unfold normalized_invariant.
  induction rs as [|[p b0] rest IH]; intros text0 is_bold Ht [Hne Halt].
  - simpl. split; [repeat constructor; exact Ht|exact I].
  - destruct rest as [|r2 rest].
    + simpl. destruct (Bool.eqb b0 is_bold) eqn:E.
      * split; [|exact I]. constructor; [|constructor]. simpl.
        intros H. apply app_eq_nil in H. destruct H. contradiction.
      * split.
        -- constructor; [|repeat constructor; exact Ht].
           inversion Hne; assumption.
        -- simpl. split; [|exact I]. intros ->.
           rewrite eqb_reflx in E. discriminate.
    + change (append_run ((p, b0) :: r2 :: rest) text0 is_bold)
        with ((p, b0) :: append_run (r2 :: rest) text0 is_bold).
      inversion Hne as [|x l Hp Hrest]; subst.
      destruct Halt as [Hd Halt].
      destruct (IH text0 is_bold Ht (conj Hrest Halt)) as [Hne' Halt'].
      split; [constructor; assumption|].
      destruct (append_run_head_bold r2 rest text0 is_bold) as [t [rest' E]].
      rewrite E in *. simpl. split; [exact Hd|exact Halt'].
Qed.

Lemma append_run_twice : forall (rs : list run) (x y : str) (b0 : bool),
  x <> [] ->
  append_run (append_run rs x b0) y b0 = append_run rs (x ++ y) b0.
Proof.
  intros rs x y b0 Hx. induction rs as [|[p pb] rest IH].
  - destruct b0; reflexivity.
  - destruct rest as [|r2 rest].
    + destruct pb, b0; simpl; rewrite <- ?app_assoc; reflexivity.
    + change (append_run ((p, pb) :: r2 :: rest) x b0)
        with ((p, pb) :: append_run (r2 :: rest) x b0).
      change (append_run ((p, pb) :: r2 :: rest) (x ++ y) b0)
        with ((p, pb) :: append_run (r2 :: rest) (x ++ y) b0).
      destruct (append_run_head_bold r2 rest x b0) as [t [rest' E]].
      rewrite E in *.
      change (append_run ((p, pb) :: (t, snd r2) :: rest') y b0)
        with ((p, pb) :: append_run ((t, snd r2) :: rest') y b0).
      rewrite IH. reflexivity.
Qed.

Section ParserOutputs.
Context {U : Unicode}.

Lemma html_append_invariant : forall st text0 is_bold,
  normalized_invariant (ClipboardHtmlRunParser.runs st) ->
  normalized_invariant
    (ClipboardHtmlRunParser.runs (ClipboardHtmlRunParser._append st text0 is_bold)).
Proof.
  intros st text0 is_bold H. unfold ClipboardHtmlRunParser._append.
  destruct text0 as [|c t]; [exact H|]. simpl.
  apply append_run_invariant; [discriminate|exact H].
Qed.

Lemma html_append_newline_invariant : forall st,
  normalized_invariant (ClipboardHtmlRunParser.runs st) ->
  normalized_invariant
    (ClipboardHtmlRunParser.runs (ClipboardHtmlRunParser._append_newline st)).
Proof.
  intros st H. unfold ClipboardHtmlRunParser._append_newline.
  destruct (last_opt (ClipboardHtmlRunParser.runs st)) as [[t b0]|]; [|exact H].
  destruct (endswith N.eqb [LF] t); [exact H|].
  apply html_append_invariant. exact H.
Qed.

Ltac html_runs :=
  cbn [ClipboardHtmlRunParser.runs ClipboardHtmlRunParser.with_bold_depth
       ClipboardHtmlRunParser.with_tag_stack
       ClipboardHtmlRunParser.with_li_depth
       ClipboardHtmlRunParser.with_skip_depth].

Lemma html_handle_invariant : forall st e,
  normalized_invariant (ClipboardHtmlRunParser.runs st) ->
  normalized_invariant
    (ClipboardHtmlRunParser.runs (ClipboardHtmlRunParser.handle st e)).
Proof.
  intros st [tag attrs|tag|data] H; simpl.
  - unfold ClipboardHtmlRunParser.handle_starttag.
    destruct (ClipboardHtmlRunParser.skipped_tag (lower tag)); [exact H|].
    destruct (0 <? ClipboardHtmlRunParser._skip_depth st)%Z; [exact H|].
    destruct (str_eqb (lower tag) (u "br"));
      [apply html_append_invariant; exact H|].
    cbv zeta.
    destruct (str_eqb (lower tag) (u "li")).
    + match goal with
      | |- context [if ?c then ClipboardHtmlRunParser.with_bold_depth _ _ else _] =>
          destruct c
      end; html_runs;
        apply html_append_invariant; apply html_append_newline_invariant;
        exact H.
    + match goal with
      | |- context [if ?c then ClipboardHtmlRunParser.with_bold_depth _ _ else _] =>
          destruct c
      end; html_runs; exact H.
  - unfold ClipboardHtmlRunParser.handle_endtag.
    destruct (ClipboardHtmlRunParser.skipped_tag (lower tag)).
    { destruct (0 <? ClipboardHtmlRunParser._skip_depth st)%Z; exact H. }
    destruct (0 <? ClipboardHtmlRunParser._skip_depth st)%Z; [exact H|].
    cbv zeta.
    set (st1 := match ClipboardHtmlRunParser.pop_matching (lower tag)
                        (ClipboardHtmlRunParser._tag_stack st) with
                | Some _ => _ | None => st end).
    assert (H1 : normalized_invariant (ClipboardHtmlRunParser.runs st1)).
    { subst st1.
      destruct (ClipboardHtmlRunParser.pop_matching (lower tag)
                  (ClipboardHtmlRunParser._tag_stack st)) as [[pb stack']|];
        [|exact H].
      html_runs. destruct (pb && _); exact H. }
    destruct (str_eqb (lower tag) (u "li")).
    { apply html_append_newline_invariant.
      destruct (0 <? ClipboardHtmlRunParser._li_depth st1)%Z; exact H1. }
    destruct (ClipboardHtmlRunParser.str_in (lower tag)
                ClipboardHtmlRunParser.BLOCK_TAGS); [|exact H1].
    destruct (ClipboardHtmlRunParser._li_depth st1 =? 0)%Z; [|exact H1].
    apply html_append_newline_invariant. exact H1.
  - unfold ClipboardHtmlRunParser.handle_data.
    destruct (0 <? ClipboardHtmlRunParser._skip_depth st)%Z; [exact H|].
    apply html_append_invariant. exact H.
Qed.

(** X1.  Whatever handler calls a markup makes, the runs that the markup run
    parser holds have non-empty texts and no two neighbours with the same
    bold value: its streaming merge keeps the normalized-sequence invariant
    at every step. *)
Theorem html_parser_runs_alternate :
  forall (class_bold_map : dict bool) (css_vars : dict str)
         (events : list html_event),
    normalized_invariant
      (ClipboardHtmlRunParser.runs
         (ClipboardHtmlRunParser.feed_events
            (ClipboardHtmlRunParser.init class_bold_map css_vars) events)).
Proof.
  intros class_bold_map css_vars events.
  unfold ClipboardHtmlRunParser.feed_events.
  assert (G : forall evs st,
             normalized_invariant (ClipboardHtmlRunParser.runs st) ->
             normalized_invariant
               (ClipboardHtmlRunParser.runs
                  (fold_left ClipboardHtmlRunParser.handle evs st))).
  { induction evs as [|e evs IH]; intros st H; simpl; [exact H|].
    apply IH. apply html_handle_invariant. exact H. }
  apply G. split; [constructor|exact I].
Qed.
End ParserOutputs.


(** ** Legacy rich-text parser: runs, exceptions, groups, escapes *)
Section RtfFurther.
Context {U : Unicode}.
Import ClipboardRtfRunParser.

Ltac rtf_fields :=
  cbn [runs _bold _bold_stack _uc_skip _pending_skip with_runs with_bold
       with_bold_stack with_uc_skip with_pending_skip].

Lemma rtf_append_invariant : forall st text0 is_bold,
  normalized_invariant (runs st) ->
  normalized_invariant (runs (_append st text0 is_bold)).
Proof.
  intros st text0 is_bold H. unfold _append.
  destruct text0 as [|c t]; [exact H|]. cbn [truthy negb]. cbv iota.
  rtf_fields. apply append_run_invariant; [discriminate|exact H].
Qed.

Lemma rtf_control_invariant : forall st word number,
  normalized_invariant (runs st) ->
  normalized_invariant (runs (control st word number)).
Proof.
  intros st word number H. unfold control.
  repeat match goal with
    | |- context [if ?c then _ else _] => destruct c
    | |- context [match ?n with Some _ => _ | None => _ end] => destruct n
    | |- context [match ?z with 0%Z => _ | Z.pos _ => _ | Z.neg _ => _ end] =>
        destruct z
    end; rtf_fields;
    try apply rtf_append_invariant; exact H.
Qed.

Lemma rtf_step_invariant : forall st s st' moved,
  step st s = Some (st', moved) ->
  normalized_invariant (runs st) -> normalized_invariant (runs st').
Proof.
  intros st s st' moved E H.
  destruct s as [|ch t]; unfold step in E; cbv beta iota in E.
  { inversion E; subst; exact H. }
  repeat match type of E with
    | context [if ?c then _ else _] => destruct c
    | context [match ?l with [] => _ | _ :: _ => _ end] => destruct l
    | context [match ?o with Some _ => _ | None => _ end] =>
        let d := fresh "d" in destruct o as [d|] eqn:?
    | context [let '(_, _) := ?p in _] => destruct p
    end;
    try discriminate;
    try (inversion E; subst; rtf_fields;
         try apply rtf_append_invariant; try apply rtf_control_invariant;
         exact H).
Qed.

Lemma rtf_parse_from_invariant : forall s skip st st',
  parse_from skip st s = Some st' ->
  normalized_invariant (runs st) -> normalized_invariant (runs st').
Proof.
  induction s as [|c t IH]; intros skip st st' E H; cbn [parse_from] in E.
  - injection E as <-. exact H.
  - destruct skip as [|k]; [|eauto].
    destruct (step st (c :: t)) as [[st1 moved]|] eqn:S; [|discriminate].
    eapply IH; [exact E|]. eapply rtf_step_invariant; eauto.
Qed.

(** X2.  The runs that the legacy rich-text parser returns have non-empty
    texts and no two neighbours with the same bold value. *)
Theorem rtf_parser_runs_alternate : forall (rtf_text : str) (rs : list run),
  parse rtf_text = Some rs -> normalized_invariant rs.
Proof.
  intros rtf_text rs E. unfold parse in E.
  destruct (parse_from 0 init rtf_text) as [st|] eqn:P; [|discriminate].
  injection E as <-.
  eapply rtf_parse_from_invariant; [exact P|].
  split; [constructor|exact I].
Qed.
End RtfFurther.


Section RtfExceptions.
Context {U : Unicode}.
Import ClipboardRtfRunParser.

Lemma takewhile_all : forall (A : Type) (p : A -> bool) (s : list A),
  Forall (fun c => p c = true) (takewhile p s).
Proof.
  intros A p. induction s as [|c t IH]; simpl; [constructor|].
  destruct (p c) eqn:E; constructor; assumption.
Qed.

Lemma takewhile_incl : forall (A : Type) (p : A -> bool) (s : list A) (c : A),
  In c (takewhile p s) -> In c s.
Proof.
  intros A p. induction s as [|x t IH]; simpl; intros c H; [exact H|].
  destruct (p x); [|destruct H]. destruct H as [H|H]; auto.
Qed.

Lemma skipn_incl : forall (A : Type) (n : nat) (s : list A) (c : A),
  In c (skipn n s) -> In c s.
Proof.
  intros A. induction n as [|n IH]; intros s c H; [exact H|].
  destruct s as [|x t]; [exact H|]. right. apply IH. exact H.
Qed.

Lemma takewhile_shorter : forall (A : Type) (p : A -> bool) (s : list A),
  (List.length (takewhile p s) <= List.length s)%nat.
Proof.
  intros A p. induction s as [|c t IH]; [simpl; lia|].
  cbn [takewhile]. destruct (p c); cbn [List.length]; lia.
Qed.

Lemma ascii_digits_decimal : forall s : str,
  Forall (fun c => is_ascii c = true) s -> digits_decimal s.
Proof.
  intros s H c Hin. rewrite Forall_forall in H. specialize (H c Hin).
  unfold isdigit, decimal. rewrite H. intros ->. discriminate.
Qed.

Lemma read_control_word_returns : forall s : str,
  digits_decimal s -> (List.length s <= 4300)%nat ->
  exists r, _read_control_word s = Some r.
Proof.
  intros s H Hl. unfold _read_control_word.
  set (word := takewhile isalpha s).
  set (s1 := skipn (List.length word) s).
  destruct (match s1 with
            | c :: _ =>
                if N.eqb c 45 then ((-1)%Z, 1%nat)
                else if N.eqb c 43 then (1%Z, 1%nat) else (1%Z, 0%nat)
            | [] => (1%Z, 0%nat)
            end) as [sign signed].
  cbv zeta.
  set (digits := takewhile isdigit (skipn signed s1)).
  destruct digits as [|d ds] eqn:D; [eauto|].
  destruct (int_returns (d :: ds)) as [v E].
  { intros c Hc. apply H.
    - rewrite <- D in Hc. subst digits.
      apply takewhile_incl in Hc. apply skipn_incl in Hc. subst s1.
      apply skipn_incl in Hc. exact Hc.
    - pose proof (takewhile_all _ isdigit (skipn signed s1)) as T.
      fold digits in T. rewrite D in T. rewrite Forall_forall in T.
      apply T. exact Hc. }
  { rewrite <- D. subst digits s1.
    eapply Nat.le_trans; [apply takewhile_shorter|].
    rewrite !length_skipn. lia. }
  rewrite E. eauto.
Qed.

Lemma step_returns : forall st (s : str),
  digits_decimal s -> (List.length s <= 4300)%nat ->
  exists r, step st s = Some r.
Proof.
  intros st s H Hl. unfold step.
  destruct s as [|ch t]; [eauto|].
  assert (Ht : digits_decimal t).
  { intros c Hc. apply H. right. exact Hc. }
  assert (Hlt : (List.length t <= 4300)%nat) by (cbn [List.length] in Hl; lia).
  destruct (read_control_word_returns t Ht Hlt) as [[[word number] moved] E].
  rewrite E.
  repeat match goal with
    | |- context [if ?c then _ else _] => destruct c
    | |- context [match _bold_stack ?x with [] => _ | _ :: _ => _ end] =>
        destruct (_bold_stack x)
    | |- context [match t with [] => _ | _ :: _ => _ end] => destruct t
    | |- context [match decode_hex ?x with Some _ => _ | None => _ end] =>
        destruct (decode_hex x)
    end; eauto.
Qed.

Lemma parse_from_returns : forall (s : str) skip st,
  digits_decimal s -> (List.length s <= 4300)%nat ->
  exists st', parse_from skip st s = Some st'.
Proof.
  induction s as [|c t IH]; intros skip st H Hl; cbn [parse_from]; [eauto|].
  assert (Ht : digits_decimal t).
  { intros x Hx. apply H. right. exact Hx. }
  assert (Hlt : (List.length t <= 4300)%nat) by (cbn [List.length] in Hl; lia).
  destruct skip as [|k]; [|apply IH; assumption].
  destruct (step_returns st (c :: t) H Hl) as [[st1 moved] E]. rewrite E.
  apply IH; assumption.
Qed.

(** X3.  The legacy rich-text parser raises no exception on an ASCII text
    of at most 4300 characters: the only statement of [parse] that can raise
    is the [int] of a control-word parameter; on ASCII every character that
    [str.isdigit] takes is a decimal digit, and a parameter of such a text
    stays within the number of digits that [int] takes. *)
Theorem rtf_parse_ascii_never_raises : forall rtf_text : str,
  Forall (fun c => is_ascii c = true) rtf_text ->
  (List.length rtf_text <= 4300)%nat ->
  exists rs, parse rtf_text = Some rs.
Proof.
  intros rtf_text H Hl.
  destruct (parse_from_returns rtf_text 0 init (ascii_digits_decimal _ H) Hl)
    as [st E].
  exists (runs st). unfold parse. rewrite E. reflexivity.
Qed.

(** ** Literal text *)

Lemma rtf_append_twice : forall st (t1 t2 : str),
  t1 <> [] ->
  _append (_append st t1 None) t2 None = _append st (t1 ++ t2) None.
Proof.
  intros st t1 t2 H1.
  assert (T1 : truthy t1 = true) by (destruct t1; [congruence|reflexivity]).
  assert (T12 : truthy (t1 ++ t2) = true)
    by (destruct t1; [congruence|reflexivity]).
  unfold _append. rewrite T1, T12. cbn [negb]. cbv iota.
  destruct (truthy t2) eqn:T2; cbn [negb]; cbv iota.
  - unfold with_runs.
    cbn [runs _bold _bold_stack _uc_skip _pending_skip].
    f_equal. apply append_run_twice. exact H1.
  - destruct t2; [|discriminate T2]. rewrite app_nil_r. reflexivity.
Qed.

Lemma step_literal : forall st (c : char) (t : str),
  (_pending_skip st <= 0)%Z -> is_special c = false ->
  step st (c :: t) = Some (_append st [c] None, 1%nat).
Proof.
  intros st c t Hp Hc. unfold step.
  replace (0 <? _pending_skip st)%Z with false
    by (symmetry; apply Z.ltb_ge; exact Hp).
  cbn [andb]. cbv iota.
  unfold is_special in Hc. apply orb_false_iff in Hc. destruct Hc as [Hc H3].
  apply orb_false_iff in Hc. destruct Hc as [H1 H2].
  rewrite H2, H3, H1. reflexivity.
Qed.

Lemma append_keeps_skip : forall st t b0,
  _pending_skip (_append st t b0) = _pending_skip st.
Proof.
  intros st t b0. unfold _append. destruct (negb (truthy t)); reflexivity.
Qed.

(** Literal text goes to the runs unchanged, under the current bold state. *)
Lemma parse_from_literal : forall (t rest : str) st,
  (_pending_skip st <= 0)%Z -> literal t ->
  parse_from 0 st (t ++ rest) = parse_from 0 (_append st t None) rest.
Proof.
  induction t as [|c t IH]; intros rest st Hp Hl.
  - reflexivity.
  - inversion Hl as [|x l Hc Ht]; subst.
    cbn [app parse_from]. rewrite (step_literal st c (t ++ rest) Hp Hc).
    cbn [Nat.sub]. rewrite IH; [|rewrite append_keeps_skip; exact Hp|exact Ht].
    rewrite rtf_append_twice by discriminate. reflexivity.
Qed.

(** X4.  A non-empty text without backslash and braces parses to that text
    as one run that is not bold. *)
Theorem rtf_literal_text_is_one_plain_run : forall t : str,
  t <> [] -> literal t -> parse t = Some [(t, false)].
Proof.
  intros t Hne Hl. unfold parse.
  rewrite <- (app_nil_r t) at 1.
  rewrite (parse_from_literal t [] init); [|simpl; lia|exact Hl].
  cbn [parse_from option_map]. unfold _append.
  destruct t as [|c t]; [congruence|]. reflexivity.
Qed.
End RtfExceptions.

Section RtfGroups.
Context {U : Unicode}.
Import ClipboardRtfRunParser.

Lemma truthy_nonempty : forall (A : Type) (s : list A),
  s <> [] -> truthy s = true.
Proof. intros A [|x s] H; [congruence|reflexivity]. Qed.

Lemma step_open : forall st (t : str),
  (_pending_skip st <= 0)%Z ->
  step st (123%N :: t)
  = Some (with_bold_stack st (_bold st :: _bold_stack st), 1%nat).
Proof.
  intros st t Hp. unfold step.
  replace (0 <? _pending_skip st)%Z with false
    by (symmetry; apply Z.ltb_ge; exact Hp).
  reflexivity.
Qed.

Lemma step_close : forall st (t : str),
  (_pending_skip st <= 0)%Z ->
  step st (125%N :: t)
  = Some (match _bold_stack st with
          | top :: below => with_bold_stack (with_bold st top) below
          | [] => st
          end, 1%nat).
Proof.
  intros st t Hp. unfold step.
  replace (0 <? _pending_skip st)%Z with false
    by (symmetry; apply Z.ltb_ge; exact Hp).
  cbn [andb]. cbv iota.
  change (N.eqb 125 123) with false. change (N.eqb 125 125) with true.
  cbv iota. destruct (_bold_stack st); reflexivity.
Qed.

Lemma step_bold_on : forall st (t : str),
  (_pending_skip st <= 0)%Z ->
  step st (u "\b " ++ t) = Some (with_bold st true, 3%nat).
Proof.
  intros st t Hp. unfold step.
  replace (0 <? _pending_skip st)%Z with false
    by (symmetry; apply Z.ltb_ge; exact Hp).
  reflexivity.
Qed.

(** A group that opens with the bold control word: its literal text is
    bold, and the bold state and the stack are afterwards what they were. *)
Lemma parse_from_bold_group : forall (t rest : str) st,
  (_pending_skip st <= 0)%Z -> literal t -> t <> [] ->
  parse_from 0 st (u "{\b " ++ t ++ u "}" ++ rest)
  = parse_from 0 (with_runs st (append_run (runs st) t true)) rest.
Proof.
  intros t rest st Hp Hl Hne.
  change (u "{\b " ++ t ++ u "}" ++ rest)
    with (123%N :: u "\b " ++ t ++ 125%N :: rest).
  cbn [parse_from]. rewrite (step_open st _ Hp). cbn [Nat.sub].
  set (st1 := with_bold_stack st (_bold st :: _bold_stack st)).
  change (u "\b " ++ t ++ 125%N :: rest)
    with (92%N :: 98%N :: 32%N :: t ++ 125%N :: rest).
  cbn [parse_from].
  change (92%N :: 98%N :: 32%N :: t ++ 125%N :: rest)
    with (u "\b " ++ t ++ 125%N :: rest).
  rewrite (step_bold_on st1 _ Hp). cbn [Nat.sub].
  rewrite (parse_from_literal t (125%N :: rest) (with_bold st1 true) Hp Hl).
  cbn [parse_from].
  rewrite step_close by (rewrite append_keeps_skip; exact Hp).
  cbn [Nat.sub]. f_equal.
  unfold _append. rewrite (truthy_nonempty _ t Hne). cbn [negb]. cbv iota.
  destruct st; reflexivity.
Qed.

(** X5.  Bold switched on inside a group ends with the group: the text
    before and after the group is plain, the text inside is bold. *)
Theorem rtf_bold_ends_with_its_group : forall pre t post : str,
  pre <> [] -> t <> [] -> post <> [] ->
  literal pre -> literal t -> literal post ->
  parse (pre ++ u "{\b " ++ t ++ u "}" ++ post)
  = Some [(pre, false); (t, true); (post, false)].
Proof.
  intros pre t post Hpre Ht Hpost Lpre Lt Lpost. unfold parse.
  rewrite (parse_from_literal pre _ init); [|simpl; lia|exact Lpre].
  rewrite parse_from_bold_group;
    [|rewrite append_keeps_skip; simpl; lia|exact Lt|exact Ht].
  match goal with
  | |- option_map _ (parse_from 0 ?s post) = _ =>
      assert (E : parse_from 0 s post = Some (_append s post None))
  end.
  { rewrite <- (app_nil_r post) at 1.
    rewrite parse_from_literal;
      [reflexivity
      |cbn [_pending_skip with_runs]; rewrite append_keeps_skip; simpl; lia
      |exact Lpost]. }
  rewrite E. cbn [option_map]. unfold _append.
  rewrite (truthy_nonempty _ pre Hpre), (truthy_nonempty _ post Hpost).
  destruct pre as [|c0 pre0]; [congruence|].
  destruct t as [|c1 t1]; [congruence|]. reflexivity.
Qed.
End RtfGroups.

Section RtfEscapes.
Context {U : Unicode}.
Import ClipboardRtfRunParser.

Lemma takewhile_app : forall (A : Type) (p : A -> bool) (l : list A) c t,
  Forall (fun x => p x = true) l -> p c = false ->
  takewhile p (l ++ c :: t) = l.
Proof.
  intros A p l c t Hl Hc. induction Hl as [|x l Hx Hl IH]; simpl.
  - rewrite Hc. reflexivity.
  - rewrite Hx, IH. reflexivity.
Qed.

Lemma skipn_length_app : forall (A : Type) (l r : list A),
  skipn (List.length l) (l ++ r) = r.
Proof. intros A l r. induction l; [reflexivity|exact IHl]. Qed.

Lemma parse_from_skip : forall (l r : str) st,
  parse_from (List.length l) st (l ++ r) = parse_from 0 st r.
Proof.
  induction l as [|x l IH]; intros r st; [reflexivity|].
  cbn [List.length app parse_from]. apply IH.
Qed.

Lemma ascii_digit_classes : forall d : char,
  ascii_isdigit d = true ->
  isalpha d = false /\ isdigit d = true /\ is_special d = false
  /\ N.eqb d 45 = false /\ N.eqb d 43 = false /\ N.eqb d 39 = false.
Proof.
  intros d H. pose proof H as Hd. unfold ascii_isdigit in H.
  apply andb_true_iff in H. destruct H as [H1 H2].
  apply N.leb_le in H1. apply N.leb_le in H2.
  assert (A : is_ascii d = true) by (apply N.ltb_lt; lia).
  unfold isalpha, isdigit, is_special. rewrite A, Hd.
  unfold ascii_isalpha, ascii_isupper, ascii_islower.
  replace (65 <=? d)%N with false by (symmetry; apply N.leb_gt; lia).
  replace (97 <=? d)%N with false by (symmetry; apply N.leb_gt; lia).
  repeat match goal with
         | |- context [N.eqb d ?k] =>
             replace (N.eqb d k) with false
               by (symmetry; apply N.eqb_neq; lia)
         end.
  repeat split; reflexivity.
Qed.

Lemma read_unicode_word : forall (d : char) (ds : str) (c : char) (t : str) n,
  Forall (fun x => ascii_isdigit x = true) (d :: ds) ->
  int (d :: ds) = Some n ->
  isdigit c = false -> N.eqb c SPACE = false ->
  _read_control_word (117%N :: (d :: ds) ++ c :: t)
  = Some ([117%N], Some n, S (List.length (d :: ds))).
Proof.
  intros d ds c t n Hds Hn Hc Hsp. unfold _read_control_word.
  inversion Hds as [|x l Hd Hrest]; subst.
  destruct (ascii_digit_classes d Hd) as [A [_ [_ [M [P _]]]]].
  assert (W : takewhile isalpha (117%N :: (d :: ds) ++ c :: t) = [117%N]).
  { cbn [takewhile app]. change (isalpha 117%N) with true. cbv iota.
    rewrite A. reflexivity. }
  rewrite W. cbn [List.length skipn app]. rewrite M, P.
  cbv beta iota zeta. cbn [skipn].
  assert (D : takewhile isdigit (d :: ds ++ c :: t) = d :: ds).
  { change (d :: ds ++ c :: t) with ((d :: ds) ++ c :: t).
    apply takewhile_app; [|exact Hc].
    apply Forall_impl with (2 := Hds). intros a Ha.
    apply (ascii_digit_classes a Ha). }
  rewrite D.
  change (d :: ds ++ c :: t) with ((d :: ds) ++ c :: t).
  rewrite skipn_length_app. rewrite Hsp, Hn.
  rewrite Z.mul_1_l. cbn [List.length Nat.add]. rewrite Nat.add_0_r.
  reflexivity.
Qed.

Lemma step_unicode : forall st (digits : str) (c : char) (t : str) n,
  (_pending_skip st <= 0)%Z ->
  digits <> [] -> Forall (fun x => ascii_isdigit x = true) digits ->
  int digits = Some n -> (0 <= n < 1114112)%Z ->
  isdigit c = false -> N.eqb c SPACE = false ->
  step st (u "\u" ++ digits ++ c :: t)
  = Some (with_pending_skip (_append st [Z.to_N n] None)
            (Z.max 0 (_uc_skip st)),
          S (S (List.length digits))).
Proof.
  intros st digits c t n Hp Hne Hds Hn Hr Hc Hsp.
  destruct digits as [|d ds]; [congruence|].
  change (u "\u" ++ (d :: ds) ++ c :: t)
    with (92%N :: 117%N :: (d :: ds) ++ c :: t).
  unfold step.
  replace (0 <? _pending_skip st)%Z with false
    by (symmetry; apply Z.ltb_ge; exact Hp).
  cbn [andb]. cbv iota.
  change (N.eqb 92%N 123%N) with false. change (N.eqb 92%N 125%N) with false.
  change (N.eqb 92%N 92%N) with true. cbn [negb]. cbv iota.
  change (is_special 117%N) with false. change (N.eqb 117%N 39%N) with false.
  change (isalpha 117%N) with true. cbn [negb]. cbv iota.
  rewrite (read_unicode_word d ds c t n Hds Hn Hc Hsp).
  f_equal. f_equal. unfold control.
  change (str_eqb [117%N] (u "b")) with false.
  change (str_eqb [117%N] (u "par")) with false.
  change (str_eqb [117%N] (u "line")) with false.
  change (str_eqb [117%N] (u "tab")) with false.
  change (str_eqb [117%N] (u "emdash")) with false.
  change (str_eqb [117%N] (u "endash")) with false.
  change (str_eqb [117%N] (u "bullet")) with false.
  change (str_eqb [117%N] (u "u")) with true.
  cbn [orb]. cbv iota.
  assert (Hle : (0 <=? n)%Z = true) by (apply Z.leb_le; lia).
  assert (Hlt : (n <? 1114112)%Z = true) by (apply Z.ltb_lt; lia).
  rewrite Hle. cbv beta iota zeta. rewrite Hle, Hlt.
  cbn [andb]. cbv iota.
  unfold _append. cbn [truthy negb]. cbv iota. reflexivity.
Qed.

Lemma step_skip : forall st (c : char) (t : str),
  (0 < _pending_skip st)%Z -> is_special c = false ->
  step st (c :: t)
  = Some (with_pending_skip st (_pending_skip st - 1)%Z, 1%nat).
Proof.
  intros st c t Hp Hs. unfold step.
  replace (0 <? _pending_skip st)%Z with true
    by (symmetry; apply Z.ltb_lt; exact Hp).
  rewrite Hs. reflexivity.
Qed.

(** X6.  After a Unicode escape the next character, the fallback for
    readers without Unicode, is passed over: the escape [\u], a decimal
    code point [n] whose digits [int] takes, which are at most 4300, and a
    fallback character [c] give the character [n] alone, and the literal
    text [t] after it follows in the same run. *)
Theorem rtf_unicode_escape_drops_fallback :
  forall (digits : str) (n : Z) (c : char) (t : str),
  digits <> [] -> Forall (fun x => ascii_isdigit x = true) digits ->
  int digits = Some n -> (0 <= n < 1114112)%Z ->
  is_special c = false -> isdigit c = false -> c <> SPACE ->
  literal t ->
  parse (u "\u" ++ digits ++ c :: t) = Some [(Z.to_N n :: t, false)].
Proof.
  intros digits n c t Hne Hds Hn Hr Hs Hc Hsp Lt. unfold parse.
  apply N.eqb_neq in Hsp.
  pose proof (step_unicode init digits c t n) as E.
  change (u "\u" ++ digits ++ c :: t)
    with (92%N :: 117%N :: digits ++ c :: t) in *.
  cbn [parse_from]. rewrite E; try assumption; [|simpl; lia].
  cbn [Nat.sub].
  change (117%N :: digits ++ c :: t) with ((117%N :: digits) ++ c :: t).
  change (S (List.length digits)) with (List.length (117%N :: digits)).
  rewrite parse_from_skip.
  cbn [parse_from].
  rewrite step_skip; [|cbn [_pending_skip with_pending_skip]; simpl; lia
                      |exact Hs].
  cbn [Nat.sub].
  rewrite <- (app_nil_r t) at 1.
  rewrite parse_from_literal; [|simpl; lia|exact Lt].
  cbn [parse_from option_map]. unfold _append. destruct t; reflexivity.
Qed.

End RtfEscapes.

(** An escape with 4301 digits makes [parse] raise, whatever number they
    write; the reader of the legacy format catches the exception and gives
    no runs. *)
Example rtf_oversized_parameter_raises :
  ClipboardRtfRunParser.parse (U := BasicLatin)
    (u "\u" ++ List.repeat 48%N 4299 ++ u "65?x") = None
  /\ _read_clipboard_rtf_runs (U := BasicLatin)
       (Some (b "\u" ++ List.repeat "0"%byte 4299 ++ b "65?x")) = [].
Proof. split; vm_compute; reflexivity. Qed.

Section HtmlNesting.
Context {U : Unicode}.
Import ClipboardHtmlRunParser.

Lemma feed_events_app : forall (e1 e2 : list html_event) st,
  feed_events st (e1 ++ e2) = feed_events (feed_events st e1) e2.
Proof. intros e1 e2 st. unfold feed_events. apply fold_left_app. Qed.

Lemma handle_inside_script : forall st e,
  (0 < _skip_depth st)%Z -> no_script_end e ->
  (0 < _skip_depth (handle st e))%Z
  /\ runs (handle st e) = runs st
  /\ _bold_depth (handle st e) = _bold_depth st
  /\ _tag_stack (handle st e) = _tag_stack st
  /\ _li_depth (handle st e) = _li_depth st.
Proof.
  intros st e Hs He. pose proof Hs as Hlt. apply Z.ltb_lt in Hlt.
  destruct e as [tag attrs|tag|data]; cbn [handle].
  - unfold handle_starttag. destruct (skipped_tag (lower tag)).
    + cbn [_skip_depth runs _bold_depth _tag_stack _li_depth with_skip_depth].
      repeat split; lia.
    + rewrite Hlt. repeat split; assumption.
  - unfold handle_endtag. cbn [no_script_end] in He. rewrite He, Hlt.
    repeat split; assumption.
  - unfold handle_data. rewrite Hlt. repeat split; assumption.
Qed.

(** X7.  Nothing inside a script or style element is captured: while the
    skip depth is positive, handler calls other than the end tag of a script
    or style element leave the runs, the bold depth, the tag stack and the
    list depth as they are, and the skip depth positive. *)
Theorem html_script_content_ignored : forall events st,
  (0 < _skip_depth st)%Z -> Forall no_script_end events ->
  (0 < _skip_depth (feed_events st events))%Z
  /\ runs (feed_events st events) = runs st
  /\ _bold_depth (feed_events st events) = _bold_depth st
  /\ _tag_stack (feed_events st events) = _tag_stack st
  /\ _li_depth (feed_events st events) = _li_depth st.
Proof.
  induction events as [|e events IH]; intros st Hs He.
  - repeat split; assumption.
  - inversion He as [|x l H1 H2]; subst.
    destruct (handle_inside_script st e Hs H1) as [S1 [R1 [B1 [T1 L1]]]].
    destruct (IH (handle st e) S1 H2) as [S2 [R2 [B2 [T2 L2]]]].
    change (feed_events st (e :: events))
      with (feed_events (handle st e) events).
    repeat split; congruence.
Qed.

Ltac keeps :=
  repeat match goal with
    | |- context [_bold_depth (_append_newline ?s)] =>
        rewrite (proj1 (append_newline_keeps s))
    | |- context [_skip_depth (_append_newline ?s)] =>
        rewrite (proj1 (proj2 (append_newline_keeps s)))
    | |- context [_tag_stack (_append_newline ?s)] =>
        rewrite (proj1 (proj2 (proj2 (append_newline_keeps s))))
    | |- context [_li_depth (_append_newline ?s)] =>
        rewrite (proj2 (proj2 (proj2 (append_newline_keeps s))))
    | |- context [_bold_depth (_append ?s ?t ?f)] =>
        rewrite (proj1 (append_keeps s t f))
    | |- context [_skip_depth (_append ?s ?t ?f)] =>
        rewrite (proj1 (proj2 (append_keeps s t f)))
    | |- context [_tag_stack (_append ?s ?t ?f)] =>
        rewrite (proj1 (proj2 (proj2 (append_keeps s t f))))
    | |- context [_li_depth (_append ?s ?t ?f)] =>
        rewrite (proj2 (proj2 (proj2 (append_keeps s t f))))
    end.

Ltac fields :=
  cbn [_bold_depth _skip_depth _tag_stack _li_depth runs
       with_bold_depth with_skip_depth with_tag_stack with_li_depth with_runs].

Lemma handle_starttag_pushes : forall st tag attrs,
  (_skip_depth st <= 0)%Z ->
  skipped_tag (lower tag) = false -> str_eqb (lower tag) (u "br") = false ->
  exists pushes_bold,
    formatting (handle_starttag st tag attrs)
    = ((_bold_depth st + step_of pushes_bold)%Z,
       _skip_depth st,
       (lower tag, pushes_bold) :: _tag_stack st,
       (_li_depth st + step_of (str_eqb (lower tag) (u "li")))%Z).
Proof.
  intros st tag attrs Hs Hk Hbr. unfold handle_starttag, formatting.
  rewrite Hk, Hbr.
  replace (0 <? _skip_depth st)%Z with false
    by (symmetry; apply Z.ltb_ge; exact Hs).
  cbv zeta.
  set (st1 := if str_eqb (lower tag) (u "li") then _ else st).
  assert (H1 : _bold_depth st1 = _bold_depth st
               /\ _skip_depth st1 = _skip_depth st
               /\ _tag_stack st1 = _tag_stack st
               /\ _li_depth st1
                  = (_li_depth st + step_of (str_eqb (lower tag) (u "li")))%Z).
  { subst st1. destruct (str_eqb (lower tag) (u "li")); unfold step_of.
    - fields. keeps. repeat split; reflexivity.
    - repeat split; lia. }
  destruct H1 as [E1 [E2 [E3 E4]]].
  match goal with
  | |- context [if ?c then with_bold_depth _ _ else _] =>
      exists c; destruct c
  end; fields; unfold step_of at 1; rewrite E1, E2, E3, E4;
    repeat f_equal; lia.
Qed.

Lemma handle_endtag_pops : forall st end_tag pushes_bold below,
  (_skip_depth st <= 0)%Z ->
  skipped_tag (lower end_tag) = false ->
  _tag_stack st = (lower end_tag, pushes_bold) :: below ->
  (step_of pushes_bold <= _bold_depth st)%Z ->
  (step_of (str_eqb (lower end_tag) (u "li")) <= _li_depth st)%Z ->
  formatting (handle_endtag st end_tag)
  = ((_bold_depth st - step_of pushes_bold)%Z,
     _skip_depth st,
     below,
     (_li_depth st - step_of (str_eqb (lower end_tag) (u "li")))%Z).
Proof.
  intros st end_tag pushes_bold below Hs Hk Hstack Hb Hl.
  unfold handle_endtag, formatting. rewrite Hk.
  replace (0 <? _skip_depth st)%Z with false
    by (symmetry; apply Z.ltb_ge; exact Hs).
  rewrite Hstack. cbn [pop_matching].
  replace (str_eqb (lower end_tag) (lower end_tag)) with true
    by (symmetry; apply str_eqb_eq; reflexivity).
  cbn [negb]. cbv iota zeta.
  set (st1 := if pushes_bold && _ then _ else _).
  assert (H1 : _bold_depth st1 = (_bold_depth st - step_of pushes_bold)%Z
               /\ _skip_depth st1 = _skip_depth st
               /\ _tag_stack st1 = below
               /\ _li_depth st1 = _li_depth st).
  { subst st1. destruct pushes_bold; unfold step_of in *; cbn [andb].
    - fields.
      replace (0 <? _bold_depth st)%Z with true
        by (symmetry; apply Z.ltb_lt; lia).
      fields. repeat split; reflexivity.
    - fields. repeat split; lia. }
  destruct H1 as [E1 [E2 [E3 E4]]].
  destruct (str_eqb (lower end_tag) (u "li")); cbn [step_of] in Hl |- *.
  - keeps.
    assert (G : (0 <? _li_depth st1)%Z = true) by (apply Z.ltb_lt; lia).
    rewrite G. fields. rewrite E1, E2, E3, E4. reflexivity.
  - destruct (str_in (lower end_tag) BLOCK_TAGS).
    + destruct (_li_depth st1 =? 0)%Z; keeps; rewrite E1, E2, E3, E4;
        repeat f_equal; lia.
    + rewrite E1, E2, E3, E4. repeat f_equal; lia.
Qed.

Lemma balanced_restores : forall events,
  balanced events -> forall st,
  (_skip_depth st <= 0)%Z -> (0 <= _bold_depth st)%Z ->
  (0 <= _li_depth st)%Z ->
  formatting (feed_events st events) = formatting st.
Proof.
  intros events Hb.
  induction Hb as [|data rest Hrest IH|tag attrs rest Hbr Hrest IH
                   |tag attrs inner end_tag rest Hk Hbr Hend Hin IHin Hrest IH];
    intros st Hs Hd Hl.
  - reflexivity.
  - change (feed_events st (Data data :: rest))
      with (feed_events (handle_data st data) rest).
    assert (E : formatting (handle_data st data) = formatting st).
    { unfold handle_data, formatting.
      destruct (0 <? _skip_depth st)%Z; keeps; reflexivity. }
    unfold formatting in E. injection E as E1 E2 E3 E4.
    rewrite IH by lia. unfold formatting. congruence.
  - change (feed_events st (StartTag tag attrs :: rest))
      with (feed_events (handle_starttag st tag attrs) rest).
    assert (E : formatting (handle_starttag st tag attrs) = formatting st).
    { unfold handle_starttag, formatting. rewrite Hbr.
      change (skipped_tag (u "br")) with false. cbv iota.
      destruct (0 <? _skip_depth st)%Z; [reflexivity|].
      change (str_eqb (u "br") (u "br")) with true. cbv iota.
      keeps. reflexivity. }
    unfold formatting in E. injection E as E1 E2 E3 E4.
    rewrite IH by lia. unfold formatting. congruence.
  - change (feed_events st (StartTag tag attrs :: inner ++ EndTag end_tag :: rest))
      with (feed_events (handle_starttag st tag attrs)
              (inner ++ EndTag end_tag :: rest)).
    rewrite feed_events_app.
    destruct (handle_starttag_pushes st tag attrs Hs Hk Hbr) as [pb E].
    set (st1 := handle_starttag st tag attrs) in *.
    unfold formatting in E. injection E as E1 E2 E3 E4.
    assert (P : (0 <= step_of pb)%Z) by (destruct pb; simpl; lia).
    assert (Q : (0 <= step_of (str_eqb (lower tag) (u "li")))%Z)
      by (destruct (str_eqb (lower tag) (u "li")); simpl; lia).
    assert (I : formatting (feed_events st1 inner) = formatting st1)
      by (apply IHin; lia).
    unfold formatting in I. injection I as I1 I2 I3 I4.
    set (st2 := feed_events st1 inner) in *.
    change (feed_events st2 (EndTag end_tag :: rest))
      with (feed_events (handle_endtag st2 end_tag) rest).
    assert (F : formatting (handle_endtag st2 end_tag)
                = ((_bold_depth st2 - step_of pb)%Z, _skip_depth st2,
                   _tag_stack st,
                   (_li_depth st2
                    - step_of (str_eqb (lower tag) (u "li")))%Z)).
    { rewrite <- Hend. apply handle_endtag_pops.
      - lia.
      - rewrite Hend. exact Hk.
      - rewrite Hend. congruence.
      - lia.
      - rewrite Hend. lia. }
    unfold formatting in F. injection F as F1 F2 F3 F4.
    rewrite IH by lia. unfold formatting.
    f_equal; [f_equal; [f_equal|]|]; lia || congruence.
Qed.
Lemma handle_li_depth : forall st e,
  (0 <= _li_depth st)%Z -> (0 <= _li_depth (handle st e))%Z.
Proof.
  intros st e Hl. destruct e as [tag attrs|tag|data]; cbn [handle].
  - unfold handle_starttag.
    destruct (skipped_tag (lower tag)); [exact Hl|].
    destruct (0 <? _skip_depth st)%Z; [exact Hl|].
    destruct (str_eqb (lower tag) (u "br")); [keeps; exact Hl|].
    cbv zeta.
    set (st1 := if str_eqb (lower tag) (u "li") then _ else st).
    assert (H1 : (0 <= _li_depth st1)%Z).
    { subst st1. destruct (str_eqb (lower tag) (u "li")); [|exact Hl].
      fields. keeps. lia. }
    match goal with
    | |- context [if ?c then with_bold_depth _ _ else _] => destruct c
    end; fields; exact H1.
  - unfold handle_endtag.
    destruct (skipped_tag (lower tag)).
    { destruct (0 <? _skip_depth st)%Z; exact Hl. }
    destruct (0 <? _skip_depth st)%Z; [exact Hl|].
    cbv zeta.
    set (st1 := match pop_matching (lower tag) (_tag_stack st) with
                | Some _ => _ | None => st end).
    assert (H1 : (0 <= _li_depth st1)%Z).
    { subst st1.
      destruct (pop_matching (lower tag) (_tag_stack st)) as [[pb stack']|];
        [|exact Hl].
      destruct (pb && _); fields; exact Hl. }
    destruct (str_eqb (lower tag) (u "li")).
    { keeps. destruct (0 <? _li_depth st1)%Z eqn:G; fields; [|exact H1].
      apply Z.ltb_lt in G. lia. }
    destruct (str_in (lower tag) BLOCK_TAGS); [|exact H1].
    destruct (_li_depth st1 =? 0)%Z; keeps; exact H1.
  - unfold handle_data. destruct (0 <? _skip_depth st)%Z; keeps; exact Hl.
Qed.

Lemma feed_events_li_depth : forall events st,
  (0 <= _li_depth st)%Z -> (0 <= _li_depth (feed_events st events))%Z.
Proof.
  induction events as [|e events IH]; intros st H; [exact H|].
  apply IH. apply handle_li_depth. exact H.
Qed.

(** X8.  Well-nested markup leaves the formatting state as it found it:
    at any point of a document outside script and style elements, after
    the handler calls of balanced markup the bold depth, the skip depth, the
    tag stack and the list depth are what they were before, so bold that an
    element switches on ends with its end tag. *)
Theorem html_balanced_markup_restores_formatting :
  forall (class_bold_map : dict bool) (css_vars : dict str)
         (before events : list html_event),
    _skip_depth (feed_events (init class_bold_map css_vars) before) = 0%Z ->
    balanced events ->
    formatting (feed_events (init class_bold_map css_vars) (before ++ events))
    = formatting (feed_events (init class_bold_map css_vars) before).
Proof.
  intros class_bold_map css_vars before events Hs Hb.
  rewrite feed_events_app. apply balanced_restores.
  - exact Hb.
  - lia.
  - apply (feed_events_depths before (init class_bold_map css_vars)).
    split; simpl; lia.
  - apply feed_events_li_depth. simpl. lia.
Qed.
End HtmlNesting.

(** ** Round trips of the byte decoder *)
Section DecoderRoundTrips.

Lemma text_byte_not_zero : forall x, text_byte x = true -> Byte.eqb x00 x = false.
Proof.
  intros x H. destruct (Byte.eqb x00 x) eqn:E; [|reflexivity].
  apply Byte.byte_dec_bl in E. subst x. discriminate H.
Qed.

Lemma text_byte_range : forall x,
  text_byte x = true -> (0 < Byte.to_N x < 128)%N.
Proof.
  intros x H. unfold text_byte in H. apply andb_true_iff in H.
  destruct H as [H1 H2]. apply N.ltb_lt in H1. apply N.ltb_lt in H2. lia.
Qed.

Lemma text_byte_not_bom : forall x (rest : bytes),
  text_byte x = true -> starts_with_bom (x :: rest) = false.
Proof.
  intros x rest H. apply text_byte_range in H.
  unfold starts_with_bom. cbn [startswith].
  destruct (Byte.eqb "255"%byte x) eqn:E1.
  { apply Byte.byte_dec_bl in E1. subst x. simpl in H. lia. }
  destruct (Byte.eqb "254"%byte x) eqn:E2.
  { apply Byte.byte_dec_bl in E2. subst x. simpl in H. lia. }
  reflexivity.
Qed.

(** *** The zero counts of padded text *)

Lemma indexed_cons : forall (A : Type) (l : list A) (x : A),
  even_indexed (x :: l) = x :: odd_indexed l
  /\ odd_indexed (x :: l) = even_indexed l.
Proof.
  intros A. induction l as [|y l IH]; intros x.
  - split; reflexivity.
  - destruct l as [|z l'].
    + split; reflexivity.
    + destruct (IH y) as [E1 E2]. split.
      * cbn [even_indexed]. rewrite E2. reflexivity.
      * cbn [odd_indexed]. rewrite E1. reflexivity.
Qed.

Lemma count_zero_cons : forall x (l : bytes),
  count_zero (x :: l)
  = ((if Byte.eqb x00 x then 1 else 0) + count_zero l)%Z.
Proof.
  intros x l. unfold count_zero, len. cbn [List.filter].
  change "000"%byte with x00.
  destruct (Byte.eqb x00 x); cbn [List.length]; lia.
Qed.

Lemma count_zero_nonneg : forall l : bytes, (0 <= count_zero l)%Z.
Proof. intros l. unfold count_zero, len. lia. Qed.

Lemma indexed_lengths : forall l : bytes,
  (len (odd_indexed l) <= len (even_indexed l) <= len (odd_indexed l) + 1)%Z
  /\ (len (even_indexed l) + len (odd_indexed l) = len l)%Z.
Proof.
  induction l as [|x l IH].
  - unfold len. simpl. lia.
  - destruct (indexed_cons _ l x) as [E1 E2]. rewrite E1, E2.
    unfold len in *. cbn [List.length]. lia.
Qed.

Lemma zero_run_counts : forall k,
  (count_zero (odd_indexed (repeat x00 k))
   <= count_zero (even_indexed (repeat x00 k))
   <= count_zero (odd_indexed (repeat x00 k)) + 1)%Z.
Proof.
  induction k as [|k IH].
  - unfold count_zero, len. simpl. lia.
  - cbn [repeat]. destruct (indexed_cons _ (repeat x00 k) x00) as [E1 E2].
    rewrite E1, E2, count_zero_cons.
    change (Byte.eqb x00 x00) with true. cbv iota. lia.
Qed.

Lemma padded_counts : forall (t : bytes) k,
  Forall (fun x => text_byte x = true) t ->
  (Z.abs (count_zero (even_indexed (t ++ repeat x00 k))
          - count_zero (odd_indexed (t ++ repeat x00 k))) <= 1)%Z.
Proof.
  intros t k Ht. induction Ht as [|x t Hx Ht IH].
  - pose proof (zero_run_counts k). simpl app. lia.
  - cbn [app]. destruct (indexed_cons _ (t ++ repeat x00 k) x) as [E1 E2].
    rewrite E1, E2, count_zero_cons, (text_byte_not_zero x Hx). cbv iota.
    lia.
Qed.

Lemma firstn_repeat : forall (A : Type) (x : A) n k,
  firstn n (repeat x k) = repeat x (Nat.min n k).
Proof.
  intros A x. induction n as [|n IH]; intros k; [reflexivity|].
  destruct k as [|k]; [reflexivity|]. simpl. rewrite IH. reflexivity.
Qed.

Lemma firstn_all_of : forall (A : Type) (P : A -> Prop) n (l : list A),
  Forall P l -> Forall P (firstn n l).
Proof.
  intros A P. induction n as [|n IH]; intros l H; [constructor|].
  destruct H as [|x l Hx Hl]; [constructor|].
  cbn [firstn]. constructor; [exact Hx|apply IH; exact Hl].
Qed.

Lemma sample_padded : forall (t : bytes) k,
  Forall (fun x => text_byte x = true) t ->
  exists t' k',
    sample_of (t ++ repeat x00 k) = t' ++ repeat x00 k'
    /\ Forall (fun x => text_byte x = true) t'.
Proof.
  intros t k Ht. unfold sample_of. rewrite firstn_app, firstn_repeat.
  eexists. eexists. split; [reflexivity|].
  apply firstn_all_of. exact Ht.
Qed.

(** Text padded with zero bytes is never taken for wide characters. *)
Lemma padded_not_wide : forall (t : bytes) k,
  Forall (fun x => text_byte x = true) t ->
  looks_like_utf16le (t ++ repeat x00 k) = false
  /\ looks_like_utf16be (t ++ repeat x00 k) = false.
Proof.
  intros t k Ht.
  destruct (sample_padded t k Ht) as [t' [k' [E Ht']]].
  unfold looks_like_utf16le, looks_like_utf16be. cbv zeta. rewrite E.
  set (sample := t' ++ repeat x00 k').
  pose proof (padded_counts t' k' Ht') as C. fold sample in C.
  pose proof (indexed_lengths sample) as [L1 L2].
  pose proof (count_zero_nonneg (even_indexed sample)).
  pose proof (count_zero_nonneg (odd_indexed sample)).
  destruct (len sample <? 8)%Z eqn:E8; [split; reflexivity|].
  apply Z.ltb_ge in E8.
  destruct (negb (truthy (even_indexed sample))
            || negb (truthy (odd_indexed sample))); [split; reflexivity|].
  unfold fraction_gt, fraction_lt. split.
  - apply andb_false_iff.
    destruct (55 * len (odd_indexed sample)
              <? 100 * count_zero (odd_indexed sample))%Z eqn:G;
      [|left; reflexivity].
    right. apply Z.ltb_lt in G. apply Z.ltb_ge. lia.
  - apply andb_false_iff.
    destruct (55 * len (even_indexed sample)
              <? 100 * count_zero (even_indexed sample))%Z eqn:G;
      [|left; reflexivity].
    right. apply Z.ltb_lt in G. apply Z.ltb_ge. lia.
Qed.

(** *** The trailing zero bytes *)

Lemma nul_run_matches : forall n bound i p pv (g : caps),
  (n < bound)%nat -> (1 <= i + n)%nat ->
  exists pv',
    rep_loop (exec (One (Byte.eqb "000"%byte))) true 1 None bound i
      {| pos := p; prev := pv; rest := repeat x00 n |} g
      (fun c' g' => exec Eos c' g' accept)
    = Some ({| pos := p + n; prev := pv'; rest := [] |}, g).
Proof.
  induction n as [|n IH]; intros bound i p pv g Hb Hi.
  - destruct bound as [|bound]; [lia|].
    exists pv. cbn [rep_loop repeat exec rest below].
    replace (Nat.leb 1 i) with true by (symmetry; apply Nat.leb_le; lia).
    rewrite Nat.add_0_r. reflexivity.
  - destruct bound as [|bound]; [lia|].
    destruct (IH bound (S i) (S p) (Some x00) g) as [pv' E]; [lia|lia|].
    exists pv'. cbn [rep_loop repeat exec rest below pos].
    change (Byte.eqb "000"%byte x00) with true. cbv iota.
    replace (Nat.eqb (S p) p) with false
      by (symmetry; apply Nat.eqb_neq; lia).
    rewrite andb_false_r.
    match goal with
    | |- match ?X with Some r => _ | None => _ end = _ =>
        replace X with (Some ({| pos := S p + n; prev := pv'; rest := [] |}, g))
          by (symmetry; exact E)
    end.
    replace (p + S n)%nat with (S p + n)%nat by lia. reflexivity.
Qed.

Lemma trailing_nul_at_text : forall x (s : bytes) p pv,
  Byte.eqb x00 x = false -> match_at trailing_nul_re p pv (x :: s) = None.
Proof.
  intros x s p pv Hx. unfold match_at, trailing_nul_re, plus.
  cbn [exec rep_loop rest Nat.add List.length below Nat.leb].
  change "000"%byte with x00. rewrite Hx. reflexivity.
Qed.

Lemma trailing_nul_at_run : forall n p pv,
  match_at trailing_nul_re p pv (repeat x00 (S n))
  = Some {| m_start := p; m_end := p + S n; m_caps := [] |}.
Proof.
  intros n p pv. unfold match_at.
  destruct (nul_run_matches (S n) (1 + S (List.length (repeat x00 (S n))))
              0 p pv []) as [pv' E].
  - rewrite repeat_length. lia.
  - lia.
  - match goal with
    | |- match ?X with Some _ => _ | None => _ end = _ =>
        replace X with (Some ({| pos := p + S n; prev := pv'; rest := [] |},
                              @nil (nat * (nat * nat))))
          by (symmetry; exact E)
    end.
    reflexivity.
Qed.

Lemma sub_from_skips : forall (r : re byte) (repl s : bytes) skip p pv,
  (List.length s <= skip)%nat -> sub_from r repl skip p pv s = [].
Proof.
  intros r repl. induction s as [|x s IH]; intros skip p pv H; [reflexivity|].
  destruct skip as [|skip]; [simpl in H; lia|].
  cbn [sub_from]. apply IH. simpl in H. lia.
Qed.

Lemma strip_trailing_nul : forall (t : bytes) k p pv,
  Forall (fun x => text_byte x = true) t ->
  sub_from trailing_nul_re [] 0 p pv (t ++ repeat x00 k) = t.
Proof.
  intros t k p pv Ht. revert p pv.
  induction Ht as [|x t Hx Ht IH]; intros p pv.
  - cbn [app]. destruct k as [|k]; [reflexivity|].
    change (sub_from trailing_nul_re [] 0 p pv (repeat x00 (S k)))
      with (match match_at trailing_nul_re p pv (repeat x00 (S k)) with
            | Some m =>
                if Nat.eqb (m_end m) p
                then x00 :: sub_from trailing_nul_re [] 0 (S p) (Some x00)
                              (repeat x00 k)
                else [] ++ sub_from trailing_nul_re [] (m_end m - p - 1)
                             (S p) (Some x00) (repeat x00 k)
            | None => x00 :: sub_from trailing_nul_re [] 0 (S p) (Some x00)
                               (repeat x00 k)
            end).
    rewrite trailing_nul_at_run. cbn [m_end].
    replace (Nat.eqb (p + S k) p) with false
      by (symmetry; apply Nat.eqb_neq; lia).
    apply sub_from_skips. rewrite repeat_length. lia.
  - cbn [app sub_from].
    rewrite (trailing_nul_at_text x _ p pv (text_byte_not_zero x Hx)).
    rewrite IH. reflexivity.
Qed.

(** *** The codecs on ASCII *)

Lemma utf8_ascii : forall t : bytes,
  Forall (fun x => text_byte x = true) t ->
  Codec.utf8 t = Some (List.map Byte.to_N t).
Proof.
  intros t Ht. unfold Codec.utf8.
  induction Ht as [|x t Hx Ht IH]; [reflexivity|].
  cbn [List.map Codec.utf8_from Codec.utf8_head].
  apply text_byte_range in Hx.
  replace (Byte.to_N x <? 128)%N with true
    by (symmetry; apply N.ltb_lt; lia).
  cbn [Nat.sub]. rewrite IH. reflexivity.
Qed.

Lemma find_nul_absent : forall (s : str) i,
  Forall (fun c => c <> NUL) s -> find_from N.eqb [NUL] s i = (-1)%Z.
Proof.
  intros s i H. revert i. induction H as [|c s Hc Hs IH]; intros i.
  - reflexivity.
  - cbn [find_from startswith].
    replace (N.eqb NUL c) with false
      by (symmetry; apply N.eqb_neq; congruence).
    cbn [andb]. apply IH.
Qed.

Lemma text_chars_clean : forall t : bytes,
  Forall (fun x => text_byte x = true) t ->
  contains N.eqb [NUL] (List.map Byte.to_N t) = false.
Proof.
  intros t Ht. unfold contains, find. rewrite find_nul_absent; [reflexivity|].
  apply Forall_map. apply Forall_impl with (2 := Ht).
  intros x Hx. apply text_byte_range in Hx. unfold NUL. lia.
Qed.

(** X9.  Round trip for ASCII text: the bytes of a non-empty text without
    the zero character, followed by any number of zero bytes (the
    terminator and padding of a clipboard buffer), decode to exactly that
    text. *)
Theorem decode_ascii_text_with_padding : forall (t : bytes) (k : nat),
  t <> [] -> Forall (fun x => text_byte x = true) t ->
  _decode_clipboard_bytes (t ++ repeat x00 k) = List.map Byte.to_N t.
Proof.
  intros t k Hne Ht. unfold _decode_clipboard_bytes.
  destruct t as [|x t']; [congruence|].
  cbn [app truthy negb]. cbv iota.
  change (x :: t' ++ repeat x00 k) with ((x :: t') ++ repeat x00 k).
  unfold decoding_plan. cbv zeta.
  destruct (padded_not_wide (x :: t') k Ht) as [Hle Hbe].
  rewrite Hle, Hbe.
  assert (Hbom : starts_with_bom ((x :: t') ++ repeat x00 k) = false).
  { apply text_byte_not_bom. inversion Ht; assumption. }
  rewrite Hbom. cbn [orb negb]. cbv iota.
  unfold sub. rewrite (strip_trailing_nul (x :: t') k 0 None Ht).
  cbn [first_decoding Codec.decode]. rewrite (utf8_ascii _ Ht).
  rewrite (text_chars_clean _ Ht). reflexivity.
Qed.
(** *** Wide characters *)

Lemma firstn_wide : forall n (t : bytes),
  firstn (2 * n) (wide t) = wide (firstn n t).
Proof.
  induction n as [|n IH]; intros t; [reflexivity|].
  destruct t as [|x t]; [reflexivity|].
  replace (2 * S n)%nat with (S (S (2 * n))) by lia.
  cbn [wide flat_map app firstn]. fold (wide t). fold (wide (firstn n t)).
  rewrite IH. reflexivity.
Qed.

Lemma indexed_wide : forall t : bytes,
  even_indexed (wide t) = t
  /\ odd_indexed (wide t) = repeat x00 (List.length t).
Proof.
  induction t as [|x t [E1 E2]]; [split; reflexivity|].
  cbn [wide flat_map app even_indexed odd_indexed List.length repeat].
  fold (wide t). rewrite E1, E2. split; reflexivity.
Qed.

Lemma count_zero_text : forall t : bytes,
  Forall (fun x => text_byte x = true) t -> count_zero t = 0%Z.
Proof.
  intros t Ht. induction Ht as [|x t Hx Ht IH]; [reflexivity|].
  rewrite count_zero_cons, (text_byte_not_zero x Hx), IH. reflexivity.
Qed.

Lemma count_zero_run : forall n, count_zero (repeat x00 n) = Z.of_nat n.
Proof.
  induction n as [|n IH]; [reflexivity|].
  cbn [repeat]. rewrite count_zero_cons, IH.
  change (Byte.eqb x00 x00) with true. cbv iota. lia.
Qed.

Lemma length_wide : forall t : bytes,
  List.length (wide t) = (2 * List.length t)%nat.
Proof.
  induction t as [|x t IH]; [reflexivity|].
  cbn [wide flat_map app List.length]. fold (wide t). rewrite IH. lia.
Qed.

Lemma wide_looks_wide : forall t : bytes,
  (4 <= List.length t)%nat -> Forall (fun x => text_byte x = true) t ->
  looks_like_utf16le (wide t) = true.
Proof.
  intros t Hlen Ht. unfold looks_like_utf16le, sample_of. cbv zeta.
  change 1024%nat with (2 * 512)%nat. rewrite firstn_wide.
  set (s := firstn 512 t).
  assert (Hs : Forall (fun x => text_byte x = true) s)
    by (apply firstn_all_of; exact Ht).
  assert (Ls : (4 <= List.length s)%nat)
    by (subst s; rewrite length_firstn; lia).
  destruct (indexed_wide s) as [E1 E2]. rewrite E1, E2.
  unfold len. rewrite length_wide, repeat_length.
  replace (Z.of_nat (2 * List.length s) <? 8)%Z with false
    by (symmetry; apply Z.ltb_ge; lia).
  rewrite count_zero_run, (count_zero_text s Hs).
  destruct s as [|x s']; [simpl in Ls; lia|].
  cbn [truthy repeat List.length negb orb]. cbv iota.
  unfold fraction_gt, fraction_lt.
  apply andb_true_iff. split; apply Z.ltb_lt; simpl List.length in *; lia.
Qed.

Lemma code_units_wide : forall t : bytes,
  Codec.code_units true (wide t) = Some (List.map Byte.to_N t).
Proof.
  induction t as [|x t IH]; [reflexivity|].
  cbn [wide flat_map app Codec.code_units List.map]. fold (wide t).
  rewrite IH. cbn [option_map]. change (Byte.to_N x00) with 0%N.
  rewrite N.mul_0_r, N.add_0_r. reflexivity.
Qed.

Lemma from_units_ascii : forall t : bytes,
  Forall (fun x => text_byte x = true) t ->
  Codec.from_units (List.map Byte.to_N t) = Some (List.map Byte.to_N t).
Proof.
  intros t Ht. induction Ht as [|x t Hx Ht IH]; [reflexivity|].
  cbn [List.map Codec.from_units]. apply text_byte_range in Hx.
  unfold Codec.in_range.
  replace (55296 <=? Byte.to_N x)%N with false
    by (symmetry; apply N.leb_gt; lia).
  replace (56320 <=? Byte.to_N x)%N with false
    by (symmetry; apply N.leb_gt; lia).
  cbn [andb]. cbv iota. rewrite IH. reflexivity.
Qed.

(** The decoder settles on the whole buffer and on the chain of codecs
    that begins with little-endian wide characters. *)
Lemma wide_decoding_plan : forall t : bytes,
  (4 <= List.length t)%nat -> Forall (fun x => text_byte x = true) t ->
  decoding_plan (wide t) = (wide t, LE_CHAIN).
Proof.
  intros t Hlen Ht. unfold decoding_plan. cbv zeta.
  rewrite (wide_looks_wide t Hlen Ht).
  assert (Hbom : starts_with_bom (wide t) = false).
  { destruct t as [|x t']; [reflexivity|].
    apply text_byte_not_bom. inversion Ht; assumption. }
  rewrite Hbom. cbn [orb negb]. cbv iota.
  unfold drop_odd_byte, len. rewrite length_wide.
  replace (Z.of_nat (2 * List.length t) mod 2 =? 1)%Z with false.
  2:{ symmetry. apply Z.eqb_neq.
      replace (Z.of_nat (2 * List.length t))
        with (Z.of_nat (List.length t) * 2)%Z by lia.
      rewrite Z.mod_mul by lia. lia. }
  reflexivity.
Qed.

(** X10.  Round trip for wide characters: an ASCII text of at least four
    characters, none of them zero, written as little-endian 16-bit code
    units, is recognised as such, by the test for little-endian wide
    characters and so by the choice of the buffer and of the codec chain,
    and decodes to exactly that text. *)
Theorem decode_wide_ascii_text : forall t : bytes,
  (4 <= List.length t)%nat -> Forall (fun x => text_byte x = true) t ->
  looks_like_utf16le (wide t) = true
  /\ decoding_plan (wide t) = (wide t, LE_CHAIN)
  /\ _decode_clipboard_bytes (wide t) = List.map Byte.to_N t.
Proof.
  intros t Hlen Ht.
  split; [exact (wide_looks_wide t Hlen Ht)|].
  split; [exact (wide_decoding_plan t Hlen Ht)|].
  unfold _decode_clipboard_bytes.
  assert (Hw : truthy (wide t) = true).
  { destruct t as [|x t']; [simpl in Hlen; lia|reflexivity]. }
  rewrite Hw. cbn [negb]. cbv iota.
  rewrite (wide_decoding_plan t Hlen Ht). unfold LE_CHAIN.
  cbn [first_decoding Codec.decode]. unfold Codec.utf16_order.
  rewrite code_units_wide, (from_units_ascii t Ht).
  rewrite (text_chars_clean _ Ht). reflexivity.
Qed.
End DecoderRoundTrips.

(** ** What the fragment extractors return *)
Section FragmentParts.
Context {U : Unicode}.

Lemma part_of_refl : forall (A : Type) (s : list A), part_of s s.
Proof. intros A s. exists [], []. rewrite app_nil_r. reflexivity. Qed.

Lemma part_of_nil : forall (A : Type) (s : list A), part_of [] s.
Proof. intros A s. exists [], s. reflexivity. Qed.

Lemma part_of_trans : forall (A : Type) (x y z : list A),
  part_of x y -> part_of y z -> part_of x z.
Proof.
  intros A x y z [b1 [a1 ->]] [b2 [a2 ->]].
  exists (b2 ++ b1), (a1 ++ a2). rewrite <- !app_assoc. reflexivity.
Qed.

Lemma slice_part_of : forall (A : Type) i j (s : list A),
  part_of (slice i j s) s.
Proof.
  intros A i j s. unfold slice.
  exists (firstn i s), (skipn (j - i) (skipn i s)).
  rewrite firstn_skipn, firstn_skipn. reflexivity.
Qed.

Lemma group_part_of : forall (A : Type) (s : list A) (m : rmatch) i,
  part_of (group_ s m i) s.
Proof.
  intros A s m i. unfold group_, group.
  destruct (get_cap i (m_caps m)) as [[a z]|].
  - apply slice_part_of.
  - apply part_of_nil.
Qed.

Lemma html_bytes_part : forall compact html_bytes : bytes,
  html_bytes_of compact = Returns html_bytes -> part_of html_bytes compact.
Proof.
  intros compact html_bytes. unfold html_bytes_of.
  assert (R : Returns compact = Returns html_bytes ->
              part_of html_bytes compact).
  { intros E. injection E as <-. apply part_of_refl. }
  destruct (header_digits "StartHTML:" compact) as [start_digits|];
    [|exact R].
  destruct (header_digits "EndHTML:" compact) as [end_digits|]; [|exact R].
  destruct (int_of_bytes start_digits) as [html_start|]; [|discriminate].
  destruct (int_of_bytes end_digits) as [html_end|]; [|discriminate].
  destruct (in_bounds html_start html_end (len compact)); [|exact R].
  intros E. injection E as <-. apply slice_part_of.
Qed.

(** X11.  The extractors never make up markup: the fragment that
    [_extract_html_fragment_from_text] returns is a contiguous part of the
    text it was given, and the markup range and the fragment range that
    [_read_clipboard_html_fragment] cuts are contiguous parts of the payload
    as it is after its trailing zero bytes are trimmed. *)
Theorem fragments_are_parts_of_the_markup :
  (forall html_text part : str,
      _extract_html_fragment_from_text html_text = Returns part ->
      part_of part html_text)
  /\ (forall raw_data html_bytes fragment_bytes : bytes,
        let compact := sub trailing_nul_re [] raw_data in
        html_bytes_of compact = Returns html_bytes ->
        fragment_bytes_of compact html_bytes = Returns fragment_bytes ->
        part_of html_bytes compact /\ part_of fragment_bytes compact).
Proof.
  split.
  - intros html_text part. unfold _extract_html_fragment_from_text.
    assert (B : Returns (body_or_whole html_text) = Returns part ->
                part_of part html_text).
    { intros E. injection E as <-. unfold body_or_whole.
      destruct (search body_re html_text);
        [apply group_part_of|apply part_of_refl]. }
    destruct (negb (truthy html_text)).
    { intros E. injection E as <-. apply part_of_nil. }
    destruct (search marker_re html_text) as [m|].
    { intros E. injection E as <-. apply group_part_of. }
    destruct (search offset_re html_text) as [m|]; [|exact B].
    destruct (int (group_ html_text m 1)) as [start|]; [|discriminate].
    destruct (int (group_ html_text m 2)) as [end_|]; [|discriminate].
    destruct (in_bounds start end_ (len html_text)); [|exact B].
    intros E. injection E as <-. apply slice_part_of.
  - intros raw_data html_bytes fragment_bytes compact Hh.
    pose proof (html_bytes_part compact html_bytes Hh) as P.
    intros Hf. split; [exact P|]. revert Hf. unfold fragment_bytes_of.
    assert (F : (let start := find Byte.eqb start_marker html_bytes in
                 let end_ := find Byte.eqb end_marker html_bytes in
                 if (negb (start =? -1) && negb (end_ =? -1)
                     && (start <? end_))%Z
                 then Returns (zslice (start + len start_marker) end_
                                      html_bytes)
                 else Returns html_bytes) = Returns fragment_bytes ->
                part_of fragment_bytes compact).
    { cbv zeta.
      destruct (negb (find Byte.eqb start_marker html_bytes =? -1)%Z
                && negb (find Byte.eqb end_marker html_bytes =? -1)%Z
                && (find Byte.eqb start_marker html_bytes
                    <? find Byte.eqb end_marker html_bytes)%Z);
        intros E; injection E as <-; [|exact P].
      eapply part_of_trans; [apply slice_part_of|exact P]. }
    destruct (header_digits "StartFragment:" compact) as [start_digits|];
      [|exact F].
    destruct (header_digits "EndFragment:" compact) as [end_digits|];
      [|exact F].
    destruct (int_of_bytes start_digits) as [start|]; [|discriminate].
    destruct (int_of_bytes end_digits) as [end_|]; [|discriminate].
    destruct (in_bounds start end_ (len compact));
      intros E; injection E as <-; [apply slice_part_of|exact P].
Qed.
End FragmentParts.

(** The trimmed payload need not be a part of the payload: the zero bytes
    go and the line feed after them stays. *)
Example trimmed_payload_not_a_part :
  sub trailing_nul_re [] zeros_before_newline = [ "a"; "b"; "010" ]%byte
  /\ ~ part_of (sub trailing_nul_re [] zeros_before_newline)
               zeros_before_newline.
Proof.
  assert (E : sub trailing_nul_re [] zeros_before_newline
              = [ "a"; "b"; "010" ]%byte) by (vm_compute; reflexivity).
  split; [exact E|]. rewrite E. intros [before [rest_ H]].
  unfold zeros_before_newline in H.
  do 6 (destruct before as [|? before];
        [cbn [app] in H; discriminate H|]).
  cbn [app] in H. discriminate H.
Qed.

(** ** Text normalizer and plain-text reader *)
Section TextNormalizer.

Lemma replace_from_all : forall (P : char -> Prop) (old new : str) s skip,
  Forall P s -> Forall P new ->
  Forall P (replace_from N.eqb old new skip s).
Proof.
  intros P old new s skip Hs Hnew. revert skip.
  induction Hs as [|x s Hx Hs IH]; intros skip; [constructor|].
  cbn [replace_from]. destruct skip as [|skip]; [|apply IH].
  destruct (startswith N.eqb old (x :: s)).
  - apply Forall_app. split; [exact Hnew|apply IH].
  - constructor; [exact Hx|apply IH].
Qed.

Lemma replace_char_removes : forall (c : char) (new s : str),
  Forall (fun x => x <> c) new ->
  Forall (fun x => x <> c) (replace N.eqb [c] new s).
Proof.
  intros c new s Hnew. unfold replace.
  induction s as [|x s IH]; [constructor|].
  cbn [replace_from startswith List.length Nat.sub].
  destruct (N.eqb_spec c x) as [E|E]; cbn [andb].
  - apply Forall_app. split; [exact Hnew|exact IH].
  - constructor; [congruence|exact IH].
Qed.

Lemma sub_from_all : forall (P : char -> Prop) (r : re char) (repl s : str)
                            skip p pv,
  Forall P s -> Forall P repl -> Forall P (sub_from r repl skip p pv s).
Proof.
  intros P r repl s skip p pv Hs Hrepl. revert skip p pv.
  induction Hs as [|x s Hx Hs IH]; intros skip p pv; [constructor|].
  cbn [sub_from]. destruct skip as [|skip]; [|apply IH].
  destruct (match_at r p pv (x :: s)) as [m|].
  - destruct (Nat.eqb (m_end m) p).
    + constructor; [exact Hx|apply IH].
    + apply Forall_app. split; [exact Hrepl|apply IH].
  - constructor; [exact Hx|apply IH].
Qed.

Lemma split1_all : forall (P : char -> Prop) (sep : char) (s : str),
  Forall P s -> Forall (Forall P) (split1 N.eqb sep s).
Proof.
  intros P sep s Hs. induction Hs as [|x s Hx Hs IH].
  - repeat constructor.
  - cbn [split1]. destruct (N.eqb x sep).
    + constructor; [constructor|exact IH].
    + destruct (split1 N.eqb sep s) as [|l ls].
      * repeat constructor. exact Hx.
      * inversion IH; subst. constructor; [constructor; assumption|assumption].
Qed.

Lemma join_all : forall (P : char -> Prop) (sep : str) (parts : list str),
  Forall (Forall P) parts -> Forall P sep -> Forall P (join sep parts).
Proof.
  intros P sep parts Hp Hsep. induction Hp as [|x rest Hx Hrest IH].
  - constructor.
  - destruct rest as [|y rest']; [exact Hx|].
    change (join sep (x :: y :: rest'))
      with (x ++ sep ++ join sep (y :: rest')).
    apply Forall_app. split; [exact Hx|].
    apply Forall_app. split; [exact Hsep|exact IH].
Qed.
End TextNormalizer.

(** ** Greedy repetition of a character class *)
Section GreedyRuns.

Lemma prev_after_cons : forall pv (x : char) (span : str),
  prev_after (Some x) span = prev_after pv (x :: span).
Proof.
  intros pv x span. unfold prev_after.
  destruct span as [|y run']; [reflexivity|].
  change (last_opt (x :: y :: run')) with (last_opt (y :: run')).
  destruct (last_opt (y :: run')) eqn:E; [reflexivity|].
  exfalso. revert E. clear. revert y.
  induction run' as [|z r IH]; intros y E; [discriminate|].
  apply (IH z). exact E.
Qed.

(** A greedy repetition of a class passes over a whole span of characters of
    the class, when what follows the repetition matches after the span. *)
Lemma greedy_run_then :
  forall (p : char -> bool) (lo : nat) (k : cont) (r : cursor * caps)
         (tail : str),
  match tail with y :: _ => p y = false | [] => True end ->
  forall (span : str) bound i p0 pv (g : caps),
  Forall (fun x => p x = true) span ->
  (List.length span < bound)%nat -> (lo <= i + List.length span)%nat ->
  k {| pos := p0 + List.length span; prev := prev_after pv span; rest := tail |} g
  = Some r ->
  rep_loop (exec (One p)) true lo None bound i
    {| pos := p0; prev := pv; rest := span ++ tail |} g k
  = Some r.
Proof.
  intros p lo k r tail Htail.
  induction span as [|x span IH]; intros bound i p0 pv g Hrun Hb Hi Hk.
  - destruct bound as [|bound]; [simpl in Hb; lia|].
    cbn [rep_loop app exec rest below List.length] in *.
    rewrite Nat.add_0_r in Hk.
    replace (Nat.leb lo i) with true by (symmetry; apply Nat.leb_le; lia).
    destruct tail as [|y tail']; [exact Hk|].
    rewrite Htail. exact Hk.
  - destruct bound as [|bound]; [simpl in Hb; lia|].
    inversion Hrun as [|x' run' Hx Hrun']; subst.
    cbn [rep_loop app exec rest below pos]. rewrite Hx.
    replace (Nat.eqb (S p0) p0) with false
      by (symmetry; apply Nat.eqb_neq; lia).
    rewrite andb_false_r.
    assert (E : rep_loop (exec (One p)) true lo None bound (S i)
                  {| pos := S p0; prev := Some x; rest := span ++ tail |} g k
                = Some r).
    { apply IH.
      - exact Hrun'.
      - simpl in Hb. lia.
      - simpl in Hi. lia.
      - rewrite (prev_after_cons pv x span).
        replace (S p0 + List.length span)%nat
          with (p0 + List.length (x :: span))%nat by (simpl; lia).
        exact Hk. }
    match goal with
    | |- match ?X with Some r0 => _ | None => _ end = _ =>
        replace X with (Some r) by (symmetry; exact E)
    end.
    reflexivity.
Qed.

(** The longest blank prefix of a text. *)
Lemma blank_span : forall s : str,
  exists span tail,
    s = span ++ tail /\ Forall (fun x => blank x = true) span
    /\ solid_head tail.
Proof.
  induction s as [|x s [span [tail [E [Hr Ht]]]]].
  - exists [], []. repeat split. constructor.
  - destruct (blank x) eqn:B.
    + exists (x :: span), tail. subst s. repeat split; [|exact Ht].
      constructor; assumption.
    + exists [], (x :: s). repeat split; [constructor|exact B].
Qed.

Lemma multispace_at_run : forall (span tail : str) p pv,
  Forall (fun x => blank x = true) span -> solid_head tail ->
  (2 <= List.length span)%nat ->
  match_at MULTISPACE_PATTERN p pv (span ++ tail)
  = Some {| m_start := p; m_end := p + List.length span; m_caps := [] |}.
Proof.
  intros span tail p pv Hrun Htail Hlen. unfold match_at.
  assert (E : exec MULTISPACE_PATTERN
                {| pos := p; prev := pv; rest := span ++ tail |} [] accept
              = Some ({| pos := p + List.length span;
                         prev := prev_after pv span; rest := tail |},
                      @nil (nat * (nat * nat)))).
  { unfold MULTISPACE_PATTERN, at_least. cbn [exec rest].
    apply greedy_run_then.
    - destruct tail; [exact I|exact Htail].
    - exact Hrun.
    - rewrite length_app. lia.
    - lia.
    - reflexivity. }
  rewrite E. reflexivity.
Qed.

Lemma multispace_at_solid : forall (s : str) p pv,
  solid_head s -> match_at MULTISPACE_PATTERN p pv s = None.
Proof.
  intros s p pv Hs. unfold match_at, MULTISPACE_PATTERN, at_least.
  destruct s as [|y t]; [reflexivity|].
  cbn [exec rep_loop rest Nat.add List.length below Nat.leb].
  cbn [solid_head] in Hs. rewrite Hs. reflexivity.
Qed.

Lemma multispace_at_single : forall (x : char) (t : str) p pv,
  solid_head t -> match_at MULTISPACE_PATTERN p pv (x :: t) = None.
Proof.
  intros x t p pv Ht. unfold match_at, MULTISPACE_PATTERN, at_least.
  cbn [exec rep_loop rest Nat.add List.length below Nat.leb pos].
  destruct (blank x); [|reflexivity].
  cbn [andb]. cbv iota.
  destruct t as [|y t']; [reflexivity|].
  cbn [rep_loop rest below Nat.leb]. cbn [solid_head] in Ht. rewrite Ht.
  reflexivity.
Qed.
End GreedyRuns.

Section Squeeze.

Lemma sub_from_skip_prefix : forall (r : re char) (repl l t : str) p pv,
  sub_from r repl (List.length l) p pv (l ++ t)
  = sub_from r repl 0 (p + List.length l) (prev_after pv l) t.
Proof.
  intros r repl. induction l as [|x l IH]; intros t p pv.
  - cbn [List.length app]. rewrite Nat.add_0_r. reflexivity.
  - cbn [List.length app sub_from]. rewrite IH.
    rewrite (prev_after_cons pv x l).
    replace (S p + List.length l)%nat with (p + S (List.length l))%nat by lia.
    reflexivity.
Qed.

Lemma sub_from_step : forall (r : re char) (repl : str) (x : char) (t : str)
                             p pv,
  sub_from r repl 0 p pv (x :: t)
  = match match_at r p pv (x :: t) with
    | Some m =>
        if Nat.eqb (m_end m) p
        then x :: sub_from r repl 0 (S p) (Some x) t
        else repl ++ sub_from r repl (m_end m - p - 1) (S p) (Some x) t
    | None => x :: sub_from r repl 0 (S p) (Some x) t
    end.
Proof. reflexivity. Qed.

Lemma sub_multispace_solid : forall (y : char) (t : str) p pv,
  blank y = false ->
  sub_from MULTISPACE_PATTERN [SPACE] 0 p pv (y :: t)
  = y :: sub_from MULTISPACE_PATTERN [SPACE] 0 (S p) (Some y) t.
Proof.
  intros y t p pv Hy. rewrite sub_from_step.
  rewrite (multispace_at_solid (y :: t) p pv Hy). reflexivity.
Qed.

Lemma single_blanks_cons : forall (x : char) (s : str),
  (blank x = true -> solid_head s) -> single_blanks s ->
  single_blanks (x :: s).
Proof.
  intros x s H1 H2. destruct s as [|y s']; [exact I|].
  split; [exact H1|exact H2].
Qed.

Lemma sub_multispace_head : forall (s : str) p pv,
  solid_head s -> solid_head (sub_from MULTISPACE_PATTERN [SPACE] 0 p pv s).
Proof.
  intros s p pv Hs. destruct s as [|y t]; [exact I|].
  cbn [solid_head] in Hs. rewrite (sub_multispace_solid y t p pv Hs).
  exact Hs.
Qed.

Lemma sub_multispace_single : forall n (s : str) p pv,
  (List.length s <= n)%nat ->
  single_blanks (sub_from MULTISPACE_PATTERN [SPACE] 0 p pv s).
Proof.
  induction n as [|n IH]; intros s p pv Hn.
  - destruct s; [exact I|simpl in Hn; lia].
  - destruct s as [|x t]; [exact I|].
    assert (Ht : (List.length t <= n)%nat) by (simpl in Hn; lia).
    destruct (blank x) eqn:Bx.
    + destruct (blank_span t) as [span [tail [E [Hrun Htail]]]].
      destruct span as [|y run'].
      * cbn [app] in E. subst tail. rewrite sub_from_step.
        rewrite (multispace_at_single x t p pv Htail).
        apply single_blanks_cons.
        -- intros _. apply sub_multispace_head. exact Htail.
        -- apply IH. exact Ht.
      * subst t.
        change (x :: (y :: run') ++ tail) with ((x :: y :: run') ++ tail).
        assert (Hr : Forall (fun c => blank c = true) (x :: y :: run'))
          by (constructor; assumption).
        pose proof (multispace_at_run (x :: y :: run') tail p pv Hr Htail)
          as M.
        change ((x :: y :: run') ++ tail) with (x :: (y :: run') ++ tail)
          in *.
        rewrite sub_from_step, M by (simpl; lia).
        cbn [m_end].
        replace (Nat.eqb (p + List.length (x :: y :: run')) p) with false
          by (symmetry; apply Nat.eqb_neq; simpl; lia).
        replace (p + List.length (x :: y :: run') - p - 1)%nat
          with (List.length (y :: run')) by (simpl; lia).
        rewrite sub_from_skip_prefix.
        cbn [app]. apply single_blanks_cons.
        -- intros _. apply sub_multispace_head. exact Htail.
        -- apply IH. rewrite length_app in Ht. lia.
    + rewrite (sub_multispace_solid x t p pv Bx).
      apply single_blanks_cons; [intros B; congruence|].
      apply IH. exact Ht.
Qed.

Lemma sub_multispace_fixed : forall (s : str) p pv,
  single_blanks s -> sub_from MULTISPACE_PATTERN [SPACE] 0 p pv s = s.
Proof.
  induction s as [|x t IH]; intros p pv Hs; [reflexivity|].
  assert (Ht : single_blanks t) by (destruct t; [exact I|exact (proj2 Hs)]).
  destruct (blank x) eqn:Bx.
  - assert (Hh : solid_head t).
    { destruct t as [|y t']; [exact I|]. apply (proj1 Hs). exact Bx. }
    rewrite sub_from_step. rewrite (multispace_at_single x t p pv Hh).
    rewrite IH by exact Ht. reflexivity.
  - rewrite (sub_multispace_solid x t p pv Bx).
    rewrite IH by exact Ht. reflexivity.
Qed.
End Squeeze.

Section NormalText.

Lemma replace_absent : forall (c : char) (old new s : str),
  Forall (fun x => x <> c) s -> replace N.eqb (c :: old) new s = s.
Proof.
  intros c old new s Hs. unfold replace.
  induction Hs as [|x s Hx Hs IH]; [reflexivity|].
  cbn [replace_from startswith].
  replace (N.eqb c x) with false by (symmetry; apply N.eqb_neq; congruence).
  cbn [andb]. rewrite IH. reflexivity.
Qed.

Lemma split1_nonempty : forall (sep : char) (s : str),
  split1 N.eqb sep s <> [].
Proof.
  intros sep s. destruct s as [|c t]; [discriminate|].
  cbn [split1]. destruct (N.eqb c sep); [discriminate|].
  destruct (split1 N.eqb sep t); discriminate.
Qed.

Lemma join_cons_head : forall (A : Type) (sep : list A) (c : A) (l : list A)
                              (ls : list (list A)),
  join sep ((c :: l) :: ls) = c :: join sep (l :: ls).
Proof. intros A sep c l ls. destruct ls; reflexivity. Qed.

Lemma join_split1 : forall (sep : char) (s : str),
  join [sep] (split1 N.eqb sep s) = s.
Proof.
  intros sep. induction s as [|c t IH]; [reflexivity|].
  cbn [split1]. destruct (N.eqb_spec c sep) as [E|E].
  - subst c. pose proof (split1_nonempty sep t) as Hne.
    destruct (split1 N.eqb sep t) as [|l ls]; [congruence|].
    change (sep :: join [sep] (l :: ls) = sep :: t). f_equal. exact IH.
  - pose proof (split1_nonempty sep t) as Hne.
    destruct (split1 N.eqb sep t) as [|l ls]; [congruence|].
    cbv iota. rewrite join_cons_head. f_equal. exact IH.
Qed.

Lemma split1_line : forall (sep : char) (x : str),
  Forall (fun c => c <> sep) x -> split1 N.eqb sep x = [x].
Proof.
  intros sep x Hx. induction Hx as [|c t Hc Ht IH]; [reflexivity|].
  cbn [split1].
  replace (N.eqb c sep) with false by (symmetry; apply N.eqb_neq; exact Hc).
  rewrite IH. reflexivity.
Qed.

Lemma split1_app : forall (sep : char) (x r : str),
  Forall (fun c => c <> sep) x ->
  split1 N.eqb sep (x ++ sep :: r) = x :: split1 N.eqb sep r.
Proof.
  intros sep x r Hx. induction Hx as [|c t Hc Ht IH].
  - cbn [app split1]. rewrite N.eqb_refl. reflexivity.
  - cbn [app split1].
    replace (N.eqb c sep) with false by (symmetry; apply N.eqb_neq; exact Hc).
    rewrite IH. reflexivity.
Qed.

Lemma split1_join : forall (sep : char) (parts : list str),
  parts <> [] -> Forall (Forall (fun c => c <> sep)) parts ->
  split1 N.eqb sep (join [sep] parts) = parts.
Proof.
  intros sep parts Hne Hp. revert Hne.
  induction Hp as [|x rest Hx Hrest IH]; intros Hne;
    [exfalso; apply Hne; reflexivity|].
  destruct rest as [|y rest'].
  - apply split1_line. exact Hx.
  - change (join [sep] (x :: y :: rest'))
      with (x ++ sep :: join [sep] (y :: rest')).
    rewrite split1_app by exact Hx. rewrite IH by discriminate. reflexivity.
Qed.

Lemma split1_lines : forall (sep : char) (s : str),
  Forall (Forall (fun c => c <> sep)) (split1 N.eqb sep s).
Proof.
  intros sep. induction s as [|c t IH]; [repeat constructor|].
  cbn [split1]. destruct (N.eqb_spec c sep) as [E|E].
  - constructor; [constructor|exact IH].
  - destruct (split1 N.eqb sep t) as [|l ls]; [repeat constructor; exact E|].
    inversion IH; subst. constructor; [constructor; assumption|assumption].
Qed.

(** What the four replacements leave. *)
Lemma replaced_plain : forall text : str,
  Forall plain_char
    (replace N.eqb [8239%N] [SPACE]
       (replace N.eqb [160%N] [SPACE]
          (replace N.eqb [CR] [LF] (replace N.eqb [CR; LF] [LF] text)))).
Proof.
  intros text.
  set (s1 := replace N.eqb [CR; LF] [LF] text).
  assert (H2 : Forall (fun x => x <> CR) (replace N.eqb [CR] [LF] s1)).
  { apply replace_char_removes. repeat constructor. discriminate. }
  set (s2 := replace N.eqb [CR] [LF] s1) in *.
  assert (H3 : Forall (fun x => x <> CR /\ x <> 160%N)
                 (replace N.eqb [160%N] [SPACE] s2)).
  { apply Forall_and.
    - apply replace_from_all; [exact H2|repeat constructor; discriminate].
    - apply replace_char_removes. repeat constructor. discriminate. }
  set (s3 := replace N.eqb [160%N] [SPACE] s2) in *.
  apply Forall_and_inv in H3. destruct H3 as [H3a H3b].
  unfold plain_char.
  apply Forall_and; [|apply Forall_and].
  - apply replace_from_all; [exact H3a|repeat constructor; discriminate].
  - apply replace_from_all; [exact H3b|repeat constructor; discriminate].
  - apply replace_char_removes. repeat constructor. discriminate.
Qed.

Lemma squeezed_lines : forall lines : list str,
  Forall (Forall (fun c => c <> LF)) lines ->
  Forall (Forall (fun c => c <> LF))
    (List.map (sub MULTISPACE_PATTERN [SPACE]) lines).
Proof.
  intros lines H. induction H as [|x rest Hx Hrest IH]; [constructor|].
  cbn [List.map]. constructor; [|exact IH].
  unfold sub. apply sub_from_all; [exact Hx|repeat constructor; discriminate].
Qed.

Lemma normalize_text_normal : forall text : str,
  normal_text (_normalize_captured_text text).
Proof.
  intros text. unfold _normalize_captured_text, normal_text. cbv zeta.
  pose proof (replaced_plain text) as Hp.
  set (s := replace N.eqb [8239%N] [SPACE] _) in *.
  split.
  - apply join_all; [|repeat constructor; discriminate].
    pose proof (split1_all plain_char LF s Hp) as Hl.
    induction Hl as [|x rest Hx Hrest IH]; [constructor|].
    cbn [List.map]. constructor; [|exact IH].
    unfold sub. apply sub_from_all; [exact Hx|].
    repeat constructor; discriminate.
  - rewrite split1_join.
    + apply Forall_forall. intros line Hin. apply in_map_iff in Hin.
      destruct Hin as [l [<- _]]. unfold sub.
      apply (sub_multispace_single (List.length l)). lia.
    + pose proof (split1_nonempty LF s) as Hne.
      destruct (split1 N.eqb LF s); [congruence|discriminate].
    + apply squeezed_lines. apply split1_lines.
Qed.

Lemma normal_text_fixed : forall s : str,
  normal_text s -> _normalize_captured_text s = s.
Proof.
  intros s [Hp Hl]. unfold _normalize_captured_text. cbv zeta.
  assert (Hcr : Forall (fun x => x <> CR) s)
    by (apply Forall_impl with (2 := Hp); intros a H; apply H).
  assert (Hnb : Forall (fun x => x <> 160%N) s)
    by (apply Forall_impl with (2 := Hp); intros a H; apply H).
  assert (Hnn : Forall (fun x => x <> 8239%N) s)
    by (apply Forall_impl with (2 := Hp); intros a H; apply H).
  rewrite (replace_absent CR [LF] [LF] s Hcr).
  rewrite (replace_absent CR [] [LF] s Hcr).
  replace (replace N.eqb [160%N] [SPACE] s) with s
    by (symmetry; exact (replace_absent 160%N [] [SPACE] s Hnb)).
  replace (replace N.eqb [8239%N] [SPACE] s) with s
    by (symmetry; exact (replace_absent 8239%N [] [SPACE] s Hnn)).
  replace (List.map (sub MULTISPACE_PATTERN [SPACE]) (split1 N.eqb LF s))
    with (split1 N.eqb LF s).
  - apply join_split1.
  - induction Hl as [|x rest Hx Hrest IH]; [reflexivity|].
    cbn [List.map]. rewrite <- IH. unfold sub.
    rewrite (sub_multispace_fixed x 0 None Hx). reflexivity.
Qed.

(** X12.  What the text normalizer returns is in normal form: it holds no
    carriage return, no no-break space and no narrow no-break space, and on
    none of its lines two blanks (spaces or tabs) side by side. *)
Theorem normalized_text_is_normal : forall text : str,
  Forall plain_char (_normalize_captured_text text)
  /\ Forall single_blanks
       (split1 N.eqb LF (_normalize_captured_text text)).
Proof. intros text. apply normalize_text_normal. Qed.

(** X13.  The text normalizer leaves a text in normal form as it is, and so
    it is idempotent: a second pass changes nothing. *)
Theorem normalize_text_idempotent :
  (forall s : str, normal_text s -> _normalize_captured_text s = s)
  /\ (forall text : str,
        _normalize_captured_text (_normalize_captured_text text)
        = _normalize_captured_text text).
Proof.
  split; [exact normal_text_fixed|].
  intros text. apply normal_text_fixed. apply normalize_text_normal.
Qed.
End NormalText.

(** ** Plain-text reader *)
Section PlainText.

Lemma lstrip_by_idem : forall (p : char -> bool) (s : str),
  lstrip_by p (lstrip_by p s) = lstrip_by p s.
Proof.
  intros p. induction s as [|c t IH]; [reflexivity|].
  cbn [lstrip_by]. destruct (p c) eqn:E; [exact IH|].
  cbn [lstrip_by]. rewrite E. reflexivity.
Qed.

Lemma lstrip_by_all : forall (P : char -> Prop) (p : char -> bool) (s : str),
  Forall P s -> Forall P (lstrip_by p s).
Proof.
  intros P p s H. induction H as [|c t Hc Ht IH]; [constructor|].
  cbn [lstrip_by]. destruct (p c); [exact IH|constructor; assumption].
Qed.

Lemma strip_all : forall (P : char -> Prop) (s : str),
  Forall P s -> Forall P (strip s).
Proof.
  intros P s H. unfold strip, rstrip, rstrip_by, lstrip.
  apply Forall_rev. apply lstrip_by_all. apply Forall_rev.
  apply lstrip_by_all. exact H.
Qed.

Lemma strip_idempotent : forall s : str, strip (strip s) = strip s.
Proof.
  intros s. unfold strip at 1 3.
  assert (L : lstrip (rstrip (lstrip s)) = rstrip (lstrip s)).
  { destruct (lstrip s) as [|c r] eqn:E; [reflexivity|].
    pose proof (lstrip_head s c r E) as Hc.
    destruct (rstrip_solid c r Hc) as [r' E']. rewrite E'.
    unfold lstrip. cbn [lstrip_by]. rewrite Hc. reflexivity. }
  unfold strip. rewrite L. unfold rstrip, rstrip_by.
  rewrite rev_involutive, lstrip_by_idem. reflexivity.
Qed.

(** X14.  The plain text read from the clipboard is never empty, has no
    white space at either end (stripping it again changes nothing), and
    holds no carriage return, no-break space or narrow no-break space. *)
Theorem clipboard_text_is_clean : forall (cb : clipboard) (t : str),
  _read_clipboard_text cb = Some t ->
  t <> [] /\ strip t = t /\ Forall plain_char t.
Proof.
  intros cb t. unfold _read_clipboard_text.
  destruct (clipboard_get cb) as [raw|]; [|discriminate].
  cbv zeta.
  destruct (truthy (strip (_normalize_captured_text raw))) eqn:T;
    [|discriminate].
  intros E. injection E as <-. split; [|split].
  - intros Z. rewrite Z in T. discriminate.
  - apply strip_idempotent.
  - apply strip_all. apply normalize_text_normal.
Qed.
End PlainText.

(** ** What the reconciler returns *)
Section CaptureShape.
Context {U : Unicode} {L : Library}.

Lemma score_candidate_runs : forall payload canonical_plain_text candidate
                                   rs s similarity,
  score_candidate payload canonical_plain_text candidate
  = Some (rs, s, similarity) ->
  runs_text rs <> [] /\ Forall (fun r : run => fst r <> []) rs.
Proof.
  intros payload canonical_plain_text candidate rs s similarity.
  unfold score_candidate.
  destruct (html_feed candidate) as [events|]; [|discriminate].
  cbv zeta.
  set (parsed := _normalize_captured_runs _).
  destruct (truthy parsed); cbn [negb]; cbv iota; [|discriminate].
  destruct (truthy (runs_text parsed)) eqn:T; cbn [negb]; cbv iota;
    [|discriminate].
  intros H. injection H as <- _ _. split.
  - intros Z. rewrite Z in T. discriminate.
  - apply normalized_texts_nonempty.
Qed.

Lemma html_capture_shape : forall cb canonical_plain_text c,
  html_capture_of cb canonical_plain_text = Returns (Some c) ->
  well_formed_capture c /\ source c = SourceHtml.
Proof.
  intros cb canonical_plain_text c. unfold html_capture_of.
  destruct (_read_clipboard_html_fragment (html_format_bytes cb))
    as [[payload|]|]; [|discriminate|discriminate].
  destruct (fragment_candidates_of payload) as [candidates|];
    [|discriminate].
  unfold capture_of_candidates.
  pose proof (best_of_all payload canonical_plain_text candidates) as Inv.
  destruct (fold_left (consider payload canonical_plain_text)
                      candidates best_init)
    as [[best_runs best_score] best_similarity].
  destruct best_runs as [rs|]; [|discriminate].
  cbn [best_of] in Inv. destruct Inv as [[candidate [_ Hs]] _].
  destruct (score_candidate_runs _ _ _ _ _ _ Hs) as [Ht Hr].
  destruct (truthy rs && _); [|discriminate].
  intros E. injection E as <-.
  unfold well_formed_capture. cbn [text runs source signature detail].
  repeat split; assumption.
Qed.

Lemma rtf_capture_shape : forall cb c,
  rtf_capture_of cb = Some c ->
  well_formed_capture c /\ source c = SourceRtf.
Proof.
  intros cb c. unfold rtf_capture_of. cbv zeta.
  assert (Hr : Forall (fun r : run => fst r <> [])
                 (_read_clipboard_rtf_runs (rtf_format_bytes cb))).
  { unfold _read_clipboard_rtf_runs.
    destruct (rtf_format_bytes cb) as [raw_data|]; [|constructor].
    destruct (negb (truthy raw_data)); [constructor|]. cbv zeta.
    destruct (negb (truthy (_decode_clipboard_bytes raw_data)));
      [constructor|].
    destruct (ClipboardRtfRunParser.parse _); [|constructor].
    apply normalized_texts_nonempty. }
  destruct (truthy (_read_clipboard_rtf_runs (rtf_format_bytes cb)));
    [|discriminate].
  destruct (truthy (runs_text (_read_clipboard_rtf_runs (rtf_format_bytes cb))))
    eqn:T; [|discriminate].
  intros E. injection E as <-.
  unfold well_formed_capture. cbn [text runs source signature detail].
  repeat split; try assumption.
  intros Z. rewrite Z in T. discriminate.
Qed.

(** X15.  Whatever the clipboard holds, a capture that the reconciler
    returns is well formed: its text is not empty and is the concatenation
    of its runs, none of its runs is empty, a capture from markup or from
    the legacy format carries the signature of its runs and no detail, and
    a plain-text capture is one run that is not bold, with the text as
    signature and with a diagnostic detail. *)
Theorem capture_is_well_formed : forall (cb : clipboard) (c : capture),
  _read_clipboard_capture cb = Returns (Some c) -> well_formed_capture c.
Proof.
  intros cb c. unfold _read_clipboard_capture. cbv zeta.
  destruct (html_capture_of cb _) as [[h|]|] eqn:Eh; [| |discriminate];
    unfold choose_capture.
  - apply html_capture_shape in Eh. destruct Eh as [Wh _].
    destruct (has_bold_run (runs h)).
    + intros E. injection E as <-. exact Wh.
    + destruct (rtf_capture_of cb) as [r|] eqn:Er.
      * apply rtf_capture_shape in Er. destruct Er as [Wr _].
        destruct (has_bold_run (runs r)); intros E; injection E as <-;
          assumption.
      * intros E. injection E as <-. exact Wh.
  - destruct (rtf_capture_of cb) as [r|] eqn:Er.
    + apply rtf_capture_shape in Er. destruct Er as [Wr _].
      intros E. injection E as <-. exact Wr.
    + destruct (_read_clipboard_text cb) as [t|]; [|discriminate].
      destruct (truthy t) eqn:T; cbn [negb]; cbv iota; [|discriminate].
      intros E. injection E as <-.
      assert (Hne : t <> []) by (intros Z; rewrite Z in T; discriminate).
      unfold well_formed_capture. cbn [text runs source signature detail].
      repeat split.
      * exact Hne.
      * unfold runs_text. simpl. rewrite app_nil_r. reflexivity.
      * constructor; [exact Hne|constructor].
      * discriminate.
Qed.
End CaptureShape.

(** ** Automatic capture *)
Section AutoCaptureProperties.
Context {U : Unicode} {L : Library}.

Lemma source_eqb_refl : forall s, source_eqb s s = true.
Proof. intros []; reflexivity. Qed.

Lemma str_eqb_refl : forall s : str, str_eqb s s = true.
Proof. intros s. apply str_eqb_eq. reflexivity. Qed.

Lemma runs_eqb_refl : forall rs : list run, runs_eqb rs rs = true.
Proof.
  induction rs as [|[t b0] rest IH]; [reflexivity|].
  cbn [runs_eqb]. unfold run_eqb. cbn [fst snd].
  rewrite str_eqb_refl, eqb_reflx, IH. reflexivity.
Qed.

Lemma signature_eqb_refl : forall sig, signature_eqb sig sig = true.
Proof.
  intros [s rs|t]; cbn [signature_eqb].
  - rewrite source_eqb_refl, runs_eqb_refl. reflexivity.
  - apply str_eqb_refl.
Qed.

(** X16.  While the clipboard does not change, the watcher appends its
    content at most once, however often the timer fires: after one tick,
    further ticks on the same clipboard change nothing, neither the text
    nor the remembered signature nor the status. *)
Theorem watch_tick_appends_once : forall (cb : clipboard) (a : NotatApp) (n : nat),
  Nat.iter n (_clipboard_watch_tick cb) (_clipboard_watch_tick cb a)
  = _clipboard_watch_tick cb a.
Proof.
  intros cb a n.
  assert (Once : _clipboard_watch_tick cb (_clipboard_watch_tick cb a)
                 = _clipboard_watch_tick cb a).
  { unfold _clipboard_watch_tick at 2 3.
    destruct (auto_capture_enabled a) eqn:En.
    - destruct (_read_clipboard_capture cb) as [[c|]|] eqn:Ec.
      + destruct (signature_differs (signature c)
                    (_last_clipboard_signature a)) eqn:D.
        * unfold _clipboard_watch_tick.
          cbn [auto_capture_enabled _last_clipboard_signature].
          rewrite Ec. cbn [signature_differs].
          rewrite signature_eqb_refl. reflexivity.
        * unfold _clipboard_watch_tick. rewrite En, Ec, D. reflexivity.
      + unfold _clipboard_watch_tick. rewrite En, Ec. reflexivity.
      + unfold _clipboard_watch_tick. rewrite En, Ec. reflexivity.
    - unfold _clipboard_watch_tick. rewrite En. reflexivity. }
  induction n as [|n IH]; [reflexivity|].
  rewrite Nat.iter_succ, IH. exact Once.
Qed.

(** X17.  Switching automatic capture on does not capture what is on the
    clipboard already: it remembers the signature of the current content,
    and the ticks that follow on the same clipboard append nothing. *)
Theorem enabling_skips_current_content :
  forall (cb : clipboard) (a : NotatApp) (n : nat),
  auto_capture_enabled a = false ->
  appended_captures
    (Nat.iter n (_clipboard_watch_tick cb) (toggle_auto_capture cb a))
  = appended_captures a
  /\ auto_capture_enabled
       (Nat.iter n (_clipboard_watch_tick cb) (toggle_auto_capture cb a))
     = true.
Proof.
  intros cb a n Hoff.
  assert (Fix : _clipboard_watch_tick cb (toggle_auto_capture cb a)
                = toggle_auto_capture cb a).
  { unfold toggle_auto_capture. rewrite Hoff. cbn [negb]. cbv iota zeta.
    unfold _clipboard_watch_tick.
    destruct (_read_clipboard_capture cb) as [[c|]|];
      cbn [auto_capture_enabled _last_clipboard_signature];
      [|reflexivity|reflexivity].
    cbn [signature_differs]. rewrite signature_eqb_refl. reflexivity. }
  assert (All : Nat.iter n (_clipboard_watch_tick cb)
                  (toggle_auto_capture cb a)
                = toggle_auto_capture cb a).
  { induction n as [|n IH]; [reflexivity|].
    rewrite Nat.iter_succ, IH. exact Fix. }
  rewrite All. unfold toggle_auto_capture. rewrite Hoff. cbn [negb].
  cbv iota zeta. destruct (_read_clipboard_capture cb); split; reflexivity.
Qed.
End AutoCaptureProperties.

(** ** Bullet lines *)
Section BulletLines.

Lemma width_of_spaces : forall n (w : Z),
  List.fold_left
    (fun (width : Z) (ch : char) =>
       if N.eqb ch TAB
       then (width + (BULLET_INDENT_SPACES - width mod BULLET_INDENT_SPACES))%Z
       else (width + 1)%Z)
    (repeat SPACE n) w
  = (w + Z.of_nat n)%Z.
Proof.
  induction n as [|n IH]; intros w.
  - cbn [repeat fold_left]. lia.
  - cbn [repeat fold_left]. change (N.eqb SPACE TAB) with false. cbv iota.
    rewrite IH. lia.
Qed.

Lemma level_of_spaces : forall level : Z,
  (0 <= level)%Z ->
  _bullet_level_from_indent
    (repeat SPACE (Z.to_nat (level * BULLET_INDENT_SPACES)))
  = level.
Proof.
  intros level H. unfold _bullet_level_from_indent. cbv zeta.
  rewrite width_of_spaces. unfold BULLET_INDENT_SPACES.
  rewrite Z2Nat.id by lia. rewrite Z.add_0_l, Z.div_mul by lia. lia.
Qed.

Lemma marker_for_level_char : forall level : Z,
  exists m, _bullet_marker_for_level level = [m]
            /\ bullet_marker_char m = true /\ blank m = false.
Proof.
  intros level. unfold _bullet_marker_for_level. cbv zeta.
  set (l := if (level <? 0)%Z then 0%Z else level).
  assert (Hl : (0 <= l)%Z) by (subst l; destruct (level <? 0)%Z eqn:E;
    [lia|apply Z.ltb_ge in E; exact E]).
  change (len BULLET_MARKERS - 1)%Z with 3%Z.
  assert (C : Z.to_nat (Z.min l 3) = 0%nat \/ Z.to_nat (Z.min l 3) = 1%nat
              \/ Z.to_nat (Z.min l 3) = 2%nat \/ Z.to_nat (Z.min l 3) = 3%nat)
    by lia.
  destruct C as [C|[C|[C|C]]]; rewrite C; eexists;
    (split; [reflexivity|split; reflexivity]).
Qed.

Lemma bullet_line_matches : forall n (m : char) (content : str),
  bullet_marker_char m = true -> blank m = false ->
  rematch BULLET_LINE_PATTERN (repeat SPACE n ++ m :: SPACE :: content)
  = Some {| m_start := 0; m_end := n + 2;
            m_caps := [(1%nat, (0%nat, n)); (2%nat, (n, S n))] |}.
Proof.
  intros n m content Hm Hb. unfold rematch, match_at.
  assert (E : exec BULLET_LINE_PATTERN
                {| pos := 0; prev := None;
                   rest := repeat SPACE n ++ m :: SPACE :: content |}
                [] accept
              = Some ({| pos := n + 2; prev := Some SPACE; rest := content |},
                      [(1%nat, (0%nat, n)); (2%nat, (n, S n))])).
  { unfold BULLET_LINE_PATTERN, star. cbn [cat exec rest].
    apply greedy_run_then.
    - exact Hb.
    - apply Forall_forall. intros x Hx. apply repeat_spec in Hx. subst x.
      reflexivity.
    - rewrite length_app, repeat_length. cbn [List.length]. lia.
    - lia.
    - rewrite repeat_length. cbn [pos rest Nat.add set_cap].
      rewrite Hm. unfold ws. cbn [exec pos rest set_cap Nat.eqb].
      change (isspace SPACE) with true. cbv iota. unfold accept.
      replace (S (S n)) with (n + 2)%nat by lia. reflexivity. }
  rewrite E. reflexivity.
Qed.

Lemma parse_bullet_prefix : forall (level : Z) (content : str),
  _parse_bullet_line (_bullet_prefix_for_level level ++ content)
  = Some {| bullet_indent :=
              repeat SPACE (Z.to_nat (Z.max 0 level * BULLET_INDENT_SPACES));
            bullet_marker := _bullet_marker_for_level level;
            bullet_prefix_len := (Z.max 0 level * BULLET_INDENT_SPACES + 2)%Z;
            bullet_level := Z.max 0 level;
            bullet_content := content |}.
Proof.
  intros level content. unfold _parse_bullet_line, _bullet_prefix_for_level.
  destruct (marker_for_level_char level) as [m [Em [Hm Hb]]]. rewrite Em.
  set (n := Z.to_nat (Z.max 0 level * BULLET_INDENT_SPACES)).
  replace ((repeat SPACE n ++ [m] ++ [SPACE]) ++ content)
    with (repeat SPACE n ++ m :: SPACE :: content)
    by (rewrite <- app_assoc; reflexivity).
  rewrite (bullet_line_matches n m content Hm Hb). cbv zeta.
  unfold group_, group. cbn [m_caps m_end get_cap Nat.eqb].
  assert (G1 : slice 0 n (repeat SPACE n ++ m :: SPACE :: content)
               = repeat SPACE n).
  { unfold slice. cbn [skipn]. rewrite Nat.sub_0_r.
    rewrite firstn_app, repeat_length, Nat.sub_diag. cbn [firstn].
    rewrite app_nil_r. rewrite firstn_all2; [reflexivity|].
    rewrite repeat_length. lia. }
  assert (G2 : slice n (S n) (repeat SPACE n ++ m :: SPACE :: content) = [m]).
  { unfold slice. replace (S n - n)%nat with 1%nat by lia.
    rewrite <- (repeat_length SPACE n) at 1. rewrite skipn_length_app.
    reflexivity. }
  assert (G3 : skipn (n + 2) (repeat SPACE n ++ m :: SPACE :: content)
               = content).
  { replace (repeat SPACE n ++ m :: SPACE :: content)
      with ((repeat SPACE n ++ [m; SPACE]) ++ content)
      by (rewrite <- app_assoc; reflexivity).
    replace (n + 2)%nat with (List.length (repeat SPACE n ++ [m; SPACE]))
      by (rewrite length_app, repeat_length; reflexivity).
    apply skipn_length_app. }
  rewrite G1, G2, G3. f_equal. f_equal.
  - subst n. unfold BULLET_INDENT_SPACES. lia.
  - subst n. apply level_of_spaces. lia.
Qed.

(** X18.  Round trip of bullet prefixes: a line made of the prefix for a
    level and any content parses as a bullet line of that level (of level 0
    for a negative level), with the marker of that level, the prefix as
    indent, marker and one space, and the content back unchanged. *)
Theorem bullet_prefix_round_trip : forall (level : Z) (content : str),
  _parse_bullet_line (_bullet_prefix_for_level level ++ content)
  = Some {| bullet_indent :=
              repeat SPACE (Z.to_nat (Z.max 0 level * BULLET_INDENT_SPACES));
            bullet_marker := _bullet_marker_for_level level;
            bullet_prefix_len := (Z.max 0 level * BULLET_INDENT_SPACES + 2)%Z;
            bullet_level := Z.max 0 level;
            bullet_content := content |}.
Proof. exact parse_bullet_prefix. Qed.
End BulletLines.

(** ** Export helpers *)
Section ExportHelpers.

Lemma plain_text_app : forall a b0 : list format_run,
  plain_text_of (a ++ b0) = plain_text_of a ++ plain_text_of b0.
Proof.
  intros a b0. unfold plain_text_of. rewrite map_app, concat_app.
  reflexivity.
Qed.

(** The text of a list of paragraphs, with line breaks between them. *)
Lemma paragraphs_text_snoc_item : forall (ps : list (list format_run)) item,
  ps <> [] ->
  join [LF] (List.map plain_text_of (append_to_last ps item))
  = join [LF] (List.map plain_text_of ps) ++ run_text item.
Proof.
  induction ps as [|p rest IH]; intros item Hne; [congruence|].
  destruct rest as [|q rest'].
  - cbn [append_to_last List.map join]. rewrite plain_text_app.
    change (plain_text_of [item]) with (run_text item ++ []).
    rewrite app_nil_r. reflexivity.
  - change (append_to_last (p :: q :: rest') item)
      with (p :: append_to_last (q :: rest') item).
    assert (Hq : exists q' r', append_to_last (q :: rest') item = q' :: r').
    { destruct rest'; cbn [append_to_last]; eauto. }
    destruct Hq as [q' [r' Eq]].
    specialize (IH item). rewrite Eq in *.
    change (join [LF] (List.map plain_text_of (p :: q' :: r')))
      with (plain_text_of p ++ [LF]
            ++ join [LF] (List.map plain_text_of (q' :: r'))).
    rewrite IH by discriminate.
    change (join [LF] (List.map plain_text_of (p :: q :: rest')))
      with (plain_text_of p ++ [LF]
            ++ join [LF] (List.map plain_text_of (q :: rest'))).
    rewrite <- !app_assoc. reflexivity.
Qed.

Lemma paragraphs_text_snoc_empty : forall ps : list (list format_run),
  ps <> [] ->
  join [LF] (List.map plain_text_of (ps ++ [[]]))
  = join [LF] (List.map plain_text_of ps) ++ [LF].
Proof.
  induction ps as [|p rest IH]; intros Hne; [congruence|].
  destruct rest as [|q rest'].
  - cbn [app List.map join]. reflexivity.
  - change ((p :: q :: rest') ++ [[]]) with (p :: q :: (rest' ++ [[]])).
    change (join [LF] (List.map plain_text_of (p :: q :: rest' ++ [[]])))
      with (plain_text_of p ++ [LF]
            ++ join [LF] (List.map plain_text_of ((q :: rest') ++ [[]]))).
    rewrite IH by discriminate.
    change (join [LF] (List.map plain_text_of (p :: q :: rest')))
      with (plain_text_of p ++ [LF]
            ++ join [LF] (List.map plain_text_of (q :: rest'))).
    rewrite <- !app_assoc. reflexivity.
Qed.

Lemma append_to_last_nonempty : forall (ps : list (list format_run)) item,
  ps <> [] -> append_to_last ps item <> [].
Proof.
  intros [|p [|q rest]] item H; [congruence|discriminate|discriminate].
Qed.

Lemma add_parts_text : forall (parts : list str) ps is_bold is_superscript,
  ps <> [] ->
  add_parts ps parts is_bold is_superscript <> []
  /\ join [LF] (List.map plain_text_of
                  (add_parts ps parts is_bold is_superscript))
     = join [LF] (List.map plain_text_of ps)
       ++ match parts with [] => [] | _ => join [LF] parts end.
Proof.
  induction parts as [|part later IH]; intros ps is_bold is_superscript Hne.
  - cbn [add_parts]. rewrite app_nil_r. split; [exact Hne|reflexivity].
  - cbn [add_parts].
    set (ps1 := if truthy part
                then append_to_last ps (part, is_bold, is_superscript)
                else ps).
    assert (H1 : ps1 <> []
                 /\ join [LF] (List.map plain_text_of ps1)
                    = join [LF] (List.map plain_text_of ps) ++ part).
    { subst ps1. destruct part as [|c part'].
      - cbn [truthy]. rewrite app_nil_r. split; [exact Hne|reflexivity].
      - cbn [truthy]. split; [apply append_to_last_nonempty; exact Hne|].
        apply paragraphs_text_snoc_item. exact Hne. }
    destruct H1 as [N1 T1].
    destruct later as [|next later'].
    + cbn [add_parts join]. split; [exact N1|exact T1].
    + assert (N2 : ps1 ++ [[]] <> []) by (destruct ps1; discriminate).
      destruct (IH (ps1 ++ [[]]) is_bold is_superscript N2) as [N3 T3].
      split; [exact N3|]. rewrite T3.
      rewrite (paragraphs_text_snoc_empty ps1 N1), T1.
      change (join [LF] (part :: next :: later'))
        with (part ++ [LF] ++ join [LF] (next :: later')).
      rewrite <- !app_assoc. reflexivity.
Qed.

Lemma fold_paragraphs_text : forall (rs : list format_run) ps,
  ps <> [] ->
  let result :=
    List.fold_left
      (fun paragraphs (r : format_run) =>
         let '(run_text, is_bold, is_superscript) := r in
         add_parts paragraphs (split1 N.eqb LF run_text)
                   is_bold is_superscript)
      rs ps in
  result <> []
  /\ join [LF] (List.map plain_text_of result)
     = join [LF] (List.map plain_text_of ps) ++ plain_text_of rs.
Proof.
  induction rs as [|[[t b0] s0] rest IH]; intros ps Hne.
  - cbn [fold_left]. change (plain_text_of []) with (@nil char).
    rewrite app_nil_r. split; [exact Hne|reflexivity].
  - cbn [fold_left].
    destruct (add_parts_text (split1 N.eqb LF t) ps b0 s0 Hne) as [N1 T1].
    destruct (IH _ N1) as [N2 T2]. split; [exact N2|].
    rewrite T2, T1.
    pose proof (split1_nonempty LF t) as Hs.
    destruct (split1 N.eqb LF t) as [|l ls] eqn:E; [congruence|].
    rewrite <- E, join_split1.
    change (plain_text_of ((t, b0, s0) :: rest))
      with (t ++ plain_text_of rest).
    rewrite <- app_assoc. reflexivity.
Qed.

Lemma append_to_last_all : forall (P : format_run -> Prop) ps item,
  Forall (Forall P) ps -> P item -> Forall (Forall P) (append_to_last ps item).
Proof.
  intros P ps item Hps Hitem. induction Hps as [|p rest Hp Hrest IH].
  - constructor.
  - destruct rest as [|q rest'].
    + cbn [append_to_last]. constructor; [|constructor].
      apply Forall_app. split; [exact Hp|repeat constructor; exact Hitem].
    + change (append_to_last (p :: q :: rest') item)
        with (p :: append_to_last (q :: rest') item).
      constructor; [exact Hp|exact IH].
Qed.

Lemma add_parts_lines : forall (parts : list str) ps is_bold is_superscript,
  Forall (Forall line_run) ps ->
  Forall (Forall (fun c => c <> LF)) parts ->
  Forall (Forall line_run) (add_parts ps parts is_bold is_superscript).
Proof.
  induction parts as [|part later IH]; intros ps is_bold is_superscript Hps Hp.
  - exact Hps.
  - inversion Hp as [|x l Hpart Hlater]; subst. cbn [add_parts].
    set (ps1 := if truthy part
                then append_to_last ps (part, is_bold, is_superscript)
                else ps).
    assert (H1 : Forall (Forall line_run) ps1).
    { subst ps1. destruct part as [|c part']; [exact Hps|].
      cbn [truthy]. apply append_to_last_all; [exact Hps|].
      split; [discriminate|exact Hpart]. }
    apply IH; [|exact Hlater].
    destruct later; [exact H1|].
    apply Forall_app. split; [exact H1|repeat constructor].
Qed.

Lemma fold_paragraphs_lines : forall (rs : list format_run) ps,
  Forall (Forall line_run) ps ->
  Forall (Forall line_run)
    (List.fold_left
       (fun paragraphs (r : format_run) =>
          let '(run_text, is_bold, is_superscript) := r in
          add_parts paragraphs (split1 N.eqb LF run_text)
                    is_bold is_superscript)
       rs ps).
Proof.
  induction rs as [|[[t b0] s0] rest IH]; intros ps Hps; [exact Hps|].
  cbn [fold_left]. apply IH. apply add_parts_lines; [exact Hps|].
  apply split1_lines.
Qed.

(** X19.  Splitting runs into paragraphs loses no text and leaves no line
    break inside a paragraph: the texts of the paragraphs, joined by line
    breaks, are the text of the runs; every run of a paragraph has a text
    that is not empty and holds no line break; and there is always at
    least one paragraph. *)
Theorem paragraphs_keep_the_text : forall rs : list format_run,
  _runs_to_paragraphs rs <> []
  /\ join [LF] (List.map plain_text_of (_runs_to_paragraphs rs))
     = plain_text_of rs
  /\ Forall (Forall line_run) (_runs_to_paragraphs rs).
Proof.
  intros rs. unfold _runs_to_paragraphs.
  destruct (fold_paragraphs_text rs [[]]) as [N T]; [discriminate|].
  pose proof (fold_paragraphs_lines rs [[]]) as F.
  cbv zeta in *.
  destruct (fold_left _ rs [[]]) as [|p ps] eqn:E; [congruence|].
  cbn [truthy negb]. split; [discriminate|]. split; [exact T|].
  apply F. repeat constructor.
Qed.
End ExportHelpers.

Section TrimPrefix.

Lemma plain_text_cons : forall (t : str) (b0 s0 : bool) (rest : list format_run),
  plain_text_of ((t, b0, s0) :: rest) = t ++ plain_text_of rest.
Proof. reflexivity. Qed.

Lemma trim_prefix_loop_text : forall (rs : list format_run) (remaining : Z),
  (0 <= remaining)%Z ->
  plain_text_of (trim_prefix_loop remaining rs)
  = skipn (Z.to_nat remaining) (plain_text_of rs)
  /\ Forall (fun r => run_text r <> []) (trim_prefix_loop remaining rs).
Proof.
  induction rs as [|[[t b0] s0] rest IH]; intros remaining Hr.
  - cbn [trim_prefix_loop]. change (plain_text_of []) with (@nil char).
    rewrite skipn_nil. split; [reflexivity|constructor].
  - cbn [trim_prefix_loop]. rewrite plain_text_cons, skipn_app.
    unfold len. destruct (Z.of_nat (List.length t) <=? remaining)%Z eqn:E.
    + apply Z.leb_le in E.
      destruct (IH (remaining - Z.of_nat (List.length t))%Z) as [T F]; [lia|].
      split; [|exact F]. rewrite T.
      replace (skipn (Z.to_nat remaining) t) with (@nil char)
        by (symmetry; apply skipn_all2; lia).
      cbn [app]. f_equal. lia.
    + apply Z.leb_gt in E. cbv zeta.
      assert (Hd : (Z.to_nat remaining - List.length t)%nat = 0%nat) by lia.
      rewrite Hd. cbn [skipn].
      destruct (0 <? remaining)%Z eqn:P.
      * destruct (IH 0%Z) as [T F]; [lia|]. cbn [Z.to_nat skipn] in T.
        assert (Hne : skipn (Z.to_nat remaining) t <> []).
        { intros Z0. apply (f_equal (@List.length char)) in Z0.
          rewrite length_skipn in Z0. simpl in Z0. lia. }
        destruct (skipn (Z.to_nat remaining) t) as [|c t'] eqn:S;
          [congruence|].
        cbn [truthy]. rewrite plain_text_cons, T. split; [reflexivity|].
        constructor; [discriminate|exact F].
      * apply Z.ltb_ge in P. assert (remaining = 0%Z) by lia. subst remaining.
        destruct (IH 0%Z) as [T F]; [lia|]. cbn [Z.to_nat skipn] in *.
        destruct t as [|c t']; [simpl in E; lia|].
        cbn [truthy]. rewrite plain_text_cons, T. split; [reflexivity|].
        constructor; [discriminate|exact F].
Qed.

(** X20.  Trimming a prefix from runs removes exactly the first
    [prefix_len] characters of their text (none for a negative length) and
    leaves no run empty. *)
Theorem trim_prefix_drops_the_prefix :
  forall (rs : list format_run) (prefix_len : Z),
  plain_text_of (_trim_prefix_from_runs rs prefix_len)
  = skipn (Z.to_nat prefix_len) (plain_text_of rs)
  /\ Forall (fun r => run_text r <> []) (_trim_prefix_from_runs rs prefix_len).
Proof.
  intros rs prefix_len. unfold _trim_prefix_from_runs.
  destruct (trim_prefix_loop_text rs (Z.max 0 prefix_len)) as [T F]; [lia|].
  split; [|exact F]. rewrite T. f_equal. lia.
Qed.
End TrimPrefix.

(** ** What the run normalizer keeps *)
Section NormalizerBounds.

Lemma append_run_flags : forall (acc : list run) (t : str) (b0 : bool),
  incl (List.map snd (append_run acc t b0)) (b0 :: List.map snd acc)
  /\ (List.length (append_run acc t b0) <= S (List.length acc))%nat.
Proof.
  induction acc as [|[p pb] rest IH]; intros t b0.
  - cbn [append_run List.map List.length]. split; [apply incl_refl|lia].
  - destruct rest as [|r2 rest'].
    + cbn [append_run]. destruct (Bool.eqb pb b0);
        cbn [List.map List.length snd]; split; try lia.
      * intros x [<-|[]]. left. reflexivity.
      * intros x [<-|[<-|[]]]; [right; left; reflexivity|left; reflexivity].
    + change (append_run ((p, pb) :: r2 :: rest') t b0)
        with ((p, pb) :: append_run (r2 :: rest') t b0).
      destruct (IH t b0) as [I1 L1]. cbn [List.map List.length snd] in *.
      split; [|lia].
      intros x [<-|Hx]; [right; left; reflexivity|].
      destruct (I1 x Hx) as [<-|H']; [left; reflexivity|right; right; exact H'].
Qed.

Lemma merge_cleaned_flags : forall (rs acc : list run),
  incl (List.map snd (fold_left merge_cleaned rs acc))
       (List.map snd acc ++ List.map snd rs)
  /\ (List.length (fold_left merge_cleaned rs acc)
      <= List.length acc + List.length rs)%nat.
Proof.
  induction rs as [|[t b0] rest IH]; intros acc.
  - cbn [fold_left List.map List.length]. rewrite app_nil_r.
    split; [apply incl_refl|lia].
  - cbn [fold_left].
    destruct (IH (merge_cleaned acc (t, b0))) as [I1 L1].
    assert (M : incl (List.map snd (merge_cleaned acc (t, b0)))
                     (b0 :: List.map snd acc)
                /\ (List.length (merge_cleaned acc (t, b0))
                    <= S (List.length acc))%nat).
    { unfold merge_cleaned. destruct (negb (truthy (clean_run_text t))).
      - split; [apply incl_tl; apply incl_refl|lia].
      - apply append_run_flags. }
    destruct M as [I2 L2]. cbn [List.map List.length snd]. split; [|lia].
    intros x Hx. apply I1 in Hx. apply in_app_or in Hx.
    apply in_or_app. destruct Hx as [Hx|Hx].
    + destruct (I2 x Hx) as [<-|H']; [right; left; reflexivity|left; exact H'].
    + right. right. exact Hx.
Qed.

Lemma collapse_flags : forall (later : list run) (prev0 : str),
  List.map snd (collapse_joint_spaces prev0 later) = List.map snd later.
Proof.
  induction later as [|[curr b0] later IH]; intros prev0; [reflexivity|].
  cbn [collapse_joint_spaces List.map snd]. rewrite IH. reflexivity.
Qed.

Lemma nonempty_runs_flags : forall l : list run,
  incl (List.map snd (nonempty_runs l)) (List.map snd l)
  /\ (List.length (nonempty_runs l) <= List.length l)%nat.
Proof.
  induction l as [|[t b0] rest [I1 L1]].
  - split; [apply incl_refl|reflexivity].
  - unfold nonempty_runs in *. cbn [List.filter fst].
    destruct (truthy t); cbn [List.map List.length snd]; split; try lia.
    + intros x [<-|Hx]; [left; reflexivity|right; apply I1; exact Hx].
    + apply incl_tl. exact I1.
Qed.

Lemma map_first_flags : forall (f : str -> str) (l : list run),
  List.map snd (map_first f l) = List.map snd l.
Proof. intros f [|[t b0] rest]; reflexivity. Qed.

Lemma map_last_flags : forall (f : str -> str) (l : list run),
  List.map snd (map_last f l) = List.map snd l.
Proof.
  intros f. induction l as [|[t b0] rest IH]; [reflexivity|].
  destruct rest as [|r2 rest']; [reflexivity|].
  change (map_last f ((t, b0) :: r2 :: rest'))
    with ((t, b0) :: map_last f (r2 :: rest')).
  cbn [List.map snd]. rewrite IH. reflexivity.
Qed.

Lemma normalized_flags : forall rs : list run,
  incl (List.map snd (_normalize_captured_runs rs)) (List.map snd rs)
  /\ (List.length (_normalize_captured_runs rs) <= List.length rs)%nat.
Proof.
  intros rs. unfold _normalize_captured_runs.
  destruct (merge_cleaned_flags rs []) as [I0 L0].
  cbn [List.map List.length app Nat.add] in I0, L0.
  destruct (fold_left merge_cleaned rs []) as [|[first first_bold] others].
  - split; [intros x []|cbn [List.length]; lia].
  - cbv zeta.
    set (collapsed := (first, first_bold) :: collapse_joint_spaces first others).
    assert (C : List.map snd collapsed
                = List.map snd ((first, first_bold) :: others)).
    { subst collapsed. cbn [List.map snd]. rewrite collapse_flags.
      reflexivity. }
    assert (LC : List.length collapsed
                 = List.length ((first, first_bold) :: others)).
    { rewrite <- (length_map snd collapsed), C, length_map. reflexivity. }
    destruct (nonempty_runs_flags collapsed) as [I1 L1].
    destruct (nonempty_runs collapsed) as [|r kept] eqn:K.
    + split; [intros x []|apply Nat.le_0_l].
    + destruct (nonempty_runs_flags
                  (map_last rstrip (map_first lstrip (r :: kept))))
        as [I2 L2].
      rewrite map_last_flags, map_first_flags in I2.
      rewrite <- (length_map snd (map_last _ _)) in L2.
      rewrite map_last_flags, map_first_flags, length_map in L2.
      split.
      * intros x Hx.
        exact (I0 x (eq_ind _ (fun l => In x l) (I1 x (I2 x Hx)) _ C)).
      * eapply Nat.le_trans; [exact L2|].
        eapply Nat.le_trans; [exact L1|].
        eapply Nat.le_trans; [apply Nat.eq_le_incl; exact LC|exact L0].
Qed.

(** X21.  The run normalizer invents neither bold nor runs: it returns at
    most as many runs as it was given, every bold value it returns is the
    bold value of a run it was given, and so a result with a bold run
    comes from an input with a bold run. *)
Theorem normalizer_invents_nothing : forall rs : list run,
  (List.length (_normalize_captured_runs rs) <= List.length rs)%nat
  /\ (forall r, In r (_normalize_captured_runs rs) ->
        exists given, In given rs /\ snd given = snd r)
  /\ (has_bold_run (_normalize_captured_runs rs) = true ->
      has_bold_run rs = true).
Proof.
  intros rs. destruct (normalized_flags rs) as [I L].
  assert (F : forall r, In r (_normalize_captured_runs rs) ->
                exists given, In given rs /\ snd given = snd r).
  { intros r Hr. apply (in_map snd) in Hr. apply I in Hr.
    apply in_map_iff in Hr. destruct Hr as [given [E Hin]].
    exists given. split; assumption. }
  split; [exact L|]. split; [exact F|].
  unfold has_bold_run. intros H. apply existsb_exists in H.
  destruct H as [r [Hr Hb]]. destruct (F r Hr) as [given [Hin E]].
  apply existsb_exists. exists given. split; [exact Hin|congruence].
Qed.
End NormalizerBounds.

(** ** Labels *)
Section Labels.

Lemma compact_has_no_breaks : forall token : str,
  Forall (fun c => c <> CR /\ c <> LF)
    (replace N.eqb [LF] [SPACE] (replace N.eqb [CR] [SPACE] token)).
Proof.
  intros token. apply Forall_and.
  - apply replace_from_all; [|repeat constructor; discriminate].
    apply replace_char_removes. repeat constructor. discriminate.
  - apply replace_char_removes. repeat constructor. discriminate.
Qed.

(** X22.  A label made for a token fits: for a limit of at least three
    characters it is never longer than the limit, and it holds no line
    break. *)
Theorem short_label_fits : forall (token : str) (max_len : Z),
  (3 <= max_len)%Z ->
  (len (_short_token_label token max_len) <= max_len)%Z
  /\ Forall (fun c => c <> CR /\ c <> LF) (_short_token_label token max_len).
Proof.
  intros token max_len Hm. unfold _short_token_label. cbv zeta.
  pose proof (compact_has_no_breaks token) as Hc.
  set (compact := replace N.eqb [LF] [SPACE] _) in *.
  destruct (len compact <=? max_len)%Z eqn:E.
  - apply Z.leb_le in E. split; assumption.
  - unfold slice_to.
    replace (0 <=? max_len - 3)%Z with true by (symmetry; apply Z.leb_le; lia).
    split.
    + unfold len. rewrite length_app, length_firstn.
      change (List.length (u "...")) with 3%nat. lia.
    + apply Forall_app. split.
      * apply firstn_all_of. exact Hc.
      * repeat constructor; discriminate.
Qed.
End Labels.

(** ** Paragraph runs for the export *)
Section ExportRuns.

Lemma cells_plain : forall rs : list format_run,
  List.map cell_plain (cells_of rs) = char_superscripts rs.
Proof.
  induction rs as [|[[t b0] s0] later IH]; [reflexivity|].
  change (cells_of ((t, b0, s0) :: later))
    with (List.map (fun ch => (ch, b0, s0)) t ++ cells_of later).
  change (char_superscripts ((t, b0, s0) :: later))
    with (List.map (fun ch => (ch, s0)) t ++ char_superscripts later).
  rewrite map_app. f_equal; [rewrite map_map; reflexivity|exact IH].
Qed.

Lemma set_bold_plain : forall (chars : list cell) start count,
  List.map cell_plain (set_bold start count chars)
  = List.map cell_plain chars.
Proof.
  induction chars as [|[[ch b0] s0] later IH]; intros start count;
    [reflexivity|].
  cbn [set_bold]. destruct start as [|k].
  - destruct count as [|c]; [reflexivity|].
    cbn [List.map]. rewrite IH. reflexivity.
  - cbn [List.map]. rewrite IH. reflexivity.
Qed.

Lemma embolden_plain : forall (chars : list cell) (m : rmatch),
  List.map cell_plain (embolden_word_start chars m)
  = List.map cell_plain chars.
Proof.
  intros chars m. unfold embolden_word_start. cbv zeta.
  destruct (negb _ || _); [reflexivity|].
  destruct (_ && _ && _); [apply set_bold_plain|reflexivity].
Qed.

Lemma fold_embolden_plain : forall (ms : list rmatch) (chars : list cell),
  List.map cell_plain (fold_left embolden_word_start ms chars)
  = List.map cell_plain chars.
Proof.
  induction ms as [|m ms IH]; intros chars; [reflexivity|].
  cbn [fold_left]. rewrite IH. apply embolden_plain.
Qed.

Lemma char_superscripts_app : forall a b0 : list format_run,
  char_superscripts (a ++ b0) = char_superscripts a ++ char_superscripts b0.
Proof. intros a b0. unfold char_superscripts. apply flat_map_app. Qed.

(** What the regrouping loop holds: the runs made so far and the buffer are
    the characters seen so far. *)
Lemma regroup_fold : forall (chars : list cell) normalized buffer current,
  (current = None -> buffer = []) ->
  let r := fold_left regroup_step chars (normalized, buffer, current) in
  (snd r = None -> snd (fst r) = [])
  /\ char_superscripts (fst (fst r))
     ++ List.map (fun ch => (ch, match snd r with
                                 | Some s => snd s
                                 | None => false
                                 end)) (snd (fst r))
     = (char_superscripts normalized
        ++ List.map (fun ch => (ch, match current with
                                    | Some s => snd s
                                    | None => false
                                    end)) buffer)
       ++ List.map cell_plain chars.
Proof.
  induction chars as [|[[ch b0] s0] later IH];
    intros normalized buffer current Hc.
  - cbn [fold_left List.map fst snd]. rewrite app_nil_r.
    split; [exact Hc|reflexivity].
  - cbn [fold_left].
    set (next := regroup_step (normalized, buffer, current) (ch, b0, s0)).
    assert (N : exists n1 b1 c1,
               next = (n1, b1, Some c1)
               /\ char_superscripts n1 ++ List.map (fun x => (x, snd c1)) b1
                  = (char_superscripts normalized
                     ++ List.map (fun x => (x, match current with
                                               | Some s => snd s
                                               | None => false
                                               end)) buffer)
                    ++ [(ch, s0)]).
    { subst next. unfold regroup_step. cbv zeta.
      destruct current as [[cb cs]|].
      - cbn [fst snd].
        destruct (Bool.eqb b0 cb && Bool.eqb s0 cs) eqn:E; cbn [negb].
        + apply andb_true_iff in E. destruct E as [_ E2].
          apply eqb_prop in E2. subst cs.
          eexists. eexists. eexists. split; [reflexivity|].
          cbn [snd]. rewrite map_app, app_assoc. reflexivity.
        + eexists. eexists. eexists. split; [reflexivity|].
          rewrite char_superscripts_app. cbn [snd List.map].
          unfold char_superscripts at 2. cbn [flat_map run_text fst snd].
          rewrite app_nil_r. reflexivity.
      - rewrite (Hc eq_refl). cbn [fst snd].
        rewrite !eqb_reflx. cbn [andb negb].
        eexists. eexists. eexists. split; [reflexivity|].
        cbn [snd List.map app]. rewrite app_nil_r. reflexivity. }
    destruct N as [n1 [b1 [c1 [En Et]]]]. rewrite En.
    destruct (IH n1 b1 (Some c1)) as [Hc' T]; [discriminate|].
    cbv zeta in *. split; [exact Hc'|].
    etransitivity; [exact T|].
    change (List.map cell_plain ((ch, b0, s0) :: later))
      with ([(ch, s0)] ++ List.map cell_plain later).
    rewrite app_assoc. f_equal. exact Et.
Qed.

Lemma regroup_plain : forall chars : list cell,
  char_superscripts (regroup chars) = List.map cell_plain chars.
Proof.
  intros chars. unfold regroup.
  destruct (regroup_fold chars [] [] None (fun _ => eq_refl)) as [Hc T].
  cbv zeta in *.
  destruct (fold_left regroup_step chars ([], [], None))
    as [[normalized buffer] current].
  cbn [fst snd] in *.
  change (char_superscripts [] ++ List.map (fun ch : char => (ch, false)) [])
    with (@nil (char * bool)) in T.
  cbn [app] in T. rewrite <- T. destruct current as [s|].
  - destruct buffer as [|c buffer'].
    + cbn [truthy List.map]. rewrite app_nil_r. reflexivity.
    + cbn [truthy]. rewrite char_superscripts_app.
      unfold char_superscripts at 2. cbn [flat_map run_text fst snd].
      rewrite app_nil_r. reflexivity.
  - rewrite (Hc eq_refl). cbn [List.map]. rewrite app_nil_r. reflexivity.
Qed.

Lemma plain_text_of_superscripts : forall rs : list format_run,
  plain_text_of rs = List.map fst (char_superscripts rs).
Proof.
  induction rs as [|[[t b0] s0] later IH]; [reflexivity|].
  rewrite plain_text_cons.
  change (char_superscripts ((t, b0, s0) :: later))
    with (List.map (fun ch => (ch, s0)) t ++ char_superscripts later).
  rewrite map_app. f_equal; [|exact IH].
  rewrite map_map. cbn [fst]. rewrite map_id. reflexivity.
Qed.

(** X23.  Normalizing the runs of a paragraph for the export changes bold
    values only: the characters, each with its superscript value, are those
    of the runs given, and so is the text. *)
Theorem export_runs_keep_text_and_superscript :
  forall rs : list format_run,
  char_superscripts (_normalize_paragraph_runs_for_export rs)
  = char_superscripts rs
  /\ plain_text_of (_normalize_paragraph_runs_for_export rs)
     = plain_text_of rs.
Proof.
  intros rs.
  assert (E : char_superscripts (_normalize_paragraph_runs_for_export rs)
              = char_superscripts rs).
  { unfold _normalize_paragraph_runs_for_export.
    destruct (negb (truthy rs)); [reflexivity|].
    destruct (negb (truthy (cells_of rs))); [reflexivity|].
    cbv zeta. rewrite regroup_plain, fold_embolden_plain.
    apply cells_plain. }
  split; [exact E|].
  rewrite !plain_text_of_superscripts, E. reflexivity.
Qed.
End ExportRuns.

(** ** Paragraph classes for the export *)
Section ExportClassProperties.
Context {U : Unicode}.

Lemma lstrip_keeps_solid : forall s : str,
  (exists c, In c s /\ isspace c = false) ->
  exists c r, lstrip s = c :: r /\ isspace c = false.
Proof.
  unfold lstrip. induction s as [|x s IH]; intros [c [Hin Hc]];
    [destruct Hin|].
  cbn [lstrip_by]. destruct (isspace x) eqn:E.
  - apply IH. exists c. split; [|exact Hc].
    destruct Hin as [<-|Hin]; [congruence|exact Hin].
  - exists x, s. split; [reflexivity|exact E].
Qed.

Lemma strip_keeps_solid : forall s : str,
  (exists c, In c s /\ isspace c = false) -> strip s <> [].
Proof.
  intros s H. destruct (lstrip_keeps_solid s H) as [c [r [E Hc]]].
  unfold strip. rewrite E.
  destruct (rstrip_solid c r Hc) as [r' E']. rewrite E'. discriminate.
Qed.

Lemma prefix_length : forall level : Z,
  Z.of_nat (List.length (_bullet_prefix_for_level level))
  = (Z.max 0 level * BULLET_INDENT_SPACES + 2)%Z.
Proof.
  intros level. unfold _bullet_prefix_for_level.
  destruct (marker_for_level_char level) as [m [Em _]]. rewrite Em.
  rewrite length_app, repeat_length. cbn [List.length app].
  unfold BULLET_INDENT_SPACES. lia.
Qed.

(** X24.  A paragraph whose text is the bullet prefix of a level followed
    by any content is classified as a bullet paragraph of that level (of
    level 0 for a negative level) with the marker of that level, and its
    runs are the runs given without the prefix: their text is the
    content. *)
Theorem bullet_paragraph_is_classified :
  forall (paragraph_runs : list format_run) (level : Z) (content : str),
  plain_text_of paragraph_runs = _bullet_prefix_for_level level ++ content ->
  exists content_runs,
    _classify_paragraph_for_export paragraph_runs
    = BulletParagraph (Z.max 0 level) (_bullet_marker_for_level level)
                      content_runs
    /\ plain_text_of content_runs = content.
Proof.
  intros paragraph_runs level content E.
  unfold _classify_paragraph_for_export. cbv zeta. rewrite E.
  assert (S : strip (_bullet_prefix_for_level level ++ content) <> []).
  { apply strip_keeps_solid.
    destruct (marker_for_level_char level) as [m [Em [Hm _]]].
    exists m. split.
    - unfold _bullet_prefix_for_level. rewrite Em.
      apply in_or_app. left. apply in_or_app. right. left. reflexivity.
    - unfold bullet_marker_char in Hm.
      destruct (isspace m) eqn:W; [|reflexivity]. exfalso.
      repeat (apply orb_true_iff in Hm; destruct Hm as [Hm|Hm]);
        apply N.eqb_eq in Hm; subst m; discriminate W. }
  destruct (strip (_bullet_prefix_for_level level ++ content)) as [|c r];
    [congruence|].
  cbn [truthy negb]. cbv iota.
  rewrite parse_bullet_prefix. cbn [bullet_prefix_len bullet_level bullet_marker].
  eexists. split; [reflexivity|].
  unfold _trim_prefix_from_runs.
  destruct (trim_prefix_loop_text paragraph_runs
              (Z.max 0 (Z.max 0 level * BULLET_INDENT_SPACES + 2)))
    as [T _]; [lia|].
  rewrite T, E, <- prefix_length.
  replace (Z.to_nat (Z.max 0 (Z.of_nat
             (List.length (_bullet_prefix_for_level level)))))
    with (List.length (_bullet_prefix_for_level level)) by lia.
  apply skipn_length_app.
Qed.
Lemma heading_level_bounds : forall (rs : list format_run) (plain_text : str),
  (0 <= _heading_level_from_runs rs plain_text <= 3)%Z.
Proof.
  intros rs plain_text. unfold _heading_level_from_runs. cbv zeta.
  destruct (negb (truthy (strip plain_text))); [lia|].
  destruct (rematch numbered_heading_re plain_text) as [m|].
  - assert (0 <= count_dots (group_ plain_text m 1))%Z
      by (unfold count_dots, len; lia).
    lia.
  - destruct (110 <? len (strip plain_text))%Z; [lia|].
    destruct (count_letters rs) as [total_letters bold_letters].
    destruct (_ && _); lia.
Qed.

(** X25.  The heading level of a paragraph is 0, 1, 2 or 3; a paragraph
    classified as a heading has a level from 1 to 3 and keeps its runs. *)
Theorem heading_levels_are_one_to_three :
  forall (paragraph_runs : list format_run),
  (forall plain_text : str,
      (0 <= _heading_level_from_runs paragraph_runs plain_text <= 3)%Z)
  /\ (forall level heading_runs,
        _classify_paragraph_for_export paragraph_runs
        = HeadingParagraph level heading_runs ->
        (1 <= level <= 3)%Z /\ heading_runs = paragraph_runs).
Proof.
  intros paragraph_runs. split; [apply heading_level_bounds|].
  intros level heading_runs. unfold _classify_paragraph_for_export. cbv zeta.
  destruct (negb (truthy (strip (plain_text_of paragraph_runs))));
    [discriminate|].
  destruct (_parse_bullet_line (plain_text_of paragraph_runs));
    [discriminate|].
  pose proof (heading_level_bounds paragraph_runs
                (plain_text_of paragraph_runs)) as B.
  destruct (0 <? _heading_level_from_runs paragraph_runs
                   (plain_text_of paragraph_runs))%Z eqn:P; [|discriminate].
  apply Z.ltb_lt in P. intros E. injection E as <- <-.
  split; [lia|reflexivity].
Qed.
End ExportClassProperties.

(** ** The further properties at concrete inputs *)

Lemma rtf_parser_runs_alternate_witness :
  ClipboardRtfRunParser.parse (U := BasicLatin) (u "{\b a}b")
  = Some [(u "a", true); (u "b", false)]
  /\ normalized_invariant [(u "a", true); (u "b", false)].
Proof.
  assert (E : ClipboardRtfRunParser.parse (U := BasicLatin) (u "{\b a}b")
              = Some [(u "a", true); (u "b", false)])
    by (vm_compute; reflexivity).
  split; [exact E|].
  exact (rtf_parser_runs_alternate (U := BasicLatin) _ _ E).
Defined.

Lemma rtf_parse_ascii_never_raises_witness :
  (Forall (fun c => is_ascii c = true) (u "{\b a}")
   /\ (List.length (u "{\b a}") <= 4300)%nat)
  /\ exists rs,
       ClipboardRtfRunParser.parse (U := BasicLatin) (u "{\b a}") = Some rs.
Proof.
  assert (H1 : Forall (fun c => is_ascii c = true) (u "{\b a}"))
    by (repeat constructor).
  assert (H2 : (List.length (u "{\b a}") <= 4300)%nat) by (simpl; lia).
  split; [split; assumption|].
  exact (rtf_parse_ascii_never_raises (U := BasicLatin) (u "{\b a}") H1 H2).
Defined.

Lemma rtf_literal_text_witness :
  (u "ab" <> [] /\ literal (u "ab"))
  /\ ClipboardRtfRunParser.parse (U := BasicLatin) (u "ab")
     = Some [(u "ab", false)].
Proof.
  assert (H1 : u "ab" <> []) by discriminate.
  assert (H2 : literal (u "ab")) by (repeat constructor).
  split; [split; assumption|].
  exact (rtf_literal_text_is_one_plain_run (U := BasicLatin) (u "ab") H1 H2).
Defined.

Lemma rtf_bold_group_witness :
  (literal (u "a") /\ literal (u "b") /\ literal (u "c"))
  /\ ClipboardRtfRunParser.parse (U := BasicLatin)
       (u "a" ++ u "{\b " ++ u "b" ++ u "}" ++ u "c")
     = Some [(u "a", false); (u "b", true); (u "c", false)].
Proof.
  assert (La : literal (u "a")) by (repeat constructor).
  assert (Lb : literal (u "b")) by (repeat constructor).
  assert (Lc : literal (u "c")) by (repeat constructor).
  split; [repeat split; assumption|].
  apply (rtf_bold_ends_with_its_group (U := BasicLatin) (u "a") (u "b") (u "c"));
    try assumption; discriminate.
Defined.

Lemma rtf_unicode_escape_witness :
  (Forall (fun x => ascii_isdigit x = true) (u "8364")
   /\ int (U := BasicLatin) (u "8364") = Some 8364%Z
   /\ ClipboardRtfRunParser.is_special 63%N = false
   /\ isdigit (U := BasicLatin) 63%N = false
   /\ literal (u "x"))
  /\ ClipboardRtfRunParser.parse (U := BasicLatin)
       (u "\u" ++ u "8364" ++ 63%N :: u "x")
     = Some [(8364%N :: u "x", false)].
Proof.
  assert (H1 : Forall (fun x => ascii_isdigit x = true) (u "8364"))
    by (repeat constructor).
  assert (H2 : int (U := BasicLatin) (u "8364") = Some 8364%Z) by reflexivity.
  assert (H3 : ClipboardRtfRunParser.is_special 63%N = false) by reflexivity.
  assert (H4 : isdigit (U := BasicLatin) 63%N = false) by reflexivity.
  assert (H5 : literal (u "x")) by (repeat constructor).
  split; [repeat split; assumption|].
  apply (rtf_unicode_escape_drops_fallback (U := BasicLatin)
           (u "8364") 8364%Z 63%N (u "x")); try assumption.
  - discriminate.
  - lia.
  - discriminate.
Defined.

Lemma html_script_content_witness :
  ((0 < ClipboardHtmlRunParser._skip_depth inside_style)%Z
   /\ Forall (no_script_end (U := BasicLatin))
        [Data (u "x"); StartTag (u "b") []; EndTag (u "b")])
  /\ ClipboardHtmlRunParser.runs
       (ClipboardHtmlRunParser.feed_events (U := BasicLatin) inside_style
          [Data (u "x"); StartTag (u "b") []; EndTag (u "b")])
     = ClipboardHtmlRunParser.runs inside_style.
Proof.
  assert (H1 : (0 < ClipboardHtmlRunParser._skip_depth inside_style)%Z)
    by reflexivity.
  assert (H2 : Forall (no_script_end (U := BasicLatin))
                 [Data (u "x"); StartTag (u "b") []; EndTag (u "b")]).
  { repeat constructor. }
  split; [split; assumption|].
  exact (proj1 (proj2 (html_script_content_ignored (U := BasicLatin)
                         _ inside_style H1 H2))).
Defined.

Lemma html_balanced_markup_witness :
  (ClipboardHtmlRunParser._skip_depth
     (ClipboardHtmlRunParser.feed_events (U := BasicLatin)
        (ClipboardHtmlRunParser.init [] []) [StartTag (u "b") []]) = 0%Z
   /\ balanced (U := BasicLatin)
        [StartTag (u "i") []; Data (u "x"); EndTag (u "i")])
  /\ formatting
       (ClipboardHtmlRunParser.feed_events (U := BasicLatin)
          (ClipboardHtmlRunParser.init [] [])
          ([StartTag (u "b") []]
           ++ [StartTag (u "i") []; Data (u "x"); EndTag (u "i")]))
     = formatting
         (ClipboardHtmlRunParser.feed_events (U := BasicLatin)
            (ClipboardHtmlRunParser.init [] []) [StartTag (u "b") []]).
Proof.
  assert (H1 : ClipboardHtmlRunParser._skip_depth
                 (ClipboardHtmlRunParser.feed_events (U := BasicLatin)
                    (ClipboardHtmlRunParser.init [] [])
                    [StartTag (u "b") []]) = 0%Z) by reflexivity.
  assert (H2 : balanced (U := BasicLatin)
                 [StartTag (u "i") []; Data (u "x"); EndTag (u "i")]).
  { apply (balanced_element (U := BasicLatin) (u "i") [] [Data (u "x")]
             (u "i") []); try reflexivity.
    - apply balanced_data. apply balanced_nil.
    - apply balanced_nil. }
  split; [split; assumption|].
  exact (html_balanced_markup_restores_formatting (U := BasicLatin)
           [] [] _ _ H1 H2).
Defined.

Lemma decode_ascii_text_witness :
  (b "hi" <> [] /\ Forall (fun x => text_byte x = true) (b "hi"))
  /\ _decode_clipboard_bytes (b "hi" ++ repeat x00 2)
     = List.map Byte.to_N (b "hi").
Proof.
  assert (H1 : b "hi" <> []) by discriminate.
  assert (H2 : Forall (fun x => text_byte x = true) (b "hi"))
    by (repeat constructor).
  split; [split; assumption|].
  exact (decode_ascii_text_with_padding (b "hi") 2 H1 H2).
Defined.

Lemma decode_wide_ascii_witness :
  ((4 <= List.length (b "word"))%nat
   /\ Forall (fun x => text_byte x = true) (b "word"))
  /\ looks_like_utf16le (wide (b "word")) = true
  /\ decoding_plan (wide (b "word")) = (wide (b "word"), LE_CHAIN)
  /\ _decode_clipboard_bytes (wide (b "word")) = List.map Byte.to_N (b "word").
Proof.
  assert (H1 : (4 <= List.length (b "word"))%nat) by (simpl; lia).
  assert (H2 : Forall (fun x => text_byte x = true) (b "word"))
    by (repeat constructor).
  split; [split; assumption|].
  exact (decode_wide_ascii_text (b "word") H1 H2).
Defined.

Lemma normalize_text_idempotent_witness :
  normal_text (u "a b")
  /\ _normalize_captured_text (u "a b") = u "a b".
Proof.
  assert (H : normal_text (u "a b")).
  { split.
    - repeat constructor; discriminate.
    - repeat constructor; intros B; discriminate B. }
  split; [exact H|].
  exact (proj1 normalize_text_idempotent (u "a b") H).
Defined.

Lemma clipboard_text_witness :
  _read_clipboard_text hello_clipboard = Some (u "Hello world")
  /\ (u "Hello world" <> [] /\ strip (u "Hello world") = u "Hello world"
      /\ Forall plain_char (u "Hello world")).
Proof.
  assert (E : _read_clipboard_text hello_clipboard = Some (u "Hello world"))
    by (vm_compute; reflexivity).
  split; [exact E|].
  exact (clipboard_text_is_clean hello_clipboard (u "Hello world") E).
Defined.

Lemma capture_well_formed_witness :
  _read_clipboard_capture (U := BasicLatin) (L := ExampleLibrary)
    hello_clipboard = Returns (Some hello_capture)
  /\ well_formed_capture hello_capture.
Proof.
  assert (E : _read_clipboard_capture (U := BasicLatin) (L := ExampleLibrary)
                hello_clipboard = Returns (Some hello_capture))
    by (vm_compute; reflexivity).
  split; [exact E|].
  exact (capture_is_well_formed (U := BasicLatin) (L := ExampleLibrary)
           hello_clipboard hello_capture E).
Defined.

Lemma enabling_skips_witness :
  auto_capture_enabled NotatApp_init = false
  /\ appended_captures
       (Nat.iter 3
          (_clipboard_watch_tick (U := BasicLatin) (L := ExampleLibrary)
             hello_clipboard)
          (toggle_auto_capture (U := BasicLatin) (L := ExampleLibrary)
             hello_clipboard NotatApp_init))
     = appended_captures NotatApp_init.
Proof.
  assert (H : auto_capture_enabled NotatApp_init = false) by reflexivity.
  split; [exact H|].
  exact (proj1 (enabling_skips_current_content (U := BasicLatin)
                  (L := ExampleLibrary) hello_clipboard NotatApp_init 3 H)).
Defined.

Lemma normalizer_invents_nothing_witness :
  has_bold_run (_normalize_captured_runs [(u "a ", true); (u "b", false)])
  = true
  /\ has_bold_run [(u "a ", true); (u "b", false)] = true.
Proof.
  assert (H : has_bold_run
                (_normalize_captured_runs [(u "a ", true); (u "b", false)])
              = true) by (vm_compute; reflexivity).
  split; [exact H|].
  exact (proj2 (proj2 (normalizer_invents_nothing
                         [(u "a ", true); (u "b", false)])) H).
Defined.

Lemma short_label_witness :
  (3 <= 18)%Z
  /\ (len (_short_token_label (u "abcdefghijklmnopqrstuvwxyz") 18) <= 18)%Z.
Proof.
  assert (H : (3 <= 18)%Z) by lia.
  split; [exact H|].
  exact (proj1 (short_label_fits (u "abcdefghijklmnopqrstuvwxyz") 18 H)).
Defined.

Lemma bullet_paragraph_witness :
  plain_text_of bullet_paragraph = _bullet_prefix_for_level 1 ++ u "item"
  /\ exists content_runs,
       _classify_paragraph_for_export (U := BasicLatin) bullet_paragraph
       = BulletParagraph (Z.max 0 1) (_bullet_marker_for_level 1) content_runs
       /\ plain_text_of content_runs = u "item".
Proof.
  assert (E : plain_text_of bullet_paragraph
              = _bullet_prefix_for_level 1 ++ u "item") by reflexivity.
  split; [exact E|].
  exact (bullet_paragraph_is_classified (U := BasicLatin)
           bullet_paragraph 1 (u "item") E).
Defined.

Lemma heading_levels_witness :
  _classify_paragraph_for_export (U := BasicLatin)
    [(u "1.2 Title", false, false)]
  = HeadingParagraph 2 [(u "1.2 Title", false, false)]
  /\ (1 <= 2 <= 3)%Z.
Proof.
  assert (E : _classify_paragraph_for_export (U := BasicLatin)
                [(u "1.2 Title", false, false)]
              = HeadingParagraph 2 [(u "1.2 Title", false, false)])
    by (vm_compute; reflexivity).
  split; [exact E|].
  exact (proj1 (proj2 (heading_levels_are_one_to_three (U := BasicLatin)
                         [(u "1.2 Title", false, false)]) _ _ E)).
Defined.
